(** * kpsn: a shallow embedding of the size-norm toolkit

    The Python sources embedded here are
      - [kpsn/viz/styles.py]     (module [Styles]),
      - [kpsn/logging.py]        (module [Logging]),
      - [kpsn/util.py]           (module [Util]),
      - [kpsn/io/features.py]    (module [Features]),
      - [kpsn/fitting/scans.py]  (module [Scans]).

    Python exceptions are values of [exn]; a call that may raise returns a
    [result].  Code that mutates process-wide state runs in the monad [M],
    whose state survives a raised exception, as Python's does. *)

From stdpp Require Import base option list strings gmap pretty sorting.
From Stdlib Require Import ZArith Lia.

Local Open Scope string_scope.
Set Warnings "-register-all".

(** ** Exceptions and results *)

Inductive exn : Type :=
  | ValueError (msg : string)
  | AssertionError (msg : string)
  | KeyError (key : string)
  | IndexError (msg : string)
  | AttributeError (msg : string)
  | TypeError (msg : string)
  | OSError (msg : string).

Definition result (A : Type) : Type := exn + A.

Definition ok {A} (a : A) : result A := inr a.
Definition raise {A} (e : exn) : result A := inl e.

Definition rbind {A B} (r : result A) (k : A → result B) : result B :=
  match r with
  | inl e => inl e
  | inr a => k a
  end.

Definition rmap {A B} (f : A → B) (r : result A) : result B :=
  rbind r (λ a, ok (f a)).

#[global] Instance result_ret : MRet result := @ok.
#[global] Instance result_bind : MBind result := λ A B k r, rbind r k.
#[global] Instance result_fmap : FMap result := @rmap.

Fixpoint rmapM {A B} (f : A → result B) (l : list A) : result (list B) :=
  match l with
  | [] => ok []
  | a :: l' => rbind (f a) (λ b, rbind (rmapM f l') (λ bs, ok (b :: bs)))
  end.

Definition is_ok {A} (r : result A) : Prop := ∃ a, r = inr a.

(** ** The state-and-exception monad *)

Definition M (S A : Type) : Type := S → S * result A.

Definition mret {S A} (a : A) : M S A := λ s, (s, ok a).
Definition mraise {S A} (e : exn) : M S A := λ s, (s, raise e).

Definition mbind' {S A B} (m : M S A) (k : A → M S B) : M S B :=
  λ s, match m s with
       | (s', inl e) => (s', inl e)
       | (s', inr a) => k a s'
       end.

(** [try: body except: handler]: a bare [except] catches every exception;
    what [body] did to the state before raising stays done. *)
Definition try_except {S A} (body handler : M S A) : M S A :=
  λ s, match body s with
       | (s', inl _) => handler s'
       | (s', inr a) => (s', inr a)
       end.

Definition mget {S} : M S S := λ s, (s, ok s).
Definition mmodify {S} (f : S → S) : M S unit := λ s, (f s, ok tt).
Definition mlift {S A} (r : result A) : M S A := λ s, (s, r).

#[global] Instance M_ret S : MRet (M S) := @mret S.
#[global] Instance M_bind S : MBind (M S) := λ A B k m, mbind' m k.

(** ** Substring test, for statements about what a message names *)

Fixpoint is_prefix (p s : string) : bool :=
  match p, s with
  | EmptyString, _ => true
  | String a p', String b s' => if Ascii.eqb a b then is_prefix p' s' else false
  | String _ _, EmptyString => false
  end.

Fixpoint contains (needle hay : string) : bool :=
  is_prefix needle hay ||
  match hay with
  | EmptyString => false
  | String _ hay' => contains needle hay'
  end.

(** * kpsn/viz/styles.py *)

Module Styles.

(** What [plt.style.use] is handed: a style name, or the path of the style
    sheet [stylesheets/<stem>.mplstyle] next to the module. *)
Inductive style_ref : Type :=
  | StyleName (name : string)
  | StyleSheet (stem : string).

(** [plot_finalizer(plot_dir, **kws)] only stores its arguments. *)
Record plot_finalizer : Type := PlotFinalizer {
  plot_dir : string;
  kws : list (string * string)
}.

Section styles.

(** The palette type and the registry [color_sets] come from the module
    [_style], which is not part of the sources; so do matplotlib's style
    library, the style sheets on disk and seaborn's contexts. *)
Variable colorset : Type.
Variable color_sets : gmap string colorset.
Variable library : gset string.
Variable stylesheets : gset string.
Variable contexts : gset string.

(** Process-wide state: the styles applied to matplotlib (newest first),
    [colorset.active], seaborn's context and the log. *)
Record world : Type := World {
  applied : list style_ref;
  active : option colorset;
  context : option string;
  log : list string
}.

Definition with_applied (r : style_ref) (w : world) : world :=
  World (r :: applied w) (active w) (context w) (log w).
Definition with_active (c : colorset) (w : world) : world :=
  World (applied w) (Some c) (context w) (log w).
Definition with_context (c : string) (w : world) : world :=
  World (applied w) (active w) (Some c) (log w).
Definition with_log (msg : string) (w : world) : world :=
  World (applied w) (active w) (context w) (log w ++ [msg]).

(** [plt.style.use]: the name [default] always resolves, another name has
    to be in the style library, a path has to exist. *)
Definition style_known (r : style_ref) : bool :=
  match r with
  | StyleName name => bool_decide (name = "default" ∨ name ∈ library)
  | StyleSheet stem => bool_decide (stem ∈ stylesheets)
  end.

Definition plt_style_use (r : style_ref) : M world unit :=
  if style_known r then mmodify (with_applied r)
  else mraise (OSError "style not found").

(** [color_sets[style]] *)
Definition color_sets_getitem (style : string) : M world colorset :=
  match color_sets !! style with
  | Some c => mret c
  | None => mraise (KeyError style)
  end.

Definition set_active (c : colorset) : M world unit :=
  mmodify (with_active c).

Definition logging_warn (msg : string) : M world unit :=
  mmodify (with_log msg).

Definition sns_set_context (c : string) : M world unit :=
  if bool_decide (c ∈ contexts) then mmodify (with_context c)
  else mraise (ValueError "context must be in paper, notebook, talk, poster").

(** The warning is an ordinary string literal, not an f-string: the braces
    are logged as they are. *)
Definition warn_message : string :=
  "[init_nb] No matplotlib style `{style}` found, resorting to `default`.".

Definition set_style (style : string) : M world unit :=
  try_except
    (plt_style_use (StyleName style);;
     _style ← color_sets_getitem style;
     set_active _style)
    (try_except
       (plt_style_use (StyleSheet style);;
        _style ← color_sets_getitem style;
        set_active _style)
       (logging_warn warn_message;;
        let style := "default" in
        plt_style_use (StyleName style);;
        _style ← color_sets_getitem style;
        set_active _style)).

Definition init_nb (plot_dir : string) (style : string) (context : string)
    (kws : list (string * string))
  : M world (plot_finalizer * option colorset) :=
  set_style style;;
  w ← mget;
  let _style := active w in
  sns_set_context context;;
  clr ← color_sets_getitem style;
  let plotter := PlotFinalizer plot_dir kws in
  mret (plotter, _style).

(** The styles the two attempts of [set_style] managed to apply before
    they failed, and the state after its last branch has run, up to
    [colorset.active]. *)
Definition attempted (style : string) : list style_ref :=
  (if style_known (StyleSheet style) then [StyleSheet style] else [])
  ++ (if style_known (StyleName style) then [StyleName style] else []).

Definition after_fallback (style : string) (w : world) : world :=
  World (StyleName "default" :: attempted style ++ applied w)
        (active w) (context w) (log w ++ [warn_message]).

End styles.

Arguments World {colorset}.
Arguments applied {colorset}.
Arguments active {colorset}.
Arguments context {colorset}.
Arguments log {colorset}.
Arguments with_applied {colorset}.
Arguments with_active {colorset}.
Arguments with_context {colorset}.
Arguments with_log {colorset}.

End Styles.

(** * kpsn/logging.py *)

Module Logging.

(** The entries of a pytree path, as [jax.tree_util] names them. *)
Inductive key_entry : Type :=
  | DictKey (key : string)
  | SequenceKey (idx : nat).

Definition key_path : Type := list key_entry.

(** A pytree: leaves, dicts (items in the sorted key order in which jax
    flattens them) and lists or tuples. *)
Inductive pytree (A : Type) : Type :=
  | Leaf (a : A)
  | DictNode (items : list (string * pytree A))
  | SeqNode (items : list (pytree A)).

Arguments Leaf {A}.
Arguments DictNode {A}.
Arguments SeqNode {A}.

(** Python's [str] of a tuple, given the [repr] of its elements. *)
Fixpoint join (sep : string) (items : list string) : string :=
  match items with
  | [] => ""
  | [x] => x
  | x :: rest => x ++ sep ++ join sep rest
  end.

Definition str_tuple (items : list string) : string :=
  match items with
  | [] => "()"
  | [x] => "(" ++ x ++ ",)"
  | _ => "(" ++ join ", " items ++ ")"
  end.

Definition str_shape (sh : list nat) : string := str_tuple (pretty <$> sh).

(** [repr] of a path entry; a dict key is taken to be a plain word, whose
    [repr] is the word between single quotes. *)
Definition repr_key (k : key_entry) : string :=
  match k with
  | DictKey key => "DictKey(key='" ++ key ++ "')"
  | SequenceKey idx => "SequenceKey(idx=" ++ pretty idx ++ ")"
  end.

Definition str_path (pth : key_path) : string := str_tuple (repr_key <$> pth).

(** The text handed to [ValueError] by the statement that [record] builds
    and [exec]s. *)
Definition mismatch_message (pth : key_path) (offered expected : list nat)
  : string :=
  "Report at path " ++ str_path pth ++ " had shape " ++ str_shape offered
  ++ " when " ++ "trace was initialized with shape" ++ str_shape expected.

Section trace.

Local Open Scope list_scope.

(** Array elements; [zero] is what [jnp.zeros] fills with. *)
Variable F : Type.
Variable zero : F.

(** A jax array: its shape and its elements in row-major order. *)
Record ndarray : Type := NDArray {
  shape : list nat;
  data : list F
}.

Definition size (sh : list nat) : nat := foldr Nat.mul 1 sh.

Definition zeros (sh : list nat) : ndarray :=
  NDArray sh (replicate (size sh) zero).

(** A leaf of a report: a Python number, which has no [shape] attribute,
    or an array. *)
Inductive pyleaf : Type :=
  | PyScalar (x : F)
  | JArray (a : ndarray).

(** [jnp.array(leaf)] *)
Definition jnp_array (leaf : pyleaf) : ndarray :=
  match leaf with
  | PyScalar x => NDArray [] [x]
  | JArray a => a
  end.

(** [jnp.array] of equally shaped parts stacks them on a new first axis. *)
Definition stack (parts : list ndarray) : result ndarray :=
  match parts with
  | [] => ok (NDArray [0] [])
  | p :: _ =>
      if forallb (λ q, bool_decide (shape q = shape p)) parts
      then ok (NDArray (length parts :: shape p) (concat (data <$> parts)))
      else raise (ValueError "inhomogeneous shape")
  end.

(** [jnp.array(x)] of what [tree_map] hands over at a leaf of the first
    tree: the whole subtree of the other tree. *)
Fixpoint asarray (r : pytree pyleaf) : result ndarray :=
  match r with
  | Leaf x => ok (jnp_array x)
  | DictNode _ => raise (TypeError "dict is not a valid JAX type")
  | SeqNode items => rbind (rmapM asarray items) stack
  end.

(** [x.shape] *)
Definition getattr_shape (r : pytree pyleaf) : result (list nat) :=
  match r with
  | Leaf (JArray a) => ok (shape a)
  | _ => raise (AttributeError "object has no attribute 'shape'")
  end.

(** A negative index counts from the end. *)
Definition normalize_index (step : Z) (n : nat) : Z :=
  if (step <? 0)%Z then (step + Z.of_nat n)%Z else step.

(** [a[step]]: an index that is still out of bounds is clamped. *)
Definition getitem (a : ndarray) (step : Z) : result ndarray :=
  match shape a with
  | [] => raise (IndexError "too many indices for array")
  | n :: sh =>
      if bool_decide (n = 0)
      then raise (IndexError "index is out of bounds for axis 0 with size 0")
      else
        let i := Z.to_nat (Z.min (Z.max 0 (normalize_index step n))
                                 (Z.of_nat n - 1)) in
        ok (NDArray sh (take (size sh) (drop (i * size sh) (data a))))
  end.

(** [a.at[step].set(v)] for [v] of the shape of a slot, which is how
    [record] calls it: an index that is still out of bounds is dropped. *)
Definition at_set (a : ndarray) (step : Z) (v : ndarray) : result ndarray :=
  match shape a with
  | [] => raise (IndexError "too many indices for array")
  | n :: sh =>
      if bool_decide (n = 0)
      then raise (IndexError "index is out of bounds for axis 0 with size 0")
      else if bool_decide (shape v = sh) then
        let i := normalize_index step n in
        if bool_decide (0 ≤ i < Z.of_nat n)%Z then
          let k := Z.to_nat i in
          ok (NDArray (n :: sh)
                (take (k * size sh) (data a) ++ data v
                 ++ drop ((k + 1) * size sh) (data a)))
        else ok a
      else raise (ValueError "Incompatible shapes for broadcasting")
  end.

(** [tree_map(f, tree)] *)
Fixpoint tree_map {A B} (f : A → B) (t : pytree A) : pytree B :=
  match t with
  | Leaf a => Leaf (f a)
  | DictNode items => DictNode ((λ '(k, c), (k, tree_map f c)) <$> items)
  | SeqNode items => SeqNode (tree_map f <$> items)
  end.

(** [tree_flatten_with_path(tree)[0]] *)
Fixpoint flatten_with_path {A} (pth : key_path) (t : pytree A)
  : list (key_path * A) :=
  match t with
  | Leaf a => [(pth, a)]
  | DictNode items =>
      (fix go (its : list (string * pytree A)) : list (key_path * A) :=
         match its with
         | [] => []
         | (k, c) :: its' =>
             flatten_with_path (pth ++ [DictKey k]) c ++ go its'
         end) items
  | SeqNode items =>
      (fix go (i : nat) (its : list (pytree A)) : list (key_path * A) :=
         match its with
         | [] => []
         | c :: its' =>
             flatten_with_path (pth ++ [SequenceKey i]) c ++ go (S i) its'
         end) 0 items
  end.

(** Walking the children of two nodes side by side, with the position
    of the child; the nodes have to have the same number of children. *)
Fixpoint zip_children {X Y Z} (mismatch : exn)
    (f : nat → X → Y → result Z) (i : nat) (xs : list X) (ys : list Y)
  : result (list Z) :=
  match xs, ys with
  | [], [] => ok []
  | x :: xs', y :: ys' =>
      rbind (f i x y) (λ z,
      rbind (zip_children mismatch f (S i) xs' ys') (λ zs, ok (z :: zs)))
  | _, _ => raise mismatch
  end.

(** [treedef.flatten_up_to(other)]: the subtrees of [other] at the leaves
    of the first tree; it raises when [other] does not have the first
    tree's structure down to those leaves. *)
Fixpoint flatten_up_to {A B} (t : pytree A) (r : pytree B)
  : result (list (pytree B)) :=
  match t with
  | Leaf _ => ok [r]
  | DictNode items =>
      match r with
      | DictNode ritems =>
          rmap (λ parts, concat parts)
            (zip_children (ValueError "Dict key mismatch")
               (λ _ '(k, c) '(k', rc),
                  if bool_decide (k = k') then flatten_up_to c rc
                  else raise (ValueError "Dict key mismatch"))
               0 items ritems)
      | _ => raise (ValueError "Tree structure mismatch")
      end
  | SeqNode items =>
      match r with
      | SeqNode ritems =>
          rmap (λ parts, concat parts)
            (zip_children (ValueError "Tuple arity mismatch")
               (λ _ c rc, flatten_up_to c rc) 0 items ritems)
      | _ => raise (ValueError "Tree structure mismatch")
      end
  end.

(** The leaf calls of [tree_map_with_path(f, tree, other)], in flattening
    order, on trees that [flatten_up_to] accepts. *)
Fixpoint map_leaves {A B C} (f : key_path → A → pytree B → result C)
    (pth : key_path) (t : pytree A) (r : pytree B) : result (pytree C) :=
  match t with
  | Leaf a => rmap Leaf (f pth a r)
  | DictNode items =>
      match r with
      | DictNode ritems =>
          rmap DictNode
            (zip_children (ValueError "Dict key mismatch")
               (λ _ '(k, c) '(_, rc),
                  rmap (pair k) (map_leaves f (pth ++ [DictKey k]) c rc))
               0 items ritems)
      | _ => raise (ValueError "Tree structure mismatch")
      end
  | SeqNode items =>
      match r with
      | SeqNode ritems =>
          rmap SeqNode
            (zip_children (ValueError "Tuple arity mismatch")
               (λ i c rc, map_leaves f (pth ++ [SequenceKey i]) c rc)
               0 items ritems)
      | _ => raise (ValueError "Tree structure mismatch")
      end
  end.

(** [tree_map_with_path(f, tree, other)]: the structure check comes
    first, then the leaf calls. *)
Definition tree_map_with_path {A B C}
    (f : key_path → A → pytree B → result C)
    (t : pytree A) (r : pytree B) : result (pytree C) :=
  rbind (flatten_up_to t r) (λ _, map_leaves f [] t r).

(** The class [ArrayTrace]. *)
Record ArrayTrace : Type := MkArrayTrace {
  _n_steps : nat;
  _tree : option (pytree ndarray)
}.

Definition __init__ (n_steps : nat) : ArrayTrace := MkArrayTrace n_steps None.

Definition initialize (reports : pytree pyleaf) : M ArrayTrace unit :=
  mmodify (λ self,
    MkArrayTrace (_n_steps self)
      (Some (tree_map
               (λ report_leaf,
                  zeros (_n_steps self :: shape (jnp_array report_leaf)))
               reports))).

(** The function [record] maps over the leaves.  The test converts the
    report leaf with [jnp.array]; the message of the other branch reads
    the leaf's own [shape] attribute. *)
Definition record_leaf (step : Z) (pth : key_path) (trace : ndarray)
    (report_leaf : pytree pyleaf) : result ndarray :=
  offered ← asarray report_leaf;
  slot ← getitem trace step;
  if bool_decide (shape offered = shape slot)
  then at_set trace step offered
  else
    said ← getattr_shape report_leaf;
    raise (ValueError (mismatch_message pth said (shape slot))).

Definition record (reports : pytree pyleaf) (step : Z) : M ArrayTrace unit :=
  self ← mget;
  (if _tree self is None then initialize reports else mret tt);;
  self ← mget;
  match _tree self with
  | None =>
      (* not reached: [initialize] has set the tree *)
      mraise (ValueError "Tree structure mismatch")
  | Some tree =>
      tree' ← mlift (tree_map_with_path (record_leaf step) tree reports);
      mmodify (λ self, MkArrayTrace (_n_steps self) (Some tree'))
  end.

Definition read (self : ArrayTrace) : option (pytree ndarray) := _tree self.

(** An array holds as many elements as its shape says. *)
Definition well_sized (a : ndarray) : bool :=
  bool_decide (length (data a) = size (shape a)).

(** [tree_all p t]: [p] holds of every leaf. *)
Fixpoint tree_all {X} (p : X → bool) (t : pytree X) : bool :=
  match t with
  | Leaf a => p a
  | DictNode items => forallb (λ '(_, c), tree_all p c) items
  | SeqNode items => forallb (tree_all p) items
  end.

(** [all2 p xs ys]: the lists have the same length and [p] holds of the
    elements at every position. *)
Fixpoint all2 {X Y} (p : X → Y → bool) (xs : list X) (ys : list Y) : bool :=
  match xs, ys with
  | [], [] => true
  | x :: xs', y :: ys' => p x y && all2 p xs' ys'
  | _, _ => false
  end.

(** [compatible n tree reports]: the report has the structure of the
    tree of buffers, and every buffer has the shape of its report leaf
    behind a first axis of length [n]. *)
Fixpoint compatible (n : nat) (t : pytree ndarray) (r : pytree pyleaf)
  : bool :=
  match t, r with
  | Leaf b, Leaf x => bool_decide (shape b = n :: shape (jnp_array x))
  | DictNode items, DictNode ritems =>
      all2 (λ '(k, c) '(k', rc), bool_decide (k = k') && compatible n c rc)
           items ritems
  | SeqNode items, SeqNode ritems => all2 (compatible n) items ritems
  | _, _ => false
  end.

(** [tree_map(f, tree)] for an [f] that may raise; the leaves are
    visited in flattening order. *)
Fixpoint tree_mapM {X Y} (f : X → result Y) (t : pytree X)
  : result (pytree Y) :=
  match t with
  | Leaf a => rmap Leaf (f a)
  | DictNode items =>
      rmap DictNode
        (rmapM (λ '(k, c), rmap (pair k) (tree_mapM f c)) items)
  | SeqNode items => rmap SeqNode (rmapM (tree_mapM f) items)
  end.

(** [trace[step]]; an uninitialized trace holds the empty pytree [None],
    which [tree_map] returns as it is. *)
Definition __getitem__ (self : ArrayTrace) (step : Z)
  : result (option (pytree ndarray)) :=
  match _tree self with
  | None => ok None
  | Some tree => rmap Some (tree_mapM (λ arr, getitem arr step) tree)
  end.


Definition __len__ (self : ArrayTrace) : nat := _n_steps self.

Definition as_dict (self : ArrayTrace) : option (pytree ndarray) := _tree self.

Definition map (func : ndarray → ndarray) : M ArrayTrace unit :=
  mmodify (λ self,
    MkArrayTrace (_n_steps self) (tree_map func <$> _tree self)).

(** [copy]: [arr.copy()] is an array with the same shape and elements. *)
Definition copy (self : ArrayTrace) : ArrayTrace :=
  MkArrayTrace (_n_steps self) (tree_map (λ arr, arr) <$> _tree self).

#[local] Instance key_entry_eq_dec : EqDecision key_entry.
Proof. solve_decision. Defined.

(** [_index(tree, path)]: the loop variable is called [path] as well, so
    the test compares each path of the tree with itself.  The message of
    the error prints the path and the tree; only the path is kept here. *)
Fixpoint _index_loop {X} (paths_vals : list (key_path * X)) (path : key_path)
  : result X :=
  match paths_vals with
  | [] => raise (IndexError ("No element " ++ str_path path)%string)
  | (path, val) :: rest =>
      if bool_decide (path = path) then ok val else _index_loop rest path
  end.

Definition _index {X} (tree : pytree X) (path : key_path) : result X :=
  _index_loop (flatten_with_path [] tree) path.

Definition _all_paths {X} (tree : pytree X) : list key_path :=
  (flatten_with_path [] tree).*1.

End trace.

Arguments NDArray {F}.
Arguments shape {F}.
Arguments data {F}.
Arguments PyScalar {F}.
Arguments JArray {F}.
Arguments MkArrayTrace {F}.
Arguments _n_steps {F}.
Arguments _tree {F}.
Arguments compatible {F}.
Arguments well_sized {F}.

End Logging.

(** * kpsn/util.py *)

Module Util.

(** One- and two-dimensional arrays: the shape and the entry at each index.
    Entries outside the shape are never read by the operations below. *)
Record arr1 (T : Type) : Type := Arr1 {
  len1 : nat;
  elt1 : nat → T
}.

Record arr2 (T : Type) : Type := Arr2 {
  sh2 : nat * nat;
  elt2 : nat → nat → T
}.

Arguments Arr1 {T}.
Arguments len1 {T}.
Arguments elt1 {T}.
Arguments Arr2 {T}.
Arguments sh2 {T}.
Arguments elt2 {T}.

(** NumPy's broadcasting rule for one axis. *)
Definition broadcast_dim (n m : nat) : result nat :=
  if bool_decide (n = m) then ok n
  else if bool_decide (n = 1) then ok m
  else if bool_decide (m = 1) then ok n
  else raise (ValueError "Incompatible shapes for broadcasting").

(** The index an axis of length [n] is read at for position [i] of the
    broadcast result. *)
Definition bidx (n i : nat) : nat := if bool_decide (n = 1) then 0 else i.

(** An elementwise binary operation on two-dimensional arrays. *)
Definition broadcast2 {A B C} (op : A → B → C) (a : arr2 A) (b : arr2 B)
  : result (arr2 C) :=
  r ← broadcast_dim (sh2 a).1 (sh2 b).1;
  c ← broadcast_dim (sh2 a).2 (sh2 b).2;
  ok (Arr2 (r, c)
        (λ i j, op (elt2 a (bidx (sh2 a).1 i) (bidx (sh2 a).2 j))
                   (elt2 b (bidx (sh2 b).1 i) (bidx (sh2 b).2 j)))).

(** The same on one-dimensional arrays. *)
Definition broadcast1 {A B C} (op : A → B → C) (a : arr1 A) (b : arr1 B)
  : result (arr1 C) :=
  n ← broadcast_dim (len1 a) (len1 b);
  ok (Arr1 n (λ i, op (elt1 a (bidx (len1 a) i)) (elt1 b (bidx (len1 b) i)))).

Definition map2d {A B} (f : A → B) (a : arr2 A) : arr2 B :=
  Arr2 (sh2 a) (λ i j, f (elt2 a i j)).

(** [jnp.arange(n)] *)
Definition arange (n : nat) : arr1 nat := Arr1 n (λ i, i).

(** [a[:, None]] and [a[None, :]] *)
Definition column {T} (a : arr1 T) : arr2 T := Arr2 (len1 a, 1) (λ i _, elt1 a i).
Definition row {T} (a : arr1 T) : arr2 T := Arr2 (1, len1 a) (λ _ j, elt1 a j).

(** [a.repeat(k, axis=1)] and [a.repeat(k, axis=0)]: every entry is
    repeated [k] times in a row along the axis. *)
Definition repeat_axis1 {T} (k : nat) (a : arr2 T) : arr2 T :=
  Arr2 ((sh2 a).1, (sh2 a).2 * k) (λ i j, elt2 a i (j `div` k)).
Definition repeat_axis0 {T} (k : nat) (a : arr2 T) : arr2 T :=
  Arr2 ((sh2 a).1 * k, (sh2 a).2) (λ i j, elt2 a (i `div` k) j).

(** [jnp.diag(a)] of a two-dimensional array. *)
Definition diag {T} (a : arr2 T) : arr1 T :=
  Arr1 ((sh2 a).1 `min` (sh2 a).2) (λ i, elt2 a i i).

(** [v[ix]] with an integer array [ix]; an index past the end is clamped. *)
Definition take_ix {T} (v : arr1 T) (ix : arr2 nat) : arr2 T :=
  Arr2 (sh2 ix) (λ i j, elt1 v (elt2 ix i j `min` (len1 v - 1))).

(** [jnp.full(shape, x)], which is what broadcasting a scalar gives. *)
Definition full {T} (sh : nat * nat) (x : T) : arr2 T := Arr2 sh (λ _ _, x).

Section floats.

(** Floating-point numbers and their operations; no algebraic law is
    assumed of them.  [of_int] converts a Python integer. *)
Variable F : Type.
Variable fadd fsub fmul fdiv : F → F → F.
Variable fpow : F → nat → F.
Variable of_int : Z → F.

(** [jnp.linalg.inv] *)
Variable linalg_inv : arr2 F → result (arr2 F).

(** The local function of [InverseWishart._variance].  [scale.ndim == 2]
    holds by the type of [scale]. *)
Definition _single_variance (df scale : arr2 F) : result (arr2 F) :=
  if bool_decide (sh2 df = sh2 scale) then
    let dim := (sh2 scale).2 in
    let fdim := of_int (Z.of_nat dim) in
    let diag := diag scale in
    let rows := repeat_axis1 3 (column (arange dim)) in
    let cols := repeat_axis0 3 (row (arange dim)) in
    let c1 := map2d (λ x, fadd (fsub x fdim) (of_int 1)) df in
    let c2 := map2d (λ x, fsub (fsub x fdim) (of_int 1)) df in
    t1 ← broadcast2 fmul c1 (map2d (λ x, fpow x 2) scale);
    t2 ← broadcast2 fmul c2 (take_ix diag rows);
    t3 ← broadcast2 fmul t2 (take_ix diag cols);
    numer ← broadcast2 fadd t1 t3;
    let d0 := map2d (λ x, fsub x fdim) df in
    let d1 := map2d (λ x, fpow (fsub (fsub x fdim) (of_int 1)) 2) df in
    let d3 := map2d (λ x, fsub (fsub x fdim) (of_int 3)) df in
    d01 ← broadcast2 fmul d0 d1;
    denom ← broadcast2 fmul d01 d3;
    broadcast2 fdiv numer denom
  else raise (AssertionError "").

(** The parameters of an [InverseWishart]: no batch dimension, or one.
    In the second case the list holds, per batch entry, [df] and [scale]
    after broadcasting them against each other. *)
Inductive InverseWishart : Type :=
  | Unbatched (df : F) (scale : arr2 F)
  | Batched (params : list (F * arr2 F)).

(** [jnp.broadcast_arrays(jnp.array(df)[..., None, None], scale)] turns
    [df] into an array of the shape of [scale]. *)
Definition _variance (self : InverseWishart)
  : result (arr2 F + list (arr2 F)) :=
  match self with
  | Unbatched df scale =>
      rmap inl (_single_variance (full (sh2 scale) df) scale)
  | Batched params =>
      rmap inr
        (rmapM (λ '(df, scale), _single_variance (full (sh2 scale) df) scale)
               params)
  end.

(** The sum a matrix product takes over the shared axis. *)
Variable fsum : list F → F.

(** [a @ b] *)
Definition matmul (a b : arr2 F) : result (arr2 F) :=
  if bool_decide ((sh2 a).2 = (sh2 b).1) then
    ok (Arr2 ((sh2 a).1, (sh2 b).2)
          (λ i j, fsum ((λ k, fmul (elt2 a i k) (elt2 b k j))
                        <$> seq 0 (sh2 a).2)))
  else raise (TypeError "dot_general requires contracting dimensions to have the same shape").

(** [jnp.linalg.inv(cov)]; the argument [None] can only come up with
    assertions switched off. *)
Definition inv_of (cov : option (arr2 F)) : result (arr2 F) :=
  match cov with
  | Some c => linalg_inv c
  | None => raise (TypeError "inv requires ndarray or scalar arguments")
  end.

Definition sq_mahalanobis (x y : arr1 F) (cov cov_inv : option (arr2 F))
  : result F :=
  diff ← broadcast1 fsub x y;
  if bool_decide (cov ≠ None ∨ cov_inv ≠ None) then
    cov_inv ← match cov_inv with
              | None => inv_of cov
              | Some ci => ok ci
              end;
    p ← matmul (row diff) cov_inv;
    q ← matmul p (column diff);
    ok (elt2 q 0 0)
  else raise (AssertionError "One of `cov` or `cov_inv` required.").

End floats.

(** ** Flat lower-triangular forms *)

(** [jnp.tril_indices(n, k)]: the positions (i, j) with j ≤ i + k of an
    n × n matrix, row by row; [jnp.diag_indices(n)]. *)
Definition tril_row (n : nat) (k : Z) (i : nat) : list (nat * nat) :=
  pair i <$> seq 0 (Z.to_nat (Z.of_nat i + 1 + k) `min` n).

Definition tril_indices (n : nat) (k : Z) : list (nat * nat) :=
  concat (tril_row n k <$> seq 0 n).

Definition diag_indices (n : nat) : list (nat * nat) :=
  (λ i, (i, i)) <$> seq 0 n.

(** Where a position stands in a list of positions. *)
Fixpoint position (ixs : list (nat * nat)) (p : nat * nat) : option nat :=
  match ixs with
  | [] => None
  | q :: ixs' =>
      if bool_decide (q = p) then Some 0 else S <$> position ixs' p
  end.

(** The rows of a triangle whose row [i] has [width i] positions, and
    the number of positions before row [i]. *)
Definition triangle (width : nat → nat) (n : nat) : list (nat * nat) :=
  concat ((λ i, pair i <$> seq 0 (width i)) <$> seq 0 n).

Fixpoint triangle_offset (width : nat → nat) (i : nat) : nat :=
  match i with
  | 0 => 0
  | S i' => triangle_offset width i' + width i'
  end.

Section tril.

(** Floating-point numbers as before; [zero] is what [jnp.zeros] holds. *)
Variable F : Type.
Variable zero : F.
Variable fmul : F → F → F.
Variable fsum : list F → F.
Variable fexp flog : F → F.

(** [jnp.linalg.cholesky] *)
Variable linalg_cholesky : arr2 F → result (arr2 F).

(** [a.at[ix[0], ix[1]].set(values)] for a one-dimensional [values],
    which is broadcast to the number of positions.  The positions are
    distinct and inside [a] wherever this is called. *)
Definition at_set2 (a : arr2 F) (ixs : list (nat * nat)) (values : arr1 F)
  : result (arr2 F) :=
  if bool_decide (len1 values = length ixs ∨ len1 values = 1) then
    ok (Arr2 (sh2 a)
          (λ i j, match position ixs (i, j) with
                  | Some k => elt1 values (bidx (len1 values) k)
                  | None => elt2 a i j
                  end))
  else raise (ValueError "Incompatible shapes for broadcasting").

(** [a[ix[0], ix[1]]]; a position past the end is clamped. *)
Definition gather2 (a : arr2 F) (ixs : list (nat * nat)) : arr1 F :=
  Arr1 (length ixs)
    (λ k, match ixs !! k with
          | Some (i, j) =>
              elt2 a (i `min` ((sh2 a).1 - 1)) (j `min` ((sh2 a).2 - 1))
          | None => elt2 a 0 0
          end).

(** [a[:n]], [a[n:]], an elementwise function, [jnp.swapaxes(a, -2, -1)]
    and [jnp.concatenate([a, b])] *)
Definition slice_to (n : nat) (a : arr1 F) : arr1 F :=
  Arr1 (n `min` len1 a) (elt1 a).

Definition slice_from (n : nat) (a : arr1 F) : arr1 F :=
  Arr1 (len1 a - n) (λ i, elt1 a (n + i)).

Definition map1d (f : F → F) (a : arr1 F) : arr1 F :=
  Arr1 (len1 a) (λ i, f (elt1 a i)).

Definition swapaxes (a : arr2 F) : arr2 F :=
  Arr2 ((sh2 a).2, (sh2 a).1) (λ i j, elt2 a j i).

Definition concatenate (a b : arr1 F) : arr1 F :=
  Arr1 (len1 a + len1 b)
    (λ i, if bool_decide (i < len1 a) then elt1 a i
          else elt1 b (i - len1 a)).

(** The three functions below are modelled without batch dimensions. *)
Definition expand_tril (tril_values : arr1 F) (n : nat) : result (arr2 F) :=
  let tmp := full (n, n) zero in
  let tril := tril_indices n 0 in
  at_set2 tmp tril tril_values.

(** The factor [L] that [expand_tril_cholesky] builds before it
    multiplies it with its transpose. *)
Definition cholesky_factor (cholesky : arr1 F) (n : nat)
  : result (arr2 F) :=
  let log_diag := slice_to n cholesky in
  let tril := slice_from n cholesky in
  let tmp := full (n, n) zero in
  let tril_ix := tril_indices n (-1) in
  let diag_ix := diag_indices n in
  L ← at_set2 tmp tril_ix tril;
  at_set2 L diag_ix (map1d fexp log_diag).

Definition expand_tril_cholesky (cholesky : arr1 F) (n : nat)
  : result (arr2 F) :=
  L ← cholesky_factor cholesky n;
  let pd := matmul F fmul fsum L (swapaxes L) in
  pd.

Definition extract_tril_cholesky (A : arr2 F) : result (arr1 F) :=
  L ← linalg_cholesky A;
  let n := (sh2 L).2 in
  let tril_ix := tril_indices n (-1) in
  let diag_ix := diag_indices n in
  let tril := gather2 L tril_ix in
  let log_diag := map1d flog (gather2 L diag_ix) in
  ok (concatenate log_diag tril).

End tril.

End Util.

(** * kpsn/io/features.py *)

Module Features.

Section features.

Local Open Scope list_scope.

(** Array elements; [zero] is the [0] that [jnp.insert] writes. *)
Variable A : Type.
Variable zero : A.

(** [jnp.std] of one column, the comparison of floats and the literal
    [1e-5]. *)
Variable std : list A → A.
Variable flt_lt : A → A → bool.
Variable lit_1e_5 : A.

(** ** Reshaping

    Arrays of keypoints are nested lists, frames outermost.  A reshape
    regroups the elements in row-major order; with one dimension left
    open it fails when the given dimensions do not divide the size. *)

Fixpoint chunk (w count : nat) (l : list A) : list (list A) :=
  match count with
  | 0 => []
  | S c => take w l :: chunk w c (drop w l)
  end.

Fixpoint chunk_rows (h count : nat) (l : list (list A))
  : list (list (list A)) :=
  match count with
  | 0 => []
  | S c => take h l :: chunk_rows h c (drop h l)
  end.

(** [a.reshape((n0, -1))] of the elements [flat] *)
Definition reshape2 (n0 : nat) (flat : list A) : result (list (list A)) :=
  if bool_decide (n0 = 0 ∨ length flat `mod` n0 ≠ 0)
  then raise (ValueError "cannot reshape array")
  else ok (chunk (length flat `div` n0) n0 flat).

(** [a.reshape((n0, n1, -1))] of the elements [flat] *)
Definition reshape3 (n0 n1 : nat) (flat : list A)
  : result (list (list (list A))) :=
  if bool_decide (n0 * n1 = 0 ∨ length flat `mod` (n0 * n1) ≠ 0)
  then raise (ValueError "cannot reshape array")
  else
    let w := length flat `div` (n0 * n1) in
    ok (chunk_rows n1 n0 (chunk w (n0 * n1) flat)).

(** [a.shape[-1]] of a two-dimensional array with at least one row *)
Definition width (rows : list (list A)) : nat :=
  match rows with
  | [] => 0
  | r :: _ => length r
  end.

(** ** Configuration: the [features] section of a model config *)

Record calibration : Type := Calibration {
  kpt_names : list string;
  reduce_ixs : list nat;
  n_kpts : nat
}.

Record config : Type := Config {
  type_ : string;
  calibration_data : option calibration
}.

Definition get_calibration_data (cfg : config) : result calibration :=
  match calibration_data cfg with
  | Some calib => ok calib
  | None => raise (KeyError "calibration_data")
  end.

(** ** locked_pts *)

(** [jnp.isin(xs, test)] *)
Definition isin (xs test : list nat) : list bool :=
  (λ x, bool_decide (x ∈ test)) <$> xs.

(** [row[mask]] for a boolean mask *)
Fixpoint mask_select (mask : list bool) (row : list A) : list A :=
  match mask, row with
  | m :: mask', x :: row' =>
      if m then x :: mask_select mask' row' else mask_select mask' row'
  | _, _ => []
  end.

Definition locked_pts_reduce_array (arr : list (list (list A)))
    (cfg : config) : result (list (list A)) :=
  flat_data ← reshape2 (length arr) (concat (concat arr));
  calib ← get_calibration_data cfg;
  let ix_mask := isin (seq 0 (width flat_data)) (reduce_ixs calib) in
  ok (mask_select (negb <$> ix_mask) <$> flat_data).

(** [jnp.insert(row, ix, z)]: an index past the end is clamped, which is
    what [take] and [drop] do. *)
Definition insert_at (ix : nat) (z : A) (row : list A) : list A :=
  take ix row ++ z :: drop ix row.

(** What [inflate_array] takes, one frame of features or several, and
    what it returns. *)
Inductive features : Type :=
  | Frame (v : list A)
  | Frames (rows : list (list A)).

Inductive keypoints : Type :=
  | Pose (kp : list (list A))
  | Poses (kps : list (list (list A))).

Definition locked_pts_inflate_array (arr : features) (cfg : config)
  : result keypoints :=
  calib ← get_calibration_data cfg;
  let rows := match arr with Frame v => [v] | Frames rows => rows end in
  let rows :=
    foldl (λ arr reduced_ix, insert_at reduced_ix zero <$> arr) rows
          (merge_sort Nat.le (reduce_ixs calib)) in
  match arr with
  | Frame _ => rmap Pose (reshape2 (n_kpts calib) (concat rows))
  | Frames given =>
      rmap Poses (reshape3 (length given) (n_kpts calib) (concat rows))
  end.

(** The dataset classes are not part of the sources.  A keypoint dataset
    is represented by what calibration reads of it:
    [dataset.as_features().data], [dataset.n_points] and
    [dataset.keypoint_names]. *)
Record KeypointDataset : Type := Dataset {
  as_features_data : list (list A);
  n_points : nat;
  keypoint_names : list string
}.

(** Column [j] of a two-dimensional array *)
Definition column (j : nat) (rows : list (list A)) : list A :=
  omap (λ r, r !! j) rows.

(** [a.std(axis=0)] *)
Definition std_axis0 (rows : list (list A)) : list A :=
  (λ j, std (column j rows)) <$> seq 0 (width rows).

(** [jnp.where(mask)[0].tolist()]: the positions that hold [True] *)
Fixpoint where_ (off : nat) (mask : list bool) : list nat :=
  match mask with
  | [] => []
  | m :: mask' =>
      if m then off :: where_ (S off) mask' else where_ (S off) mask'
  end.

Definition locked_pts__calibrate (dataset : KeypointDataset)
  : list nat * nat :=
  let flat_data := as_features_data dataset in
  let reduce_ixs :=
    where_ 0 ((λ s, flt_lt s lit_1e_5) <$> std_axis0 flat_data) in
  (reduce_ixs, n_points dataset).



Fixpoint zeroed_from (off : nat) (ixs : list nat) (row : list A) : list A :=
  match row with
  | [] => []
  | v :: row' =>
      (if bool_decide (off ∈ ixs) then zero else v)
      :: zeroed_from (S off) ixs row'
  end.

(** ** pcs *)

Record pcs_config : Type := PcsConfig {
  tgt_variance : A;
  max_pts : option nat;
  subset_seed : nat
}.

(** [jr.permutation(jr.PRNGKey(seed), n)], and everything [_calibrate]
    does from the principal-component fit on, which lives in modules
    that are not part of the sources. *)
Variable permutation : nat → nat → list nat.
Variable pcs_calibration : Type.
Variable fit_and_select :
  list (list A) → pcs_config → option nat → nat → result pcs_calibration.

(** [jr.choice(key, n, (k,), replace=False)] *)
Definition jr_choice (seed n k : nat) : result (list nat) :=
  if bool_decide (n < k)
  then raise (ValueError
    "Cannot take a larger sample than population when 'replace=False'")
  else ok (take k (permutation seed n)).

(** [rows[subset]]; an index past the end is clamped. *)
Definition take_rows (rows : list (list A)) (subset : list nat)
  : list (list A) :=
  omap (λ i, rows !! (i `min` (length rows - 1))) subset.

Definition reducing_message (n k : nat) : string :=
  ("Reducing dataset size for PCA: " ++ pretty n ++ " to "
     ++ pretty k ++ ".")%string.

(** The state is the log. *)
Definition pcs__calibrate (dataset : KeypointDataset) (cfg : pcs_config)
    (n_dims : option nat) : M (list string) pcs_calibration :=
  let flat_data := as_features_data dataset in
  flat_data ←
    match max_pts cfg with
    | Some k =>
        subset ← mlift (jr_choice (subset_seed cfg) (length flat_data) k);
        mmodify (λ log, log ++ [reducing_message (length flat_data) k]);;
        mret (take_rows flat_data subset)
    | None => mret flat_data
    end;
  mlift (fit_and_select flat_data cfg n_dims (n_points dataset)).

End features.

Arguments Frame {A}.
Arguments Frames {A}.
Arguments Pose {A}.
Arguments Poses {A}.
Arguments Dataset {A}.
Arguments as_features_data {A}.
Arguments n_points {A}.
Arguments keypoint_names {A}.
Arguments PcsConfig {A}.
Arguments max_pts {A}.
Arguments subset_seed {A}.
Arguments tgt_variance {A}.

End Features.

(** * kpsn/project/paths.py and kpsn/fitting/scans.py *)

Module Scans.

(** Configuration documents. *)
Inductive yaml : Type :=
  | YNull
  | YBool (b : bool)
  | YInt (z : Z)
  | YStr (s : string)
  | YList (items : list yaml)
  | YDict (items : list (string * yaml)).

(** ** Python dicts: items in insertion order, keys distinct *)

Definition pydict (V : Type) : Type := list (string * V).

Fixpoint dict_lookup {V} (d : pydict V) (k : string) : option V :=
  match d with
  | [] => None
  | (k', v) :: d' => if bool_decide (k' = k) then Some v else dict_lookup d' k
  end.

Definition dict_getitem {V} (d : pydict V) (k : string) : result V :=
  match dict_lookup d k with
  | Some v => ok v
  | None => raise (KeyError k)
  end.

(** [d[k] = v]: a key that is present keeps its place. *)
Fixpoint dict_setitem {V} (d : pydict V) (k : string) (v : V) : pydict V :=
  match d with
  | [] => [(k, v)]
  | (k', v') :: d' =>
      if bool_decide (k' = k) then (k, v) :: d'
      else (k', v') :: dict_setitem d' k v
  end.

Definition dict_keys {V} (d : pydict V) : list string := d.*1.

(** [x[key]], [x[key] = v], [len(x)] and [x[i]] on documents *)
Definition yaml_getitem (x : yaml) (key : string) : result yaml :=
  match x with
  | YDict d => dict_getitem d key
  | _ => raise (TypeError "object is not subscriptable")
  end.

Definition yaml_setitem (x : yaml) (key : string) (v : yaml) : result yaml :=
  match x with
  | YDict d => ok (YDict (dict_setitem d key v))
  | _ => raise (TypeError "object does not support item assignment")
  end.

Definition py_len (x : yaml) : result nat :=
  match x with
  | YList items => ok (length items)
  | YDict d => ok (length d)
  | YStr s => ok (String.length s)
  | _ => raise (TypeError "object has no len()")
  end.

Definition py_index (x : yaml) (i : nat) : result yaml :=
  match x with
  | YList items =>
      match items !! i with
      | Some v => ok v
      | None => raise (IndexError "list index out of range")
      end
  | YStr s =>
      match String.get i s with
      | Some c => ok (YStr (String c EmptyString))
      | None => raise (IndexError "string index out of range")
      end
  | YDict _ => raise (KeyError (pretty i))
  | _ => raise (TypeError "object is not subscriptable")
  end.

(** ** Model-name templates

    A template string is held by its parts: literal text and the fields
    [{scan_name}] and [{i}].  [model_name_fmt] may also be a callable. *)
Inductive piece : Type :=
  | Lit (text : string)
  | FieldScanName
  | FieldI.

Inductive name_fmt : Type :=
  | FmtString (pieces : list piece)
  | FmtCallable (f : string → nat → result string).

(** ["{scan_name}_{i}"] *)
Definition default_model_name_fmt : name_fmt :=
  FmtString [FieldScanName; Lit "_"; FieldI].

Definition format_piece (scan_name : string) (i : nat) (p : piece) : string :=
  match p with
  | Lit text => text
  | FieldScanName => scan_name
  | FieldI => pretty i
  end.

(** [name_fmt_string.format(scan_name=..., i=...)] *)
Definition str_format (pieces : list piece) (scan_name : string) (i : nat)
  : string :=
  String.concat "" (format_piece scan_name i <$> pieces).

Definition call_name_fmt (fmt : name_fmt) (scan_name : string) (i : nat)
  : result string :=
  match fmt with
  | FmtString pieces => ok (str_format pieces scan_name i)
  | FmtCallable f => f scan_name i
  end.

(** ** paths.py *)

Record Project : Type := MkProject { project_dir : string }.

Definition path_join (p q : string) : string := p ++ "/" ++ q.
Infix "/:" := path_join (at level 40, left associativity).

Definition root (p : Project) : string := project_dir p.
Definition scan (p : Project) (scan_name : string) : string :=
  project_dir p /: "scans" /: scan_name.
Definition model (p : Project) (model_name : string) : string :=
  project_dir p /: "models" /: model_name.
Definition main_config (p : Project) : string := project_dir p /: "project.yml".
Definition base_model_config (p : Project) : string :=
  project_dir p /: "base_model.yml".
Definition model_config (p : Project) (model_name : string) : string :=
  project_dir p /: "models" /: model_name /: "model.yml".

Section scans.

(** The file system, and the functions of [kpsn.config] and
    [kpsn.fitting.methods] that [setup_scan_config] calls; these modules
    are not part of the sources.  [mkdir path parents] stands for
    [path.mkdir(parents=parents, exist_ok=True)]. *)
Variable W : Type.
Variable mkdir : string → bool → M W unit.
Variable load_model_config : string → M W yaml.
Variable save_config : string → yaml → M W unit.
Variable save_model_config : string → yaml → M W unit.
Variable flatten : yaml → pydict yaml.
Variable deepen : pydict yaml → yaml.
Variable recursive_update : yaml → yaml → yaml.
(** [fit_types["split"].defaults] *)
Variable split_defaults : yaml.

Definition ensure_dirs (project : Project) : M W unit :=
  mkdir (root project) true;;
  mkdir (root project /: "scans") false;;
  mkdir (root project /: "models") false.

(** [loads("models: null")] *)
Definition scan_cfg_structure : pydict yaml := [("models", YNull)].

(** [{p_name: p_vals[i] for p_name, p_vals in scan_params.items()}] *)
Fixpoint model_overrides_at (i : nat) (items : pydict yaml)
    (acc : pydict yaml) : result (pydict yaml) :=
  match items with
  | [] => ok acc
  | (p_name, p_vals) :: items' =>
      v ← py_index p_vals i;
      model_overrides_at i items' (dict_setitem acc p_name v)
  end.

(** [{model_name_fmt(scan_name=name, i=i): {...} for i in range(n_models)}],
    with the indices still to come in [todo] *)
Fixpoint models_mapping (fmt : name_fmt) (name : string)
    (scan_params : pydict yaml) (todo : list nat) (acc : pydict yaml)
  : result (pydict yaml) :=
  match todo with
  | [] => ok acc
  | i :: todo' =>
      key ← call_name_fmt fmt name i;
      overrides ← model_overrides_at i scan_params [];
      models_mapping fmt name scan_params todo'
        (dict_setitem acc key (YDict overrides))
  end.

(** [len(scan_params[list(scan_params.keys())[0]])] *)
Definition count_models (scan_params : pydict yaml) : result nat :=
  match dict_keys scan_params with
  | [] => raise (IndexError "list index out of range")
  | first :: _ =>
      vals ← dict_getitem scan_params first;
      py_len vals
  end.

(** [{"type": "split", **scan_config, **{"em": fit}}] *)
Definition split_fit_config (scan_config fit : yaml) : result yaml :=
  match scan_config with
  | YDict items =>
      let d := foldl (λ d kv, dict_setitem d kv.1 kv.2)
                     [("type", YStr "split")] items in
      ok (YDict (dict_setitem d "em" fit))
  | _ => raise (TypeError "object is not a mapping")
  end.

(** Column [i] of a grid of value lists: every declared parameter with
    the [i]-th value of its list. *)
Definition column_at (i : nat) (grid : pydict yaml) : pydict yaml :=
  omap (λ '(p_name, p_vals),
          match p_vals with
          | YList vals => pair p_name <$> vals !! i
          | _ => None
          end) grid.

(** The value lists of a grid all have length [n]. *)
Definition lists_of_length (n : nat) (grid : pydict yaml) : Prop :=
  Forall (λ kv, ∃ vals, kv.2 = YList vals ∧ length vals = n) grid.

(** An effect that cannot fail. *)
Definition succeeds (m : M W unit) : Prop := ∀ w, ∃ w', m w = (w', ok tt).

Definition is_standard (x : yaml) : bool :=
  match x with
  | YStr s => bool_decide (s = "standard")
  | _ => false
  end.

Definition setup_scan_config (project : Project) (name : string)
    (scan_params : yaml) (scan_config_overrides : pydict yaml)
    (model_name_fmt : name_fmt) (model_overrides : pydict yaml)
  : M W (yaml * yaml) :=
  (* preprocess args *)
  let scan_params := flatten scan_params in
  n_models ← mlift (count_models scan_params);
  (* Fill out main scan config *)
  models ← mlift (models_mapping model_name_fmt name scan_params
                    (seq 0 n_models) []);
  let config := YDict (dict_setitem scan_cfg_structure "models" (YDict models)) in
  (* set up model config modified to run with `split` fit method *)
  model_config ← load_model_config (base_model_config project);
  let model_config := recursive_update model_config (deepen model_overrides) in
  fit ← mlift (yaml_getitem model_config "fit");
  fit_type ← mlift (yaml_getitem fit "type");
  if is_standard fit_type then
    let scan_config :=
      recursive_update split_defaults (deepen scan_config_overrides) in
    fit ← mlift (yaml_getitem model_config "fit");
    new_fit ← mlift (split_fit_config scan_config fit);
    model_config ← mlift (yaml_setitem model_config "fit" new_fit);
    (* create scan directory and save configs *)
    ensure_dirs project;;
    let scan_dir := scan project name in
    mkdir scan_dir false;;
    save_config (scan_dir /: "scan.yml") config;;
    save_model_config (scan_dir /: "base_model.yml") model_config;;
    mret (config, model_config)
  else
    mraise (ValueError "Scan only supports standard fit type for base model.").

(** ** [create_model] and the loaders of [scans.py]

    [Path(p).parent] of the standard library and [load_config] of
    [kpsn.config]. *)
Variable path_parent : string → string.
Variable load_config : string → M W yaml.

(** What [create_model] takes as [project]: a project or the path the
    model config is written to; and as [config]: a config or the path
    of one. *)
Inductive project_arg : Type :=
  | InProject (project : Project)
  | AtPath (path : string).

Inductive config_arg : Type :=
  | ConfigDict (config : yaml)
  | ConfigPath (path : string).

Definition create_model (project : project_arg) (name : option string)
    (config : option config_arg) (config_overrides : pydict yaml)
  : M W (string * yaml) :=
  '(model_dir, config_path, config) ←
    match project with
    | AtPath path =>
        let model_dir := path_parent path in
        let config_path := path in
        match config with
        | None =>
            mraise (ValueError
              "Base config `config` is required if `project` is a string or PathLike.")
        | Some config => mret (model_dir, config_path, config)
        end
    | InProject project =>
        match name with
        | None =>
            mraise (ValueError
              "`name` is required if `project` is a string or PathLike")
        | Some name =>
            let model_dir := model project name in
            let config_path := model_config project name in
            let config :=
              match config with
              | None => ConfigPath (base_model_config project)
              | Some config => config
              end in
            mret (model_dir, config_path, config)
        end
    end;
  config ←
    match config with
    | ConfigPath path => load_model_config path
    | ConfigDict config => mret config
    end;
  let config := recursive_update config (deepen config_overrides) in
  mkdir model_dir false;;
  save_model_config config_path config;;
  mret (model_dir, config).

(** What [_resolve_model_config] takes as [project_or_config]. *)
Inductive config_source : Type :=
  | FromProject (project : Project)
  | FromPath (path : string)
  | FromConfig (cfg : yaml).

Definition _resolve_model_config (project_or_config : config_source)
    (scan_name model_name : option string) : M W yaml :=
  match project_or_config with
  | FromConfig cfg => mret cfg
  | FromProject project =>
      match scan_name, model_name with
      | Some scan_name, _ =>
          load_model_config (scan project scan_name /: "base_model.yml")
      | None, Some model_name =>
          load_model_config (model_config project model_name)
      | None, None =>
          mraise (TypeError
            "expected str, bytes or os.PathLike object, not Project")
      end
  | FromPath path =>
      match scan_name, model_name with
      | Some _, _ => mraise (AttributeError "object has no attribute 'scan'")
      | None, Some _ =>
          mraise (AttributeError "object has no attribute 'model_config'")
      | None, None => load_model_config (path /: "model.yml")
      end
  end.

(** [list(x.keys())] *)
Definition yaml_keys (x : yaml) : result (list string) :=
  match x with
  | YDict d => ok (dict_keys d)
  | _ => raise (AttributeError "object has no attribute 'keys'")
  end.

(** What [_resolve_scan_model_list] takes as [scan_name]: the name of a
    scan, or the list of models itself. *)
Inductive scan_arg : Type :=
  | ScanName (scan_name : string)
  | ModelList (models : list string).

Definition _resolve_scan_model_list (project : Project)
    (scan_name : scan_arg) : M W (list string) :=
  match scan_name with
  | ScanName scan_name =>
      scan_cfg ← load_config (scan project scan_name /: "scan.yml");
      models ← mlift (yaml_getitem scan_cfg "models");
      mlift (yaml_keys models)
  | ModelList models => mret models
  end.

(** The value lists of a grid all have at least [n] entries. *)
Definition lists_at_least (n : nat) (grid : pydict yaml) : Prop :=
  Forall (λ kv, ∃ vals, kv.2 = YList vals ∧ (n ≤ length vals)%nat) grid.

End scans.

End Scans.

(** * Properties *)

(** ** Plotting style bootstrap *)

Module StylesSpec.
Import Styles.
Local Open Scope list_scope.

Ltac run_styles :=
  cbv [set_style init_nb try_except mbind M_bind mbind' mret M_ret mraise
       mmodify mget plt_style_use color_sets_getitem set_active logging_warn
       sns_set_context with_applied with_active with_context with_log
       applied active context log ok raise].

Section styles_spec.

Variable colorset : Type.
Variable color_sets : gmap string colorset.
Variable library stylesheets contexts : gset string.

Local Abbreviation set_style := (set_style colorset color_sets library stylesheets).
Local Abbreviation init_nb :=
  (init_nb colorset color_sets library stylesheets contexts).
Local Abbreviation style_known := (style_known library stylesheets).

Lemma default_known : style_known (StyleName "default") = true.
Proof. apply bool_decide_eq_true. by left. Qed.

(** A name that the registry does not hold makes both attempts fail,
    whatever matplotlib knows of it. *)
Lemma set_style_unregistered (style : string) (w : world colorset) :
  color_sets !! style = None →
  set_style style w =
    match color_sets !! "default" with
    | Some c => (with_active c (after_fallback colorset library stylesheets style w), ok tt)
    | None => (after_fallback colorset library stylesheets style w, raise (KeyError "default"))
    end.
Proof.
  intros Hreg. unfold after_fallback, attempted.
  run_styles. rewrite default_known.
  destruct (style_known (StyleName style));
    destruct (style_known (StyleSheet style)); simpl;
    rewrite ?Hreg; simpl; destruct (color_sets !! "default"); reflexivity.
Qed.

(** A name that matplotlib cannot resolve either way ends in the last
    branch as well. *)
Lemma set_style_unknown (style : string) (w : world colorset) :
  style_known (StyleName style) = false →
  style_known (StyleSheet style) = false →
  set_style style w =
    match color_sets !! "default" with
    | Some c => (with_active c (after_fallback colorset library stylesheets style w), ok tt)
    | None => (after_fallback colorset library stylesheets style w, raise (KeyError "default"))
    end.
Proof.
  intros H1 H2. unfold after_fallback, attempted.
  run_styles. rewrite default_known, H1, H2. simpl.
  destruct (color_sets !! "default"); reflexivity.
Qed.

(** With the default palette registered [set_style] never raises. *)
Lemma set_style_total (style : string) (w : world colorset) :
  is_Some (color_sets !! "default") →
  ∃ w', set_style style w = (w', ok tt).
Proof.
  intros [c Hc]. run_styles. rewrite default_known, Hc.
  destruct (style_known (StyleName style));
    destruct (style_known (StyleSheet style));
    destruct (color_sets !! style); simpl; eauto.
Qed.

(** When the name given to [init_nb] is registered and the context is one
    seaborn knows, nothing after [set_style] raises. *)
Lemma init_nb_registered plot_dir style ctx kws (w : world colorset) :
  is_Some (color_sets !! style) →
  is_Some (color_sets !! "default") →
  ctx ∈ contexts →
  ∃ w' r, init_nb plot_dir style ctx kws w = (w', ok r).
Proof.
  intros [c Hc] Hd Hctx.
  destruct (set_style_total style w Hd) as [w' Hw'].
  unfold Styles.init_nb.
  cbv [mbind M_bind mbind']. rewrite Hw'.
  cbv [mget sns_set_context color_sets_getitem mmodify mret M_ret ok].
  rewrite (bool_decide_eq_true_2 _ Hctx), Hc. eauto.
Qed.

End styles_spec.

(** C8, evaluated at the style name [nonexistent]: for a name that is
    neither in matplotlib's style library nor a style sheet of the resource
    directory, [set_style] applies the style [default] and logs one
    warning; the text of that warning is the literal of the source, braces
    included, and the requested name does not occur in it. *)
Theorem set_style_warning_omits_the_name
    (colorset : Type) (color_sets : gmap string colorset)
    (library stylesheets : gset string) (w : world colorset) :
  "nonexistent" ∉ library →
  "nonexistent" ∉ stylesheets →
  let w' := (set_style colorset color_sets library stylesheets
               "nonexistent" w).1 in
  applied w' = StyleName "default" :: applied w
  ∧ log w' = log w ++ [warn_message]
  ∧ contains "nonexistent" warn_message = false.
Proof.
  intros Hlib Hsheet.
  assert (H1 : style_known library stylesheets (StyleName "nonexistent") = false).
  { apply bool_decide_eq_false. intros [?|?]; [discriminate | done]. }
  assert (H2 : style_known library stylesheets (StyleSheet "nonexistent") = false).
  { by apply bool_decide_eq_false. }
  cbv zeta. rewrite set_style_unknown by done.
  assert (Hatt : attempted library stylesheets "nonexistent" = []).
  { unfold attempted. by rewrite H1, H2. }
  unfold after_fallback. rewrite Hatt.
  destruct (color_sets !! "default"); simpl; (split; [done | split; [done |]]);
    vm_compute; reflexivity.
Qed.

Lemma set_style_warning_omits_the_name_witness :
  let w := World [] (None : option string) None [] in
  let w' := (set_style string {["default" := "dark"]} {["ggplot"]}
               {["vscode_dark"]} "nonexistent" w).1 in
  applied w' = StyleName "default" :: applied w
  ∧ log w' = log w ++ [warn_message]
  ∧ contains "nonexistent" warn_message = false.
Proof.
  apply (set_style_warning_omits_the_name string {["default" := "dark"]}
           {["ggplot"]} {["vscode_dark"]}
           (World [] (None : option string) None []));
    apply not_elem_of_singleton; discriminate.
Defined.

(** C10: for a style name that the registry [color_sets] does not hold,
    with the default palette registered and a context seaborn knows,
    [init_nb] raises the key error of the requested name; by then
    [set_style] has fallen back: the style [default] is applied, the
    default palette is active and the warning is logged.  For a registered
    name, under the same conditions, [init_nb] returns. *)
Theorem init_nb_key_error_after_fallback
    (colorset : Type) (color_sets : gmap string colorset)
    (library stylesheets contexts : gset string)
    (plot_dir style ctx : string) (kws : list (string * string))
    (w : world colorset) (c : colorset) :
  color_sets !! "default" = Some c →
  ctx ∈ contexts →
  (color_sets !! style = None →
     init_nb colorset color_sets library stylesheets contexts
       plot_dir style ctx kws w
     = (with_context ctx
          (with_active c (after_fallback colorset library stylesheets style w)),
        raise (KeyError style)))
  ∧ (is_Some (color_sets !! style) →
     ∃ w' r, init_nb colorset color_sets library stylesheets contexts
               plot_dir style ctx kws w = (w', ok r)).
Proof.
  intros Hd Hctx. split.
  - intros Hreg. unfold init_nb. cbv [mbind M_bind mbind'].
    rewrite set_style_unregistered, Hd by done.
    cbv [mget sns_set_context color_sets_getitem mmodify mraise raise].
    by rewrite (bool_decide_eq_true_2 _ Hctx), Hreg.
  - intros Hreg. by apply init_nb_registered.
Qed.

Lemma init_nb_key_error_after_fallback_witness :
  init_nb string {["default" := "plain"]} {["ggplot"]} ∅ {["paper"]}
    "plots" "ggplot" "paper" [] (World [] None None [])
  = (World [StyleName "default"; StyleName "ggplot"] (Some "plain")
       (Some "paper") [warn_message],
     raise (KeyError "ggplot")).
Proof.
  pose proof (init_nb_key_error_after_fallback string
                {["default" := "plain"]} {["ggplot"]} ∅ {["paper"]}
                "plots" "ggplot" "paper" [] (World [] None None []) "plain")
    as H.
  destruct H as [H _]; [reflexivity | by apply elem_of_singleton |].
  rewrite H by reflexivity. vm_compute. reflexivity.
Defined.

End StylesSpec.

(** ** Structured array trace *)

Module LoggingSpec.
Import Logging.
Local Open Scope list_scope.

(** Induction on pytrees, with the hypothesis for every child. *)
Lemma pytree_ind' {A} (P : pytree A → Prop) :
  (∀ a, P (Leaf a)) →
  (∀ items, Forall (λ kc, P kc.2) items → P (DictNode items)) →
  (∀ items, Forall P items → P (SeqNode items)) →
  ∀ t, P t.
Proof.
  intros Hleaf Hdict Hseq. fix IH 1. intros [a|items|items].
  - apply Hleaf.
  - apply Hdict. induction items as [|[k c] items IHitems]; constructor.
    + apply IH.
    + apply IHitems.
  - apply Hseq. induction items as [|c items IHitems]; constructor.
    + apply IH.
    + apply IHitems.
Qed.

Section trace_spec.

Variable F : Type.
Variable zero : F.

Local Abbreviation getitem := (getitem F).
Local Abbreviation at_set := (at_set F).
Local Abbreviation record_leaf := (record_leaf F).
Local Abbreviation record := (record F zero).

Lemma normalize_index_nonneg (step : Z) (n : nat) :
  (0 ≤ step)%Z → normalize_index step n = step.
Proof.
  unfold normalize_index. intros. destruct (Z.ltb_spec step 0); [lia | done].
Qed.



Lemma getitem_shape (a slot : ndarray F) (step : Z) :
  getitem a step = ok slot → ∃ n, shape a = n :: shape slot ∧ n ≠ 0.
Proof.
  unfold Logging.getitem. destruct (shape a) as [|n sh]; [done|].
  case_bool_decide; [done|]. intros [= <-]. eauto.
Qed.

Lemma at_set_shape (a a' v : ndarray F) (step : Z) :
  at_set a step v = ok a' → shape a' = shape a.
Proof.
  unfold Logging.at_set. destruct (shape a) as [|n sh] eqn:Hsh; [done|].
  repeat case_bool_decide; try done; intros [= <-]; simpl; congruence.
Qed.

(** One leaf, a step that stays out of bounds: the write is dropped. *)
Lemma record_leaf_dropped (step : Z) pth (b : ndarray F) (x : pyleaf F) n :
  n ≠ 0 →
  shape b = n :: shape (jnp_array F x) →
  (step < - Z.of_nat n ∨ Z.of_nat n ≤ step)%Z →
  record_leaf step pth b (Leaf x) = ok b.
Proof.
  intros Hn Hsh Hstep. unfold Logging.record_leaf, Logging.getitem, Logging.at_set.
  simpl. rewrite Hsh. simpl.
  rewrite !bool_decide_eq_false_2 by done. simpl.
  rewrite !bool_decide_eq_true_2 by done.
  rewrite bool_decide_eq_false_2; [done|].
  unfold normalize_index. destruct (Z.ltb_spec step 0); lia.
Qed.

(** One leaf of the right shape: the write succeeds. *)
Lemma record_leaf_ok (step : Z) pth (b : ndarray F) (x : pyleaf F) n :
  n ≠ 0 →
  shape b = n :: shape (jnp_array F x) →
  ∃ b', record_leaf step pth b (Leaf x) = ok b' ∧ shape b' = shape b.
Proof.
  intros Hn Hsh. unfold Logging.record_leaf, Logging.getitem. simpl.
  rewrite Hsh. simpl. rewrite bool_decide_eq_false_2 by done. simpl.
  rewrite bool_decide_eq_true_2 by done.
  destruct (at_set b step (jnp_array F x)) as [e|b'] eqn:Hset.
  - unfold Logging.at_set in Hset. rewrite Hsh in Hset.
    rewrite bool_decide_eq_false_2 in Hset by done.
    rewrite bool_decide_eq_true_2 in Hset by done.
    by case_bool_decide.
  - exists b'. split; [done|]. rewrite <- Hsh. by eapply at_set_shape.
Qed.


(** A compatible report passes the structure check. *)
Lemma flatten_up_to_compatible n (t : pytree (ndarray F)) r :
  compatible n t r = true → ∃ l, flatten_up_to t r = ok l.
Proof.
  revert r. induction t as [b|items IH|items IH] using pytree_ind';
    intros [x|ritems|ritems] Hc; simpl in Hc; try done; simpl; eauto.
  - assert (∀ i, ∃ ls,
      zip_children (ValueError "Dict key mismatch")
        (λ _ '(k, c) '(k', rc),
           if bool_decide (k = k') then flatten_up_to c rc
           else raise (ValueError "Dict key mismatch"))
        i items ritems = ok ls) as Hgo.
    { revert ritems Hc.
      induction IH as [|[k c] items Hhd _ IHitems];
        intros [|[k' rc] ritems] Hc i; simpl in *; try done; eauto.
      apply andb_prop in Hc as [Hc Hrest]. apply andb_prop in Hc as [Hk Hc].
      rewrite Hk. destruct (Hhd rc Hc) as [l ->]. simpl.
      destruct (IHitems ritems Hrest (S i)) as [ls ->]. simpl. eauto. }
    destruct (Hgo 0) as [ls ->]. simpl. eauto.
  - assert (∀ i, ∃ ls,
      zip_children (ValueError "Tuple arity mismatch")
        (λ _ c rc, flatten_up_to c rc) i items ritems = ok ls) as Hgo.
    { revert ritems Hc.
      induction IH as [|c items Hhd _ IHitems];
        intros [|rc ritems] Hc i; simpl in *; try done; eauto.
      apply andb_prop in Hc as [Hc Hrest].
      destruct (Hhd rc Hc) as [l ->]. simpl.
      destruct (IHitems ritems Hrest (S i)) as [ls ->]. simpl. eauto. }
    destruct (Hgo 0) as [ls ->]. simpl. eauto.
Qed.

(** Recording a compatible report succeeds at every step; the buffers
    keep their shapes, and a step that stays out of bounds leaves them
    as they are. *)
Lemma map_leaves_compatible n step (t : pytree (ndarray F)) r pth :
  n ≠ 0 →
  compatible n t r = true →
  ∃ t', map_leaves (record_leaf step) pth t r = ok t'
        ∧ tree_map shape t' = tree_map shape t
        ∧ ((step < - Z.of_nat n ∨ Z.of_nat n ≤ step)%Z → t' = t).
Proof.
  intros Hn. revert r pth.
  induction t as [b|items IH|items IH] using pytree_ind';
    intros [x|ritems|ritems] pth Hc; simpl in Hc; try done.
  - apply bool_decide_eq_true in Hc.
    destruct (record_leaf_ok step pth b x n Hn Hc) as (b' & Hb' & Hsh).
    exists (Leaf b'). simpl. rewrite Hb'. simpl.
    split; [done|]. split; [by rewrite Hsh|].
    intros Hstep. rewrite (record_leaf_dropped step pth b x n) in Hb' by done.
    by injection Hb' as ->.
  - assert (∀ i, ∃ cs,
      zip_children (ValueError "Dict key mismatch")
        (λ _ '(k, c) '(_, rc),
           rmap (pair k)
             (map_leaves (record_leaf step) (pth ++ [DictKey k]) c rc))
        i items ritems = ok cs
      ∧ ((λ '(k, c), (k, tree_map shape c)) <$> cs)
        = ((λ '(k, c), (k, tree_map shape c)) <$> items)
      ∧ ((step < - Z.of_nat n ∨ Z.of_nat n ≤ step)%Z → cs = items)) as Hgo.
    { revert ritems Hc.
      induction IH as [|[k c] items Hhd _ IHitems];
        intros [|[k' rc] ritems] Hc i; simpl in *; try done.
      { exists []. eauto. }
      apply andb_prop in Hc as [Hc Hrest]. apply andb_prop in Hc as [Hk Hc].
      destruct (Hhd rc (pth ++ [DictKey k]) Hc) as (c' & -> & Hsh & Hdrop).
      destruct (IHitems ritems Hrest (S i)) as (cs & -> & Hshs & Hdrops).
      simpl. exists ((k, c') :: cs). split; [done|]. split.
      - rewrite !fmap_cons. by rewrite Hsh, Hshs.
      - intros Hstep. by rewrite Hdrop, Hdrops. }
    destruct (Hgo 0) as (cs & Hcs & Hshs & Hdrops).
    exists (DictNode cs). simpl. rewrite Hcs. simpl.
    split; [done|]. split; [by rewrite Hshs|].
    intros Hstep. by rewrite Hdrops.
  - assert (∀ i, ∃ cs,
      zip_children (ValueError "Tuple arity mismatch")
        (λ i c rc,
           map_leaves (record_leaf step) (pth ++ [SequenceKey i]) c rc)
        i items ritems = ok cs
      ∧ (tree_map shape <$> cs) = (tree_map shape <$> items)
      ∧ ((step < - Z.of_nat n ∨ Z.of_nat n ≤ step)%Z → cs = items)) as Hgo.
    { revert ritems Hc.
      induction IH as [|c items Hhd _ IHitems];
        intros [|rc ritems] Hc i; simpl in *; try done.
      { exists []. eauto. }
      apply andb_prop in Hc as [Hc Hrest].
      destruct (Hhd rc (pth ++ [SequenceKey i]) Hc) as (c' & -> & Hsh & Hdrop).
      destruct (IHitems ritems Hrest (S i)) as (cs & -> & Hshs & Hdrops).
      simpl. exists (c' :: cs). split; [done|]. split.
      - rewrite !fmap_cons. by rewrite Hsh, Hshs.
      - intros Hstep. by rewrite Hdrop, Hdrops. }
    destruct (Hgo 0) as (cs & Hcs & Hshs & Hdrops).
    exists (SeqNode cs). simpl. rewrite Hcs. simpl.
    split; [done|]. split; [by rewrite Hshs|].
    intros Hstep. by rewrite Hdrops.
Qed.


(** One leaf: a second write to the same step replaces the first. *)
Lemma record_leaf_overwrite (step : Z) pth (b b1 : ndarray F)
    (x1 x2 : pyleaf F) n :
  n ≠ 0 →
  shape b = n :: shape (jnp_array F x1) →
  shape (jnp_array F x2) = shape (jnp_array F x1) →
  well_sized b = true →
  well_sized (jnp_array F x1) = true →
  record_leaf step pth b (Leaf x1) = ok b1 →
  record_leaf step pth b1 (Leaf x2) = record_leaf step pth b (Leaf x2).
Proof.
  intros Hn Hsh H21 Hb Hx1.
  apply bool_decide_eq_true in Hb. apply bool_decide_eq_true in Hx1.
  unfold Logging.record_leaf, Logging.getitem, Logging.at_set. simpl.
  rewrite Hsh. rewrite !bool_decide_eq_false_2 by done. simpl.
  rewrite !bool_decide_eq_true_2 by done.
  case_bool_decide as Hrange.
  - intros [= <-]. simpl. rewrite !bool_decide_eq_false_2 by done. simpl.
    rewrite !bool_decide_eq_true_2 by done. do 2 f_equal.
    set (k := Z.to_nat (normalize_index step n)).
    set (sz := size (shape (jnp_array F x1))) in *.
    assert (k < n) by lia.
    rewrite Hsh in Hb. simpl in Hb. fold sz in Hb.
    assert (length (take (k * sz) (data b)) = k * sz) as Hlen.
    { rewrite length_take. nia. }
    rewrite take_app_length' by done. f_equal. f_equal.
    rewrite app_assoc, drop_app_length'; [done|].
    rewrite length_app, Hlen, Hx1. lia.
  - intros [= <-]. rewrite Hsh.
    rewrite !(bool_decide_eq_false_2 (n = 0)) by done. simpl.
    rewrite !bool_decide_eq_true_2 by done.
    by rewrite (bool_decide_eq_false_2 _ Hrange).
Qed.

(** A whole report: recording a second report for the same step gives
    what recording it alone gives. *)
Lemma map_leaves_overwrite n step (t t1 : pytree (ndarray F)) r1 r2 pth :
  n ≠ 0 →
  compatible n t r1 = true →
  compatible n t r2 = true →
  tree_all well_sized t = true →
  tree_all (λ x, well_sized (jnp_array F x)) r1 = true →
  map_leaves (record_leaf step) pth t r1 = ok t1 →
  map_leaves (record_leaf step) pth t1 r2
  = map_leaves (record_leaf step) pth t r2
  ∧ compatible n t1 r2 = true.
Proof.
  intros Hn. revert t1 r1 r2 pth.
  induction t as [b|items IH|items IH] using pytree_ind';
    intros t1 [x1|ritems1|ritems1] [x2|ritems2|ritems2] pth Hc1 Hc2 Hwt Hwr Hrun;
    simpl in Hc1, Hc2; try done.
  - apply bool_decide_eq_true in Hc1. apply bool_decide_eq_true in Hc2.
    simpl in Hrun, Hwt, Hwr.
    destruct (record_leaf step pth b (Leaf x1)) as [e|b1] eqn:Hb1; [done|].
    injection Hrun as <-. simpl.
    assert (shape (jnp_array F x2) = shape (jnp_array F x1)) as H21 by congruence.
    rewrite (record_leaf_overwrite step pth b b1 x1 x2 n) by done.
    split; [done|]. apply bool_decide_eq_true.
    destruct (record_leaf_ok step pth b x1 n Hn Hc1) as (b' & Hb' & Hsh).
    rewrite Hb1 in Hb'. injection Hb' as <-. congruence.
  - simpl in Hrun, Hwt, Hwr.
    assert (∀ i rts1 rts2 cs,
      all2 (λ '(k, c) '(k', rc), bool_decide (k = k') && compatible n c rc)
           items rts1 = true →
      all2 (λ '(k, c) '(k', rc), bool_decide (k = k') && compatible n c rc)
           items rts2 = true →
      forallb (λ '(_, c), tree_all well_sized c) items = true →
      forallb (λ '(_, c), tree_all (λ x, well_sized (jnp_array F x)) c) rts1
        = true →
      zip_children (ValueError "Dict key mismatch")
        (λ _ '(k, c) '(_, rc),
           rmap (pair k)
             (map_leaves (record_leaf step) (pth ++ [DictKey k]) c rc))
        i items rts1 = ok cs →
      zip_children (ValueError "Dict key mismatch")
        (λ _ '(k, c) '(_, rc),
           rmap (pair k)
             (map_leaves (record_leaf step) (pth ++ [DictKey k]) c rc))
        i cs rts2
      = zip_children (ValueError "Dict key mismatch")
          (λ _ '(k, c) '(_, rc),
             rmap (pair k)
               (map_leaves (record_leaf step) (pth ++ [DictKey k]) c rc))
          i items rts2
      ∧ all2 (λ '(k, c) '(k', rc), bool_decide (k = k') && compatible n c rc)
             cs rts2 = true) as Hgo.
    { clear Hc1 Hc2 Hwt Hwr Hrun ritems1 ritems2 t1.
      induction IH as [|[k c] items Hhd _ IHitems];
        intros i [|[k1 rc1] rts1] [|[k2 rc2] rts2] cs Hc1 Hc2 Hwt Hwr Hrun;
        simpl in *; try done.
      { by injection Hrun as <-. }
      apply andb_prop in Hc1 as [Hc1 Hrest1]. apply andb_prop in Hc1 as [Hk1 Hc1].
      apply andb_prop in Hc2 as [Hc2 Hrest2]. apply andb_prop in Hc2 as [Hk2 Hc2].
      apply andb_prop in Hwt as [Hwt Hwts]. apply andb_prop in Hwr as [Hwr Hwrs].
      destruct (map_leaves (record_leaf step) (pth ++ [DictKey k]) c rc1)
        as [e|c1] eqn:Hc1run; [done|]. simpl in Hrun.
      match type of Hrun with rbind ?z _ = _ => destruct z as [e|cs'] eqn:Hzs end;
        [done|].
      injection Hrun as <-. simpl.
      destruct (Hhd c1 rc1 rc2 (pth ++ [DictKey k]) Hc1 Hc2 Hwt Hwr Hc1run)
        as [-> Hcompat].
      destruct (IHitems (S i) rts1 rts2 cs' Hrest1 Hrest2 Hwts Hwrs Hzs)
        as [-> Hcompats].
      split; [done|]. by rewrite Hk2, Hcompat, Hcompats. }
    match type of Hrun with rmap _ ?z = _ => destruct z as [e|cs] eqn:Hzs end;
      [done|].
    injection Hrun as <-. simpl.
    destruct (Hgo 0 ritems1 ritems2 cs Hc1 Hc2 Hwt Hwr Hzs) as [-> Hcompat].
    done.
  - simpl in Hrun, Hwt, Hwr.
    assert (∀ i rts1 rts2 cs,
      all2 (compatible n) items rts1 = true →
      all2 (compatible n) items rts2 = true →
      forallb (tree_all well_sized) items = true →
      forallb (tree_all (λ x, well_sized (jnp_array F x))) rts1 = true →
      zip_children (ValueError "Tuple arity mismatch")
        (λ i c rc,
           map_leaves (record_leaf step) (pth ++ [SequenceKey i]) c rc)
        i items rts1 = ok cs →
      zip_children (ValueError "Tuple arity mismatch")
        (λ i c rc,
           map_leaves (record_leaf step) (pth ++ [SequenceKey i]) c rc)
        i cs rts2
      = zip_children (ValueError "Tuple arity mismatch")
          (λ i c rc,
             map_leaves (record_leaf step) (pth ++ [SequenceKey i]) c rc)
          i items rts2
      ∧ all2 (compatible n) cs rts2 = true) as Hgo.
    { clear Hc1 Hc2 Hwt Hwr Hrun ritems1 ritems2 t1.
      induction IH as [|c items Hhd _ IHitems];
        intros i [|rc1 rts1] [|rc2 rts2] cs Hc1 Hc2 Hwt Hwr Hrun;
        simpl in *; try done.
      { by injection Hrun as <-. }
      apply andb_prop in Hc1 as [Hc1 Hrest1].
      apply andb_prop in Hc2 as [Hc2 Hrest2].
      apply andb_prop in Hwt as [Hwt Hwts]. apply andb_prop in Hwr as [Hwr Hwrs].
      destruct (map_leaves (record_leaf step) (pth ++ [SequenceKey i]) c rc1)
        as [e|c1] eqn:Hc1run; [done|]. simpl in Hrun.
      match type of Hrun with rbind ?z _ = _ => destruct z as [e|cs'] eqn:Hzs end;
        [done|].
      injection Hrun as <-. simpl.
      destruct (Hhd c1 rc1 rc2 (pth ++ [SequenceKey i]) Hc1 Hc2 Hwt Hwr Hc1run)
        as [-> Hcompat].
      destruct (IHitems (S i) rts1 rts2 cs' Hrest1 Hrest2 Hwts Hwrs Hzs)
        as [-> Hcompats].
      split; [done|]. by rewrite Hcompat, Hcompats. }
    match type of Hrun with rmap _ ?z = _ => destruct z as [e|cs] eqn:Hzs end;
      [done|].
    injection Hrun as <-. simpl.
    destruct (Hgo 0 ritems1 ritems2 cs Hc1 Hc2 Hwt Hwr Hzs) as [-> Hcompat].
    done.
Qed.

(** One array leaf of another shape than the slots: the error names the
    path, the shape offered and the shape of a slot. *)
Lemma record_leaf_array_mismatch (step : Z) pth (b a : ndarray F) n sh :
  n ≠ 0 →
  shape b = n :: sh →
  shape a ≠ sh →
  record_leaf step pth b (Leaf (JArray a))
  = raise (ValueError (mismatch_message pth (shape a) sh)).
Proof.
  intros Hn Hsh Hne. unfold Logging.record_leaf, Logging.getitem. simpl.
  rewrite Hsh. rewrite bool_decide_eq_false_2 by done. simpl.
  by rewrite bool_decide_eq_false_2.
Qed.

(** One Python number where the slots are not scalars: building the
    message fails before anything is raised on purpose. *)
Lemma record_leaf_scalar_mismatch (step : Z) pth (b : ndarray F) x n sh :
  n ≠ 0 →
  shape b = n :: sh →
  sh ≠ [] →
  record_leaf step pth b (Leaf (PyScalar x))
  = raise (AttributeError "object has no attribute 'shape'").
Proof.
  intros Hn Hsh Hne. unfold Logging.record_leaf, Logging.getitem. simpl.
  rewrite Hsh. rewrite bool_decide_eq_false_2 by done. simpl.
  by rewrite bool_decide_eq_false_2.
Qed.

(** [record] on an initialized trace is the structure check followed by
    the leaf calls. *)
Lemma record_initialized (self : ArrayTrace F) tree reports step :
  _tree self = Some tree →
  record reports step self =
    match tree_map_with_path (record_leaf step) tree reports with
    | inl e => (self, inl e)
    | inr tree' => (MkArrayTrace (_n_steps self) (Some tree'), ok tt)
    end.
Proof.
  intros Htree. unfold Logging.record.
  cbv [mbind M_bind mbind' mget mret M_ret mlift mmodify ok]. rewrite Htree.
  cbn. rewrite Htree.
  by destruct (tree_map_with_path (record_leaf step) tree reports).
Qed.

(** Recording twice for the same step leaves the trace as recording the
    second report alone does; this holds for every integer step. *)
Lemma record_twice_overwrites (self : ArrayTrace F) tree r1 r2 (step : Z) :
  _tree self = Some tree →
  _n_steps self ≠ 0 →
  compatible (_n_steps self) tree r1 = true →
  compatible (_n_steps self) tree r2 = true →
  tree_all well_sized tree = true →
  tree_all (λ x, well_sized (jnp_array F x)) r1 = true →
  mbind' (record r1 step) (λ _, record r2 step) self = record r2 step self.
Proof.
  intros Htree Hn Hc1 Hc2 Hwt Hwr.
  destruct (flatten_up_to_compatible _ _ _ Hc1) as [l1 Hl1].
  destruct (flatten_up_to_compatible _ _ _ Hc2) as [l2 Hl2].
  destruct (map_leaves_compatible (_n_steps self) step tree r1 [] Hn Hc1)
    as (t1 & Hrun1 & _).
  destruct (map_leaves_overwrite (_n_steps self) step tree t1 r1 r2 []
              Hn Hc1 Hc2 Hwt Hwr Hrun1) as [Hsame Hc2'].
  destruct (flatten_up_to_compatible _ _ _ Hc2') as [l2' Hl2'].
  unfold mbind'. rewrite (record_initialized self tree r1 step Htree).
  unfold tree_map_with_path at 1. rewrite Hl1. simpl. rewrite Hrun1.
  unfold ok at 1. cbv beta iota.
  rewrite (record_initialized (MkArrayTrace (_n_steps self) (Some t1)) t1 r2
             step eq_refl).
  rewrite (record_initialized self tree r2 step Htree).
  unfold tree_map_with_path. rewrite Hl2, Hl2'. simpl. rewrite Hsame.
  destruct (map_leaves_compatible (_n_steps self) step tree r2 [] Hn Hc2)
    as (t2 & -> & _).
  done.
Qed.

End trace_spec.

(** C6, evaluated where it fails: a trace of two steps is initialized by a
    report whose leaf [a] is an array of shape (3,); recording, for step 0,
    a report whose leaf [a] is a Python number (of shape (), by the test
    that [record] makes) raises the attribute error of the number, not the
    error that names path and shapes; the trace is left as it was. *)
Theorem record_scalar_leaf_attribute_error (F : Type) (zero x : F) :
  let first := DictNode [("a", Leaf (JArray (NDArray [3] [zero; zero; zero])))] in
  let self := (record F zero first 0 (__init__ F 2)).1 in
  _tree self
  = Some (DictNode [("a", Leaf (NDArray [2; 3] (replicate 6 zero)))])
  ∧ record F zero (DictNode [("a", Leaf (PyScalar x))]) 0 self
    = (self, raise (AttributeError "object has no attribute 'shape'")).
Proof. split; reflexivity. Qed.




End LoggingSpec.

(** ** Math and statistics utilities *)

Module UtilSpec.
Import Util.

Lemma broadcast_dim_same (n : nat) : broadcast_dim n n = ok n.
Proof. unfold broadcast_dim. by rewrite bool_decide_eq_true_2. Qed.

Lemma broadcast_dim_fail (n m : nat) :
  n ≠ m → n ≠ 1 → m ≠ 1 →
  broadcast_dim n m = raise (ValueError "Incompatible shapes for broadcasting").
Proof.
  intros. unfold broadcast_dim. by rewrite !bool_decide_eq_false_2.
Qed.

Section floats_spec.

Variable F : Type.
Variable fadd fsub fmul fdiv : F → F → F.
Variable fpow : F → nat → F.
Variable of_int : Z → F.
Variable linalg_inv : arr2 F → result (arr2 F).
Variable fsum : list F → F.

Local Abbreviation _single_variance :=
  (_single_variance F fadd fsub fmul fdiv fpow of_int).
Local Abbreviation sq_mahalanobis :=
  (sq_mahalanobis F fsub fmul linalg_inv fsum).

(** For a 3×3 scale the index arrays have the shape of the scale, and the
    entries are those of the closed form. *)
Lemma single_variance_dim3 (df : F) (e : nat → nat → F) :
  ∃ v, _single_variance (full (3, 3) df) (Arr2 (3, 3) e) = ok v
       ∧ sh2 v = (3, 3)
       ∧ ∀ i j, i < 3 → j < 3 →
           let k := of_int 3 in
           elt2 v i j =
             fdiv
               (fadd (fmul (fadd (fsub df k) (of_int 1)) (fpow (e i j) 2))
                     (fmul (fmul (fsub (fsub df k) (of_int 1)) (e i i))
                           (e j j)))
               (fmul (fmul (fsub df k)
                           (fpow (fsub (fsub df k) (of_int 1)) 2))
                     (fsub (fsub df k) (of_int 3))).
Proof.
  eexists. split; [reflexivity|]. split; [reflexivity|].
  intros i j Hi Hj.
  destruct i as [|[|[|i]]]; [| | |lia];
    (destruct j as [|[|[|j]]]; [| | |lia]); reflexivity.
Qed.

(** For a 1×1 scale the index arrays are 1×3 and 3×1, and the result is
    a 3×3 array. *)
Lemma single_variance_dim1_shape (df : F) (e : nat → nat → F) :
  ∃ v, _single_variance (full (1, 1) df) (Arr2 (1, 1) e) = ok v
       ∧ sh2 v = (3, 3).
Proof. eexists. split; reflexivity. Qed.

Lemma broadcast1_same_length {A B C} (op : A → B → C) (x : arr1 A)
    (y : arr1 B) :
  len1 x = len1 y → ∃ d, broadcast1 op x y = ok d.
Proof.
  intros Hlen. unfold broadcast1, broadcast_dim.
  rewrite bool_decide_eq_true_2 by done. simpl. eauto.
Qed.

(** A covariance that [jnp.linalg.inv] cannot invert makes the call with
    [cov] fail with the error of the inversion. *)
Lemma sq_mahalanobis_inv_fails (x y : arr1 F) (cov : arr2 F) e :
  len1 x = len1 y →
  linalg_inv cov = inl e →
  sq_mahalanobis x y (Some cov) None = inl e.
Proof.
  intros Hlen Hinv. unfold Util.sq_mahalanobis.
  destruct (broadcast1_same_length fsub x y Hlen) as [d ->]. simpl.
  by rewrite Hinv.
Qed.

End floats_spec.

(** C4, where it fails: the index arrays [rows] and [cols] are built by
    repeating three times, so they have the shapes (k, 3) and (3, k)
    whatever the size k of the scale.  For every k other than 1 and 3 the
    product with the k×k array of [df] cannot be broadcast and [variance]
    raises; for k = 1 it returns a 3×3 array.  Only for k = 3 does
    [variance] return a k×k matrix. *)
Theorem variance_only_for_dim3 (F : Type) (fadd fsub fmul fdiv : F → F → F)
    (fpow : F → nat → F) (of_int : Z → F) (k : nat) (df : F)
    (e : nat → nat → F) :
  k ≠ 3 →
  (k ≠ 1 →
   _variance F fadd fsub fmul fdiv fpow of_int (Unbatched F df (Arr2 (k, k) e))
   = raise (ValueError "Incompatible shapes for broadcasting"))
  ∧ (k = 1 →
     ∃ v, _variance F fadd fsub fmul fdiv fpow of_int
            (Unbatched F df (Arr2 (k, k) e)) = ok (inl v)
          ∧ sh2 v = (3, 3)).
Proof.
  intros Hk3. split.
  - intros Hk1. unfold _variance, _single_variance, broadcast2.
    cbn [sh2 full map2d take_ix repeat_axis1 column arange diag len1 fst snd].
    rewrite bool_decide_eq_true_2 by done.
    rewrite !broadcast_dim_same. cbn [mbind result_bind rbind ok sh2 fst snd].
    rewrite broadcast_dim_same, (broadcast_dim_fail k (1 * 3)) by (simpl; lia).
    reflexivity.
  - intros ->. eexists. split; reflexivity.
Qed.

Lemma variance_only_for_dim3_witness :
  _variance Z Z.add Z.sub Z.mul Z.div (λ x n, (x ^ Z.of_nat n)%Z) id
    (Unbatched Z 5%Z
       (Arr2 (2, 2) (λ i j, if bool_decide (i = j) then 1%Z else 0%Z)))
  = raise (ValueError "Incompatible shapes for broadcasting").
Proof.
  apply (variance_only_for_dim3 Z Z.add Z.sub Z.mul Z.div
           (λ x n, (x ^ Z.of_nat n)%Z) id 2 5%Z
           (λ i j, if bool_decide (i = j) then 1%Z else 0%Z)); lia.
Defined.

(** C7: with [inverse] the inversion [sq_mahalanobis] itself uses, the call
    with [cov] and the call with [cov_inv = inverse(cov)] give the same
    result, whatever the vectors; and with both absent the call fails with
    the assertion error, for vectors of equal length (and never returns,
    for any vectors). *)
Theorem sq_mahalanobis_cov_or_cov_inv (F : Type) (fsub fmul : F → F → F)
    (linalg_inv : arr2 F → result (arr2 F)) (fsum : list F → F)
    (x y : arr1 F) (cov cov_inv : arr2 F) :
  linalg_inv cov = ok cov_inv →
  sq_mahalanobis F fsub fmul linalg_inv fsum x y (Some cov) None
  = sq_mahalanobis F fsub fmul linalg_inv fsum x y None (Some cov_inv)
  ∧ (len1 x = len1 y →
     sq_mahalanobis F fsub fmul linalg_inv fsum x y None None
     = raise (AssertionError "One of `cov` or `cov_inv` required."))
  ∧ ¬ is_ok (sq_mahalanobis F fsub fmul linalg_inv fsum x y None None).
Proof.
  intros Hinv. unfold sq_mahalanobis. split; [|split].
  - destruct (broadcast1 fsub x y) as [e|diff]; [done|]. simpl.
    by rewrite Hinv.
  - intros Hlen.
    by destruct (broadcast1_same_length fsub x y Hlen) as [d ->].
  - intros [v Hv]. by destruct (broadcast1 fsub x y) as [e|diff].
Qed.

Lemma sq_mahalanobis_cov_or_cov_inv_witness :
  let eye := Arr2 (2, 2) (λ i j, if bool_decide (i = j) then 1%Z else 0%Z) in
  let x := Arr1 2 (λ i, Z.of_nat i + 3)%Z in
  let y := Arr1 2 (λ i, 1%Z) in
  sq_mahalanobis Z Z.sub Z.mul (λ m, ok m) (foldr Z.add 0%Z)
    x y (Some eye) None = ok 13%Z.
Proof.
  intros eye x y.
  destruct (sq_mahalanobis_cov_or_cov_inv Z Z.sub Z.mul (λ m, ok m)
              (foldr Z.add 0%Z) x y eye eye eq_refl) as [H _].
  rewrite H. reflexivity.
Defined.

End UtilSpec.

(** ** Feature reduction *)

Module FeaturesSpec.
Import Features.
Local Open Scope list_scope.

Section features_spec.

Variable A : Type.
Variable zero : A.

Local Abbreviation chunk := (chunk A).
Local Abbreviation chunk_rows := (chunk_rows A).
Local Abbreviation mask_select := (mask_select A).
Local Abbreviation insert_at := (insert_at A).
Local Abbreviation zeroed_from := (zeroed_from A zero).

(** *** Reshaping *)

Lemma length_chunk w n (l : list A) : length (chunk w n l) = n.
Proof.
  revert l. induction n as [|n IH]; intros l; simpl; [done | by rewrite IH].
Qed.

Lemma chunk_concat w (rows : list (list A)) :
  Forall (λ r, length r = w) rows →
  chunk w (length rows) (concat rows) = rows.
Proof.
  induction 1 as [|r rows Hr _ IH]; simpl; [done|].
  by rewrite take_app_length', drop_app_length', IH.
Qed.

Lemma length_concat_uniform w (rows : list (list A)) :
  Forall (λ r, length r = w) rows → length (concat rows) = length rows * w.
Proof.
  induction 1 as [|r rows Hr _ IH]; simpl; [done|].
  rewrite length_app, IH, Hr. lia.
Qed.

Lemma concat_chunk w n (l : list A) :
  length l = n * w → concat (chunk w n l) = l.
Proof.
  revert l. induction n as [|n IH]; intros l Hl; simpl.
  - by destruct l.
  - rewrite IH; [by rewrite take_drop|]. rewrite length_drop. lia.
Qed.

Lemma Forall_length_chunk w n (l : list A) :
  length l = n * w → Forall (λ p, length p = w) (chunk w n l).
Proof.
  revert l. induction n as [|n IH]; intros l Hl; simpl; constructor.
  - rewrite length_take. lia.
  - apply IH. rewrite length_drop. lia.
Qed.

(** A chunk only reads the elements it returns. *)
Lemma chunk_app_l w n (l k : list A) :
  length l = n * w → chunk w n (l ++ k) = chunk w n l.
Proof.
  revert l. induction n as [|n IH]; intros l Hl; simpl; [done|].
  rewrite take_app_le, drop_app_le by lia. rewrite IH; [done|].
  rewrite length_drop. lia.
Qed.

Lemma chunk_add w n m (l : list A) :
  chunk w (n + m) l = chunk w n l ++ chunk w m (drop (n * w) l).
Proof.
  revert l. induction n as [|n IH]; intros l; simpl; [done|].
  by rewrite IH, drop_drop.
Qed.

Lemma chunk_rows_concat d n1 (rows : list (list A)) :
  Forall (λ r, length r = n1 * d) rows →
  chunk_rows n1 (length rows) (chunk d (length rows * n1) (concat rows))
  = chunk d n1 <$> rows.
Proof.
  induction 1 as [|r rows Hr Hrows IH]; simpl; [done|].
  rewrite chunk_add. rewrite chunk_app_l by done.
  rewrite drop_app_length' by done.
  rewrite take_app_length', drop_app_length' by (by rewrite length_chunk).
  by rewrite IH.
Qed.

Lemma concat_concat_fmap (x : list (list (list A))) :
  concat (concat x) = concat (@concat A <$> x).
Proof.
  induction x as [|fr x IH]; simpl; [done|]. by rewrite concat_app, IH.
Qed.

Lemma div_mul_l n w : n ≠ 0 → (n * w) `div` n = w.
Proof. intros. rewrite Nat.mul_comm. by apply Nat.div_mul. Qed.

Lemma mod_mul_l n w : (n * w) `mod` n = 0.
Proof. rewrite Nat.mul_comm. apply Nat.Div0.mod_mul. Qed.

Lemma reshape2_rows w (rows : list (list A)) :
  rows ≠ [] →
  Forall (λ r, length r = w) rows →
  reshape2 A (length rows) (concat rows) = ok rows.
Proof.
  intros Hne Hrows. unfold reshape2.
  rewrite (length_concat_uniform w) by done.
  assert (length rows ≠ 0) by (by destruct rows).
  rewrite bool_decide_eq_false_2.
  - by rewrite div_mul_l, chunk_concat.
  - rewrite mod_mul_l. intros [?|?]; done.
Qed.

Lemma reshape3_rows n1 d (rows : list (list A)) :
  rows ≠ [] → n1 ≠ 0 →
  Forall (λ r, length r = n1 * d) rows →
  reshape3 A (length rows) n1 (concat rows) = ok (chunk d n1 <$> rows).
Proof.
  intros Hne Hn1 Hrows. unfold reshape3.
  rewrite (length_concat_uniform (n1 * d)) by done.
  assert (length rows ≠ 0) by (by destruct rows).
  replace (length rows * (n1 * d)) with ((length rows * n1) * d) by lia.
  rewrite bool_decide_eq_false_2.
  - rewrite div_mul_l by lia. by rewrite chunk_rows_concat.
  - rewrite mod_mul_l. intros [?|?]; [lia | done].
Qed.

(** *** Dropping and re-inserting coordinates *)

Lemma length_isin xs test : length (isin xs test) = length xs.
Proof. unfold isin. by rewrite length_fmap. Qed.

Lemma isin_ext xs test1 test2 :
  (∀ x, x ∈ xs → x ∈ test1 ↔ x ∈ test2) → isin xs test1 = isin xs test2.
Proof.
  intros H. unfold isin. apply Forall_fmap_ext, Forall_forall.
  intros x Hx. apply bool_decide_ext. by apply H.
Qed.

Lemma mask_select_app m1 m2 (t1 t2 : list A) :
  length m1 = length t1 →
  mask_select (m1 ++ m2) (t1 ++ t2)
  = mask_select m1 t1 ++ mask_select m2 t2.
Proof.
  revert t1. induction m1 as [|m m1 IH]; intros [|a t1] Hlen;
    simpl in *; try done.
  destruct m; simpl; rewrite IH by lia; done.
Qed.

(** A mask that marks nothing keeps the row. *)
Lemma mask_select_none xs test (row : list A) :
  (∀ x, x ∈ xs → x ∉ test) →
  length xs = length row →
  mask_select (negb <$> isin xs test) row = row.
Proof.
  revert row. induction xs as [|x xs IH]; intros [|a row] Hnot Hlen;
    simpl in *; try done.
  rewrite bool_decide_eq_false_2 by (apply Hnot; left). simpl.
  rewrite IH; [done| |lia]. intros y Hy. apply Hnot. by right.
Qed.

(** Dropping the coordinates [s ++ [i]], with [i] above all of [s], is
    deleting coordinate [i] and then dropping the coordinates [s]. *)
Lemma mask_select_last (s : list nat) (t1 t2 : list A) (a : A) :
  (∀ j, j ∈ s → j < length t1) →
  mask_select
    (negb <$> isin (seq 0 (length (t1 ++ a :: t2))) (s ++ [length t1]))
    (t1 ++ a :: t2)
  = mask_select (negb <$> isin (seq 0 (length (t1 ++ t2))) s) (t1 ++ t2).
Proof.
  intros Hs. rewrite !length_app. simpl.
  rewrite !seq_app. unfold isin. rewrite !fmap_app.
  rewrite !mask_select_app by (by rewrite !length_fmap, length_seq).
  f_equal.
  - f_equal. f_equal. apply Forall_fmap_ext, Forall_forall.
    intros x Hx. apply bool_decide_ext.
    apply elem_of_seq in Hx. rewrite elem_of_app, list_elem_of_singleton.
    split; [intros [?|?]; [done | lia] | by left].
  - rewrite Nat.add_0_l.
    change (seq (length t1) (S (length t2)))
      with (length t1 :: seq (S (length t1)) (length t2)).
    rewrite !fmap_cons.
    rewrite bool_decide_eq_true_2
      by (apply elem_of_app; right; by apply list_elem_of_singleton).
    cbn [negb Features.mask_select].
    pose proof (mask_select_none (seq (S (length t1)) (length t2))
                  (s ++ [length t1]) t2) as H1.
    pose proof (mask_select_none (seq (length t1) (length t2)) s t2) as H2.
    unfold isin in H1, H2. rewrite H1, H2; [done | | | |].
    + intros x Hx Hin. apply elem_of_seq in Hx. apply Hs in Hin. lia.
    + by rewrite length_seq.
    + intros x Hx Hin. apply elem_of_seq in Hx.
      apply elem_of_app in Hin as [Hin|Hin].
      * apply Hs in Hin. lia.
      * apply list_elem_of_singleton in Hin. lia.
    + by rewrite length_seq.
Qed.

Lemma insert_at_middle (t1 t2 : list A) :
  insert_at (length t1) zero (t1 ++ t2) = t1 ++ zero :: t2.
Proof.
  unfold Features.insert_at. by rewrite take_app_length, drop_app_length.
Qed.

(** Re-inserting [zero] at the dropped coordinates, in ascending order,
    rebuilds a row that holds [zero] at these coordinates. *)
Lemma foldl_insert_sorted (s : list nat) (row : list A) :
  StronglySorted lt s →
  (∀ i, i ∈ s → row !! i = Some zero) →
  foldl (λ r ix, insert_at ix zero r)
        (mask_select (negb <$> isin (seq 0 (length row)) s) row) s
  = row.
Proof.
  revert row. induction s as [|i s IH] using rev_ind; intros row Hs Hz.
  - simpl. apply mask_select_none; [|by rewrite length_seq].
    intros x _. apply not_elem_of_nil.
  - apply StronglySorted_app in Hs as (Hlt & Hs & _).
    assert (∀ j, j ∈ s → j < i) as Hlt'.
    { intros j Hj. apply Hlt; [done|]. by apply list_elem_of_singleton. }
    assert (row !! i = Some zero) as Hi.
    { apply Hz, elem_of_app. right. by apply list_elem_of_singleton. }
    apply list_elem_of_split_length in Hi as (t1 & t2 & -> & ->).
    rewrite foldl_app. simpl. rewrite mask_select_last by done.
    rewrite IH; [by apply insert_at_middle | done |].
    intros j Hj. rewrite lookup_app_l by (by apply Hlt').
    rewrite <- (Hz j) by (apply elem_of_app; by left).
    by rewrite lookup_app_l by (by apply Hlt').
Qed.

Lemma length_zeroed_from off ixs (row : list A) :
  length (zeroed_from off ixs row) = length row.
Proof.
  revert off. induction row as [|v row IH]; intros off; simpl; [done|].
  by rewrite IH.
Qed.

Lemma lookup_zeroed_from off ixs (row : list A) c :
  zeroed_from off ixs row !! c
  = (λ v, if bool_decide (off + c ∈ ixs) then zero else v) <$> row !! c.
Proof.
  revert off c. induction row as [|v row IH]; intros off [|c]; simpl;
    try done.
  - by rewrite Nat.add_0_r.
  - rewrite IH. by replace (S off + c) with (off + S c) by lia.
Qed.

(** Dropping the marked coordinates does not see what they hold. *)
Lemma mask_select_zeroed_from off ixs (row : list A) :
  mask_select (negb <$> isin (seq off (length row)) ixs)
              (zeroed_from off ixs row)
  = mask_select (negb <$> isin (seq off (length row)) ixs) row.
Proof.
  revert off. induction row as [|v row IH]; intros off; simpl; [done|].
  case_bool_decide; simpl; by rewrite IH.
Qed.

Lemma sorted_le_NoDup_lt (s : list nat) :
  Sorted Nat.le s → NoDup s → StronglySorted lt s.
Proof.
  intros Hs Hnd. apply Sorted_StronglySorted in Hs; [|intros ???; lia].
  induction Hs as [|a s Hs IH Ha]; [constructor|].
  apply NoDup_cons in Hnd as [Hna Hnd]. constructor; [by apply IH|].
  apply Forall_forall. intros x Hx.
  assert (a ≤ x)%nat by (by eapply Forall_forall in Ha).
  assert (a ≠ x) by (by intros ->). lia.
Qed.

Lemma zeroed_from_ext off ixs1 ixs2 (row : list A) :
  (∀ x, x ∈ ixs1 ↔ x ∈ ixs2) →
  zeroed_from off ixs1 row = zeroed_from off ixs2 row.
Proof.
  intros H. revert off. induction row as [|v row IH]; intros off; simpl;
    [done|].
  rewrite IH. f_equal. by rewrite (bool_decide_ext _ _ (H off)).
Qed.

(** One row: dropping the coordinates of [ixs] and re-inserting them as
    [inflate_array] does gives the row with [zero] at these
    coordinates. *)
Lemma reduce_inflate_row (ixs : list nat) (row : list A) :
  NoDup ixs →
  (∀ i, i ∈ ixs → i < length row) →
  foldl (λ r ix, insert_at ix zero r)
        (mask_select (negb <$> isin (seq 0 (length row)) ixs) row)
        (merge_sort Nat.le ixs)
  = zeroed_from 0 ixs row.
Proof.
  intros Hnd Hlt.
  pose proof (merge_sort_Permutation Nat.le ixs) as Hperm.
  set (s := merge_sort Nat.le ixs) in *.
  assert (∀ x, x ∈ ixs ↔ x ∈ s) as Hmem by (intros x; by rewrite Hperm).
  rewrite (isin_ext _ ixs s) by (intros x _; apply Hmem).
  rewrite (zeroed_from_ext 0 ixs s) by done.
  rewrite <- mask_select_zeroed_from.
  rewrite <- (length_zeroed_from 0 s row).
  apply foldl_insert_sorted.
  - apply sorted_le_NoDup_lt; [|by rewrite Hperm].
    apply Sorted_merge_sort. intros x y. lia.
  - intros i Hi. rewrite lookup_zeroed_from. simpl.
    rewrite bool_decide_eq_true_2 by done.
    destruct (lookup_lt_is_Some_2 row i) as [v ->]; [|done].
    apply Hlt. by apply Hmem.
Qed.

Lemma foldl_fmap_rows {B} (f : B → list A → list A) (l : list B)
    (rows : list (list A)) :
  foldl (λ arr ix, f ix <$> arr) rows l
  = (λ row, foldl (λ r ix, f ix r) row l) <$> rows.
Proof.
  revert rows. induction l as [|i l IH]; intros rows; simpl.
  - by rewrite list_fmap_id.
  - rewrite IH, <- list_fmap_compose. done.
Qed.

(** The frames of a keypoint array of shape (n_frames, n_kpts, d). *)
Lemma length_concat_frame n_kpts d (frame : list (list A)) :
  length frame = n_kpts ∧ Forall (λ p, length p = d) frame →
  length (concat frame) = n_kpts * d.
Proof. intros [<- Hp]. by apply length_concat_uniform. Qed.


(** *** Calibration *)



End features_spec.



(** C5, where it fails: with [max_pts] set, [_calibrate] draws [max_pts]
    rows without replacement whatever the number of rows; on a dataset
    with fewer rows than [max_pts] the draw raises, nothing is logged and
    no calibration is returned. *)
Theorem pcs_calibrate_fewer_rows_raises (A : Type)
    (permutation : nat → nat → list nat) (pcs_calibration : Type)
    (fit_and_select :
       list (list A) → pcs_config A → option nat → nat → result pcs_calibration)
    (dataset : KeypointDataset A) (cfg : pcs_config A) (k : nat)
    (n_dims : option nat) (log : list string) :
  max_pts cfg = Some k →
  length (as_features_data dataset) < k →
  pcs__calibrate A permutation pcs_calibration fit_and_select
    dataset cfg n_dims log
  = (log, raise (ValueError
       "Cannot take a larger sample than population when 'replace=False'")).
Proof.
  intros Hk Hlt. unfold pcs__calibrate, jr_choice. rewrite Hk.
  cbv [mbind M_bind mbind' mlift]. by rewrite bool_decide_eq_true_2.
Qed.

Lemma pcs_calibrate_fewer_rows_raises_witness :
  pcs__calibrate Z (λ _ n, seq 0 n) unit (λ _ _ _ _, ok tt)
    (Dataset [[1%Z; 2%Z]; [3%Z; 4%Z]; [5%Z; 6%Z]] 1 ["a"])
    (PcsConfig 98%Z (Some 100) 823) None []
  = ([], raise (ValueError
       "Cannot take a larger sample than population when 'replace=False'")).
Proof.
  apply (pcs_calibrate_fewer_rows_raises Z (λ _ n, seq 0 n) unit
           (λ _ _ _ _, ok tt)
           (Dataset [[1%Z; 2%Z]; [3%Z; 4%Z]; [5%Z; 6%Z]] 1 ["a"])
           (PcsConfig 98%Z (Some 100) 823) 100 None []).
  - reflexivity.
  - simpl. lia.
Defined.

End FeaturesSpec.

(** ** Parameter scans *)

Module ScansSpec.
Import Scans.
Local Open Scope list_scope.

Lemma dict_setitem_fresh {V} (d : pydict V) (k : string) (v : V) :
  k ∉ dict_keys d → dict_setitem d k v = d ++ [(k, v)].
Proof.
  induction d as [|[k' v'] d IH]; intros Hk; simpl; [done|].
  apply not_elem_of_cons in Hk as [Hne Hk].
  rewrite bool_decide_eq_false_2 by done. by rewrite IH.
Qed.

Lemma dict_keys_app {V} (d1 d2 : pydict V) :
  dict_keys (d1 ++ d2) = dict_keys d1 ++ dict_keys d2.
Proof. unfold dict_keys. by rewrite fmap_app. Qed.

Lemma count_models_ok (grid : pydict yaml) (n : nat) :
  grid ≠ [] → lists_of_length n grid → count_models grid = ok n.
Proof.
  intros Hne Hlists. destruct grid as [|[k v] grid]; [done|].
  apply Forall_cons in Hlists as [(vals & Hv & Hlen) _]. simpl in Hv. subst v.
  unfold count_models, dict_getitem. simpl.
  rewrite bool_decide_eq_true_2 by done. simpl. by rewrite Hlen.
Qed.

Lemma column_at_cons (i : nat) k vals x (grid : pydict yaml) :
  vals !! i = Some x →
  column_at i ((k, YList vals) :: grid) = (k, x) :: column_at i grid.
Proof. intros Hx. unfold column_at. simpl. by rewrite Hx. Qed.

Lemma dict_keys_column_at (i n : nat) (grid : pydict yaml) :
  lists_of_length n grid → i < n →
  dict_keys (column_at i grid) = dict_keys grid.
Proof.
  intros Hlists Hi. induction Hlists as [|[k v] grid (vals & Hv & Hlen) _ IH];
    [done|].
  simpl in Hv. subst v.
  destruct (lookup_lt_is_Some_2 vals i) as [x Hx]; [lia|].
  rewrite (column_at_cons i k vals x) by done. simpl.
  f_equal. apply IH.
Qed.

(** In column [i] every declared parameter has the [i]-th value of its
    list. *)
Lemma lookup_column_at (i n : nat) (grid : pydict yaml) p vals :
  lists_of_length n grid → i < n →
  dict_lookup grid p = Some (YList vals) →
  dict_lookup (column_at i grid) p = vals !! i.
Proof.
  intros Hlists Hi.
  induction Hlists as [|[k v] grid (vals' & Hv & Hlen) _ IH]; [done|].
  simpl in Hv. subst v.
  destruct (lookup_lt_is_Some_2 vals' i) as [x Hx]; [lia|].
  rewrite (column_at_cons i k vals' x) by done. simpl.
  case_bool_decide; [by intros [= <-] | apply IH].
Qed.

Lemma model_overrides_at_ok (i n : nat) (grid acc : pydict yaml) :
  lists_of_length n grid → i < n →
  NoDup (dict_keys acc ++ dict_keys grid) →
  model_overrides_at i grid acc = ok (acc ++ column_at i grid).
Proof.
  intros Hlists Hi. revert acc.
  induction Hlists as [|[k v] grid (vals & Hv & Hlen) _ IH]; intros acc Hnd.
  - simpl. by rewrite app_nil_r.
  - simpl in Hv. subst v.
    destruct (lookup_lt_is_Some_2 vals i) as [x Hx]; [lia|].
    rewrite (column_at_cons i k vals x) by done.
    cbn [model_overrides_at py_index]. rewrite Hx. simpl.
    simpl in Hnd. apply NoDup_app in Hnd as (Hacc & Hdisj & Hgrid).
    apply NoDup_cons in Hgrid as [Hk Hgrid].
    rewrite dict_setitem_fresh; last first.
    { intros Hin. apply (Hdisj _ Hin). by left. }
    rewrite IH.
    + by rewrite <- app_assoc.
    + rewrite dict_keys_app. simpl. rewrite <- app_assoc. simpl.
      apply NoDup_app. split; [done|]. split; [|by apply NoDup_cons].
      intros y Hy. by apply Hdisj.
Qed.

Lemma models_mapping_ok (fmt : name_fmt) (name : string) (nm : nat → string)
    (n : nat) (grid : pydict yaml) (todo : list nat) (acc : pydict yaml) :
  (∀ i, i ∈ todo → call_name_fmt fmt name i = ok (nm i)) →
  (∀ i, i ∈ todo → i < n) →
  NoDup (dict_keys acc ++ (nm <$> todo)) →
  NoDup (dict_keys grid) →
  lists_of_length n grid →
  models_mapping fmt name grid todo acc
  = ok (acc ++ ((λ i, (nm i, YDict (column_at i grid))) <$> todo)).
Proof.
  intros Hfmt Hlt Hnd Hgrid Hlists. revert acc Hnd.
  induction todo as [|i todo IH]; intros acc Hnd; simpl.
  - by rewrite app_nil_r.
  - rewrite Hfmt by left. simpl.
    rewrite (model_overrides_at_ok i n) by (done || apply Hlt; left). simpl.
    simpl in Hnd. apply NoDup_app in Hnd as (Hacc & Hdisj & Htodo).
    apply NoDup_cons in Htodo as [Hi Htodo].
    rewrite dict_setitem_fresh; last first.
    { intros Hin. apply (Hdisj _ Hin). by left. }
    rewrite IH.
    + by rewrite <- app_assoc.
    + intros j Hj. apply Hfmt. by right.
    + intros j Hj. apply Hlt. by right.
    + rewrite dict_keys_app. simpl. rewrite <- app_assoc. simpl.
      apply NoDup_app. split; [done|]. split; [|by apply NoDup_cons].
      intros y Hy. by apply Hdisj.
Qed.

(** The names of the default template are pairwise different. *)
Lemma default_names_NoDup (name : string) (todo : list nat) :
  NoDup todo →
  NoDup ((λ i, str_format [FieldScanName; Lit "_"; FieldI] name i) <$> todo).
Proof.
  intros Hnd. apply NoDup_fmap_2; [|done].
  intros i j Hij. unfold str_format in Hij. simpl in Hij.
  apply (inj (String.app name)) in Hij.
  apply (inj (String.app "_")) in Hij.
  apply (inj (String.app "")) in Hij.
  by apply (inj pretty) in Hij.
Qed.

Lemma str_format_default (name : string) (i : nat) :
  str_format [FieldScanName; Lit "_"; FieldI] name i
  = (name ++ "_" ++ pretty i)%string.
Proof. reflexivity. Qed.

(** With a template string the mapping of models is always built. *)
Lemma models_mapping_total (pieces : list piece) (name : string) (n : nat)
    (grid : pydict yaml) (todo : list nat) (acc : pydict yaml) :
  (∀ i, i ∈ todo → i < n) →
  NoDup (dict_keys grid) →
  lists_of_length n grid →
  ∃ models, models_mapping (FmtString pieces) name grid todo acc = ok models.
Proof.
  intros Hlt Hgrid Hlists. revert acc.
  induction todo as [|i todo IH]; intros acc; simpl; [by eexists|].
  rewrite (model_overrides_at_ok i n) by (done || apply Hlt; left). simpl.
  apply IH. intros j Hj. apply Hlt. by right.
Qed.

Section scans_spec.

Variable W : Type.
Variable mkdir : string → bool → M W unit.
Variable load_model_config : string → M W yaml.
Variable save_config : string → yaml → M W unit.
Variable save_model_config : string → yaml → M W unit.
Variable flatten : yaml → pydict yaml.
Variable deepen : pydict yaml → yaml.
Variable recursive_update : yaml → yaml → yaml.
Variable split_defaults : yaml.

Local Abbreviation setup_scan_config :=
  (setup_scan_config W mkdir load_model_config save_config save_model_config
     flatten deepen recursive_update split_defaults).

Lemma ensure_dirs_succeeds (project : Project) :
  (∀ p b, succeeds W (mkdir p b)) → succeeds W (ensure_dirs W mkdir project).
Proof.
  intros Hmk w. unfold ensure_dirs. cbv [mbind M_bind mbind'].
  destruct (Hmk (root project) true w) as [w1 ->].
  destruct (Hmk (root project /: "scans") false w1) as [w2 ->].
  apply Hmk.
Qed.

(** An empty grid has no first parameter to count the models by. *)
Lemma setup_scan_config_empty_grid project name scan_params sco fmt mo w :
  flatten scan_params = [] →
  setup_scan_config project name scan_params sco fmt mo w
  = (w, raise (IndexError "list index out of range")).
Proof. intros Hg. unfold Scans.setup_scan_config. by rewrite Hg. Qed.

End scans_spec.

(** C3 as stated fails on the grid without parameters: all of its value
    lists (there is none) have length 3, and [setup_scan_config] raises an
    index error instead of producing a manifest with three models. *)
Lemma setup_scan_config_no_parameter_raises :
  let flatten := λ y, match y with YDict d => d | _ => [] end in
  let base := YDict [("fit", YDict [("type", YStr "standard")])] in
  lists_of_length 3 (flatten (YDict []))
  ∧ setup_scan_config unit (λ _ _, mret tt) (λ _, mret base)
      (λ _ _, mret tt) (λ _ _, mret tt) flatten YDict (λ a _, a) (YDict [])
      (MkProject "proj") "scan" (YDict []) [] default_model_name_fmt [] tt
    = (tt, raise (IndexError "list index out of range")).
Proof. split; [constructor | reflexivity]. Qed.

(** C3, amended: for a grid with at least one parameter whose value lists
    all have length [n], on a project whose base model config loads and,
    after [model_overrides], has a fit type: if the fit type is
    ["standard"] (and the directories and files can be written, and the
    split defaults are a mapping), [setup_scan_config] with the default
    template returns a manifest whose [models] mapping has exactly the [n]
    names [<scan_name>_<i>], pairwise different, model [i] being mapped to
    the overrides that give every declared parameter the [i]-th value of
    its list; if the fit type is anything else, the call raises the value
    error, whatever the template string. *)
Theorem setup_scan_config_manifest (W : Type)
    (mkdir : string → bool → M W unit)
    (load_model_config : string → M W yaml)
    (save_config save_model_config : string → yaml → M W unit)
    (flatten : yaml → pydict yaml) (deepen : pydict yaml → yaml)
    (recursive_update : yaml → yaml → yaml) (split_defaults : yaml)
    (project : Project) (name : string) (scan_params : yaml)
    (scan_config_overrides model_overrides : pydict yaml)
    (n : nat) (grid : pydict yaml) (base fit fit_type : yaml) (w w1 : W) :
  flatten scan_params = grid →
  grid ≠ [] →
  NoDup (dict_keys grid) →
  lists_of_length n grid →
  load_model_config (base_model_config project) w = (w1, ok base) →
  yaml_getitem (recursive_update base (deepen model_overrides)) "fit" = ok fit →
  yaml_getitem fit "type" = ok fit_type →
  (is_standard fit_type = true →
   (∀ p b, succeeds W (mkdir p b)) →
   (∀ p c, succeeds W (save_config p c)) →
   (∀ p c, succeeds W (save_model_config p c)) →
   (∃ items, recursive_update split_defaults (deepen scan_config_overrides)
             = YDict items) →
   ∃ w' models derived,
     setup_scan_config W mkdir load_model_config save_config save_model_config
       flatten deepen recursive_update split_defaults
       project name scan_params scan_config_overrides
       default_model_name_fmt model_overrides w
     = (w', ok (YDict [("models", YDict models)], derived))
     ∧ models = (λ i, ((name ++ "_" ++ pretty i)%string,
                       YDict (column_at i grid))) <$> seq 0 n
     ∧ length models = n
     ∧ NoDup (dict_keys models)
     ∧ (∀ i, i < n → dict_keys (column_at i grid) = dict_keys grid)
     ∧ (∀ i p vals, i < n → dict_lookup grid p = Some (YList vals) →
          dict_lookup (column_at i grid) p = vals !! i))
  ∧ (is_standard fit_type = false →
     ∀ pieces,
       setup_scan_config W mkdir load_model_config save_config
         save_model_config flatten deepen recursive_update split_defaults
         project name scan_params scan_config_overrides
         (FmtString pieces) model_overrides w
       = (w1, raise (ValueError
            "Scan only supports standard fit type for base model."))).
Proof.
  intros Hflat Hne Hnd Hlists Hload Hfit Htype. split.
  - intros Hstd Hmk Hsc Hsm [items Hitems].
    set (nm := λ i : nat, (name ++ "_" ++ pretty i)%string).
    assert (NoDup (nm <$> seq 0 n)) as Hnames.
    { apply (default_names_NoDup name), NoDup_seq. }
    assert (models_mapping default_model_name_fmt name grid (seq 0 n) []
            = ok ([] ++ ((λ i, (nm i, YDict (column_at i grid))) <$> seq 0 n)))
      as Hmodels.
    { apply (models_mapping_ok _ _ nm n); try done.
      intros i Hi. apply elem_of_seq in Hi. lia. }
    simpl in Hmodels.
    assert (∃ mc, recursive_update base (deepen model_overrides) = YDict mc)
      as [mc Hmc].
    { destruct (recursive_update base (deepen model_overrides)); try done.
      by eexists. }
    destruct (ensure_dirs_succeeds W mkdir project Hmk w1) as [w2 Hw2].
    destruct (Hmk (scan project name) false w2) as [w3 Hw3].
    assert (∃ w' derived,
      setup_scan_config W mkdir load_model_config save_config
        save_model_config flatten deepen recursive_update split_defaults
        project name scan_params scan_config_overrides
        default_model_name_fmt model_overrides w
      = (w', ok (YDict [("models",
                        YDict ((λ i, (nm i, YDict (column_at i grid)))
                               <$> seq 0 n))], derived)))
      as (w' & derived & Hrun).
    { unfold setup_scan_config. rewrite Hflat.
      cbv [mbind M_bind mbind' mlift]. rewrite (count_models_ok grid n) by done.
      unfold ok in *. cbv beta iota.
      rewrite Hmodels, Hload. cbv beta iota.
      rewrite Hfit, Htype, Hstd, Hitems, Hmc.
      cbn [split_fit_config yaml_setitem]. unfold ok. cbv beta iota.
      rewrite Hw2, Hw3.
      match goal with |- context [save_config ?p ?c w3] =>
        destruct (Hsc p c w3) as [w4 ->] end.
      match goal with |- context [save_model_config ?p ?c w4] =>
        destruct (Hsm p c w4) as [w5 ->] end.
      by eexists _, _. }
    exists w', ((λ i, (nm i, YDict (column_at i grid))) <$> seq 0 n), derived.
    split; [exact Hrun|].
    split; [done|]. split; [by rewrite length_fmap, length_seq|].
    split.
    { unfold dict_keys. rewrite <- list_fmap_compose. exact Hnames. }
    split.
    { intros i Hi. by apply (dict_keys_column_at i n). }
    intros i p vals Hi Hp. by apply (lookup_column_at i n).
  - intros Hstd pieces. unfold setup_scan_config. rewrite Hflat.
    cbv [mbind M_bind mbind' mlift]. rewrite (count_models_ok grid n) by done.
    destruct (models_mapping_total pieces name n grid (seq 0 n) [])
      as [models Hmodels]; try done.
    { intros i Hi. apply elem_of_seq in Hi. lia. }
    unfold ok in *. cbv beta iota. rewrite Hmodels, Hload. cbv beta iota.
    by rewrite Hfit, Htype, Hstd.
Qed.

Lemma setup_scan_config_manifest_witness :
  let flatten := λ y, match y with YDict d => d | _ => [] end in
  let base := YDict [("fit", YDict [("type", YStr "standard")])] in
  let grid := [("fit.n_steps", YList [YInt 10; YInt 20; YInt 30]);
               ("fit.lr", YList [YInt 1; YInt 2; YInt 3])] in
  ∃ w' derived,
    setup_scan_config unit (λ _ _, mret tt) (λ _, mret base)
      (λ _ _, mret tt) (λ _ _, mret tt) flatten YDict (λ a _, a) (YDict [])
      (MkProject "proj") "scan" (YDict grid) [] default_model_name_fmt [] tt
    = (w', ok (YDict [("models", YDict
         [("scan_0", YDict [("fit.n_steps", YInt 10); ("fit.lr", YInt 1)]);
          ("scan_1", YDict [("fit.n_steps", YInt 20); ("fit.lr", YInt 2)]);
          ("scan_2", YDict [("fit.n_steps", YInt 30); ("fit.lr", YInt 3)])])],
        derived)).
Proof.
  intros flatten base grid.
  destruct (setup_scan_config_manifest unit (λ _ _, mret tt) (λ _, mret base)
              (λ _ _, mret tt) (λ _ _, mret tt) flatten YDict (λ a _, a)
              (YDict []) (MkProject "proj") "scan" (YDict grid) [] [] 3 grid
              base (YDict [("type", YStr "standard")]) (YStr "standard") tt tt)
    as [H _].
  - reflexivity.
  - discriminate.
  - apply NoDup_cons. split; [|apply NoDup_singleton].
    intros H%list_elem_of_singleton. discriminate.
  - repeat constructor; eexists; (split; [reflexivity | reflexivity]).
  - reflexivity.
  - reflexivity.
  - reflexivity.
  - destruct H as (w' & models & derived & Hrun & Hmodels & _).
    + reflexivity.
    + intros p b w. exists w. reflexivity.
    + intros p c w. exists w. reflexivity.
    + intros p c w. exists w. reflexivity.
    + by exists [].
    + exists w', derived. rewrite Hrun, Hmodels. reflexivity.
Defined.

End ScansSpec.

(** ** Structured array trace: reading back, paths, lookup *)

Module LoggingMore.
Import Logging LoggingSpec.
Local Open Scope list_scope.
Local Open Scope nat_scope.

Lemma rmapM_fmap_ok {X Y Z} (g : X → Y) (f : Y → result Z) (h : X → Z)
    (l : list X) :
  Forall (λ a, f (g a) = ok (h a)) l → rmapM f (g <$> l) = ok (h <$> l).
Proof.
  induction 1 as [|a l Ha _ IH]; [done|].
  rewrite !fmap_cons. cbn [rmapM]. by rewrite Ha, IH.
Qed.

Lemma all2_fmap_l {X Y} (p : Y → X → bool) (g : X → Y) (l : list X) :
  Forall (λ a, p (g a) a = true) l → all2 p (g <$> l) l = true.
Proof.
  induction 1 as [|a l Ha _ IH]; [done|].
  rewrite fmap_cons. cbn [all2]. by rewrite Ha, IH.
Qed.

Lemma forallb_fmap {X Y} (p : Y → bool) (g : X → Y) (l : list X) :
  Forall (λ a, p (g a) = true) l → forallb p (g <$> l) = true.
Proof.
  induction 1 as [|a l Ha _ IH]; [done|].
  rewrite fmap_cons. cbn [forallb]. by rewrite Ha, IH.
Qed.

Section slices.

Variable F : Type.

(** Slot [k] of a buffer of slots of size [sz], and the buffer with slot
    [k] replaced. *)
Lemma slot_of_update_same (k sz : nat) (d v : list F) :
  length v = sz → k * sz ≤ length d →
  take sz (drop (k * sz) (take (k * sz) d ++ v ++ drop ((k + 1) * sz) d)) = v.
Proof.
  intros Hv Hk.
  rewrite drop_app_length' by (rewrite length_take; lia).
  by rewrite take_app_length'.
Qed.

Lemma slot_of_update_other (k k' sz : nat) (d v : list F) :
  length v = sz → (k + 1) * sz ≤ length d → (k' + 1) * sz ≤ length d →
  k ≠ k' →
  take sz (drop (k' * sz) (take (k * sz) d ++ v ++ drop ((k + 1) * sz) d))
  = take sz (drop (k' * sz) d).
Proof.
  intros Hv Hk Hk' Hne. apply list_eq. intros i.
  destruct (decide (i < sz)) as [Hi|Hi].
  - rewrite !lookup_take_lt, !lookup_drop by done.
    assert (length (take (k * sz) d) = k * sz) as Hlen
      by (rewrite length_take; nia).
    destruct (decide (k' < k)) as [Hlt|Hge].
    + rewrite lookup_app_l by (rewrite Hlen; nia).
      rewrite lookup_take_lt by nia. done.
    + assert (k < k') by lia.
      rewrite lookup_app_r by (rewrite Hlen; nia).
      rewrite lookup_app_r by (rewrite Hlen, Hv; nia).
      rewrite lookup_drop, Hlen, Hv. f_equal. nia.
  - by rewrite !lookup_take_ge by lia.
Qed.

End slices.

Section read_back.

Variable F : Type.
Variable zero : F.

Local Abbreviation getitem := (getitem F).
Local Abbreviation at_set := (at_set F).
Local Abbreviation record_leaf := (record_leaf F).
Local Abbreviation record := (record F zero).

Lemma clamp_in_range (s : Z) (n : nat) :
  (0 ≤ s < Z.of_nat n)%Z →
  Z.to_nat (Z.min (Z.max 0 (normalize_index s n)) (Z.of_nat n - 1))
  = Z.to_nat s.
Proof. intros. rewrite normalize_index_nonneg by lia. lia. Qed.

Lemma getitem_in_range (b : ndarray F) (s : Z) n sh :
  shape b = n :: sh → (0 ≤ s < Z.of_nat n)%Z →
  getitem b s
  = ok (NDArray sh (take (size sh) (drop (Z.to_nat s * size sh) (data b)))).
Proof.
  intros Hsh Hs. unfold Logging.getitem. rewrite Hsh.
  rewrite bool_decide_eq_false_2 by lia. by rewrite clamp_in_range.
Qed.

(** One leaf: after a write at an in-range step, that step reads the
    value written and every other in-range step reads what it read
    before. *)
Lemma record_leaf_read_back (s : Z) pth (b b' : ndarray F) (x : pyleaf F) n :
  (0 ≤ s < Z.of_nat n)%Z →
  shape b = n :: shape (jnp_array F x) →
  well_sized b = true →
  well_sized (jnp_array F x) = true →
  record_leaf s pth b (Leaf x) = ok b' →
  getitem b' s = ok (jnp_array F x)
  ∧ (∀ s', (0 ≤ s' < Z.of_nat n)%Z → s' ≠ s → getitem b' s' = getitem b s')
  ∧ shape b' = shape b
  ∧ well_sized b' = true.
Proof.
  intros Hs Hsh Hb Hx.
  apply bool_decide_eq_true in Hb. apply bool_decide_eq_true in Hx.
  rewrite Hsh in Hb. simpl in Hb.
  set (sh := shape (jnp_array F x)) in *. set (sz := size sh) in *.
  unfold Logging.record_leaf, Logging.at_set. simpl.
  rewrite (getitem_in_range b s n sh) by done. simpl. rewrite Hsh.
  fold sh. rewrite bool_decide_eq_true_2 by done.
  rewrite bool_decide_eq_false_2 by lia.
  rewrite normalize_index_nonneg by lia.
  rewrite bool_decide_eq_true_2 by done. intros [= <-].
  set (k := Z.to_nat s). fold sz.
  assert (k < n) by lia.
  assert ((k + 1) * sz ≤ length (data b)) by (rewrite Hb; nia).
  split; [|split; [|split]].
  - rewrite (getitem_in_range _ s n sh) by done. simpl. fold k sz.
    rewrite slot_of_update_same by (done || nia).
    by destruct (jnp_array F x).
  - intros s' Hs' Hne.
    rewrite (getitem_in_range _ s' n sh), (getitem_in_range b s' n sh) by done.
    simpl. fold sz. do 2 f_equal.
    apply slot_of_update_other; try done.
    + rewrite Hb. assert (Z.to_nat s' < n) by lia. nia.
    + lia.
  - done.
  - apply bool_decide_eq_true. simpl. fold sz.
    rewrite !length_app, length_take, length_drop, Hx. fold sz. nia.
Qed.

(** A whole report, written at an in-range step: that step reads the
    report back, and the other in-range steps read what they read
    before. *)
Lemma map_leaves_read_back n (s : Z) (t t' : pytree (ndarray F)) r pth :
  (0 ≤ s < Z.of_nat n)%Z →
  compatible n t r = true →
  tree_all well_sized t = true →
  tree_all (λ x, well_sized (jnp_array F x)) r = true →
  map_leaves (record_leaf s) pth t r = ok t' →
  tree_mapM (λ arr, getitem arr s) t' = ok (tree_map (jnp_array F) r)
  ∧ (∀ s', (0 ≤ s' < Z.of_nat n)%Z → s' ≠ s →
       tree_mapM (λ arr, getitem arr s') t'
       = tree_mapM (λ arr, getitem arr s') t)
  ∧ tree_all well_sized t' = true.
Proof.
  intros Hs. revert t' r pth.
  induction t as [b|items IH|items IH] using pytree_ind';
    intros t' [x|ritems|ritems] pth Hc Hwt Hwr Hrun; simpl in Hc; try done.
  - apply bool_decide_eq_true in Hc. simpl in Hrun, Hwt, Hwr.
    destruct (record_leaf s pth b (Leaf x)) as [e|b'] eqn:Hb'; [done|].
    injection Hrun as <-.
    destruct (record_leaf_read_back s pth b b' x n Hs Hc Hwt Hwr Hb')
      as (Hsame & Hother & _ & Hwf).
    simpl. rewrite Hsame. split; [done|]. split; [|done].
    intros s' Hs' Hne. by rewrite (Hother s' Hs' Hne).
  - simpl in Hrun, Hwt, Hwr.
    assert (∀ i rts cs,
      all2 (λ '(k, c) '(k', rc), bool_decide (k = k') && compatible n c rc)
           items rts = true →
      forallb (λ '(_, c), tree_all well_sized c) items = true →
      forallb (λ '(_, c), tree_all (λ x, well_sized (jnp_array F x)) c) rts
        = true →
      zip_children (ValueError "Dict key mismatch")
        (λ _ '(k, c) '(_, rc),
           rmap (pair k) (map_leaves (record_leaf s) (pth ++ [DictKey k]) c rc))
        i items rts = ok cs →
      rmapM (λ '(k, c),
               rmap (pair k) (tree_mapM (λ arr, getitem arr s) c)) cs
      = ok ((λ '(k, c), (k, tree_map (jnp_array F) c)) <$> rts)
      ∧ (∀ s', (0 ≤ s' < Z.of_nat n)%Z → s' ≠ s →
           rmapM (λ '(k, c),
                    rmap (pair k) (tree_mapM (λ arr, getitem arr s') c)) cs
           = rmapM (λ '(k, c),
                      rmap (pair k) (tree_mapM (λ arr, getitem arr s') c))
               items)
      ∧ forallb (λ '(_, c), tree_all well_sized c) cs = true) as Hgo.
    { clear Hc Hwt Hwr Hrun ritems t'.
      induction IH as [|[k c] items Hhd _ IHitems];
        intros i [|[k1 rc1] rts] cs Hc Hwt Hwr Hrun; simpl in *; try done.
      { by injection Hrun as <-. }
      apply andb_prop in Hc as [Hc Hrest]. apply andb_prop in Hc as [Hk Hc].
      apply bool_decide_eq_true in Hk as <-.
      apply andb_prop in Hwt as [Hwt Hwts]. apply andb_prop in Hwr as [Hwr Hwrs].
      destruct (map_leaves (record_leaf s) (pth ++ [DictKey k]) c rc1)
        as [e|c1] eqn:Hc1run; [done|]. simpl in Hrun.
      match type of Hrun with rbind ?z _ = _ => destruct z as [e|cs'] eqn:Hzs end;
        [done|].
      injection Hrun as <-.
      destruct (Hhd c1 rc1 (pth ++ [DictKey k]) Hc Hwt Hwr Hc1run)
        as (Hsame & Hother & Hwf).
      destruct (IHitems (S i) rts cs' Hrest Hwts Hwrs Hzs)
        as (Hsames & Hothers & Hwfs).
      split; [|split].
      - simpl. rewrite Hsame. simpl. by rewrite Hsames.
      - intros s' Hs' Hne. simpl.
        by rewrite (Hother s' Hs' Hne), (Hothers s' Hs' Hne).
      - simpl. by rewrite Hwf, Hwfs. }
    match type of Hrun with rmap _ ?z = _ => destruct z as [e|cs] eqn:Hzs end;
      [done|].
    injection Hrun as <-.
    destruct (Hgo 0 ritems cs Hc Hwt Hwr Hzs) as (Hsame & Hother & Hwf).
    simpl. rewrite Hsame. split; [done|]. split; [|done].
    intros s' Hs' Hne. by rewrite (Hother s' Hs' Hne).
  - simpl in Hrun, Hwt, Hwr.
    assert (∀ i rts cs,
      all2 (compatible n) items rts = true →
      forallb (tree_all well_sized) items = true →
      forallb (tree_all (λ x, well_sized (jnp_array F x))) rts = true →
      zip_children (ValueError "Tuple arity mismatch")
        (λ i c rc, map_leaves (record_leaf s) (pth ++ [SequenceKey i]) c rc)
        i items rts = ok cs →
      rmapM (tree_mapM (λ arr, getitem arr s)) cs
      = ok (tree_map (jnp_array F) <$> rts)
      ∧ (∀ s', (0 ≤ s' < Z.of_nat n)%Z → s' ≠ s →
           rmapM (tree_mapM (λ arr, getitem arr s')) cs
           = rmapM (tree_mapM (λ arr, getitem arr s')) items)
      ∧ forallb (tree_all well_sized) cs = true) as Hgo.
    { clear Hc Hwt Hwr Hrun ritems t'.
      induction IH as [|c items Hhd _ IHitems];
        intros i [|rc1 rts] cs Hc Hwt Hwr Hrun; simpl in *; try done.
      { by injection Hrun as <-. }
      apply andb_prop in Hc as [Hc Hrest].
      apply andb_prop in Hwt as [Hwt Hwts]. apply andb_prop in Hwr as [Hwr Hwrs].
      destruct (map_leaves (record_leaf s) (pth ++ [SequenceKey i]) c rc1)
        as [e|c1] eqn:Hc1run; [done|]. simpl in Hrun.
      match type of Hrun with rbind ?z _ = _ => destruct z as [e|cs'] eqn:Hzs end;
        [done|].
      injection Hrun as <-.
      destruct (Hhd c1 rc1 (pth ++ [SequenceKey i]) Hc Hwt Hwr Hc1run)
        as (Hsame & Hother & Hwf).
      destruct (IHitems (S i) rts cs' Hrest Hwts Hwrs Hzs)
        as (Hsames & Hothers & Hwfs).
      split; [|split].
      - simpl. rewrite Hsame. simpl. by rewrite Hsames.
      - intros s' Hs' Hne. simpl.
        by rewrite (Hother s' Hs' Hne), (Hothers s' Hs' Hne).
      - simpl. by rewrite Hwf, Hwfs. }
    match type of Hrun with rmap _ ?z = _ => destruct z as [e|cs] eqn:Hzs end;
      [done|].
    injection Hrun as <-.
    destruct (Hgo 0 ritems cs Hc Hwt Hwr Hzs) as (Hsame & Hother & Hwf).
    simpl. rewrite Hsame. split; [done|]. split; [|done].
    intros s' Hs' Hne. by rewrite (Hother s' Hs' Hne).
Qed.

(** The buffers [initialize] allocates fit every report of the shapes of
    its argument, hold as many elements as their shapes say, and read as
    zeros at every step. *)
Lemma initialize_compatible n (r : pytree (pyleaf F)) :
  compatible n
    (tree_map (λ leaf, zeros F zero (n :: shape (jnp_array F leaf))) r) r
  = true.
Proof.
  induction r as [x|items IH|items IH] using pytree_ind'; simpl.
  - by apply bool_decide_eq_true.
  - apply all2_fmap_l. eapply Forall_impl; [exact IH|].
    intros [k c] Hc. simpl in *. by rewrite bool_decide_eq_true_2, Hc.
  - apply all2_fmap_l. eapply Forall_impl; [exact IH|]. by intros c Hc.
Qed.

Lemma zeros_well_sized (sh : list nat) : well_sized (zeros F zero sh) = true.
Proof. apply bool_decide_eq_true. simpl. by rewrite length_replicate. Qed.

Lemma initialize_well_sized n (r : pytree (pyleaf F)) :
  tree_all well_sized
    (tree_map (λ leaf, zeros F zero (n :: shape (jnp_array F leaf))) r)
  = true.
Proof.
  induction r as [x|items IH|items IH] using pytree_ind'; simpl.
  - apply zeros_well_sized.
  - apply forallb_fmap. eapply Forall_impl; [exact IH|]. by intros [k c] Hc.
  - apply forallb_fmap. eapply Forall_impl; [exact IH|]. by intros c Hc.
Qed.

Lemma getitem_zeros n sh (s : Z) :
  (0 ≤ s < Z.of_nat n)%Z →
  getitem (zeros F zero (n :: sh)) s = ok (zeros F zero sh).
Proof.
  intros Hs. rewrite (getitem_in_range _ s n sh) by done.
  unfold zeros. simpl. do 2 f_equal.
  rewrite drop_replicate, take_replicate. f_equal.
  assert (Z.to_nat s < n) by lia. nia.
Qed.

Lemma initialize_reads_zeros n (s : Z) (r : pytree (pyleaf F)) :
  (0 ≤ s < Z.of_nat n)%Z →
  tree_mapM (λ arr, getitem arr s)
    (tree_map (λ leaf, zeros F zero (n :: shape (jnp_array F leaf))) r)
  = ok (tree_map (λ leaf, zeros F zero (shape (jnp_array F leaf))) r).
Proof.
  intros Hs. induction r as [x|items IH|items IH] using pytree_ind'; simpl.
  - by rewrite getitem_zeros.
  - erewrite rmapM_fmap_ok; [done|]. eapply Forall_impl; [exact IH|].
    intros [k c] Hc. simpl in *. by rewrite Hc.
  - erewrite rmapM_fmap_ok; [done|]. eapply Forall_impl; [exact IH|].
    by intros c Hc.
Qed.

End read_back.

(** The paths of a tree do not depend on what its leaves hold. *)
Lemma paths_tree_map {X Y} (f : X → Y) (t : pytree X) (pth : key_path) :
  (flatten_with_path pth (tree_map f t)).*1 = (flatten_with_path pth t).*1.
Proof.
  revert pth. induction t as [a|items IH|items IH] using pytree_ind';
    intros pth; simpl; [done| |].
  - induction IH as [|[k c] items Hhd _ IHitems]; simpl; [done|].
    rewrite !fmap_app. f_equal; [apply Hhd | apply IHitems].
  - generalize 0 at 1 2.
    induction IH as [|c items Hhd _ IHitems]; intros i; simpl; [done|].
    rewrite !fmap_app. f_equal; [apply Hhd | apply IHitems].
Qed.

(** [_index] returns the first leaf of the tree, whatever path is asked
    for. *)
Lemma _index_loop_first {X} (paths_vals : list (key_path * X)) path :
  _index_loop paths_vals path
  = match paths_vals with
    | [] => raise (IndexError ("No element " ++ str_path path)%string)
    | (_, val) :: _ => ok val
    end.
Proof.
  destruct paths_vals as [|[p v] rest]; simpl; [done|].
  by rewrite bool_decide_eq_true_2.
Qed.



Lemma record_uninitialized (F : Type) (zero : F) (n : nat)
    (r : pytree (pyleaf F)) (s : Z) :
  record F zero r s (__init__ F n)
  = record F zero r s
      (MkArrayTrace n
         (Some (tree_map (λ leaf, zeros F zero (n :: shape (jnp_array F leaf)))
                  r))).
Proof. reflexivity. Qed.



(** X2: the first [record] on a fresh trace of [n_steps] ≥ 1 steps, with
    an in-range step, succeeds for every report: the trace keeps its
    length, gets the paths of the report, reads the report back at that
    step and zeros of the leaves' shapes at every other in-range step. *)
Theorem first_record_initializes (F : Type) (zero : F) (n_steps : nat)
    (reports : pytree (pyleaf F)) (step : Z) :
  (0 ≤ step < Z.of_nat n_steps)%Z →
  tree_all (λ x, well_sized (jnp_array F x)) reports = true →
  ∃ self' tree',
    record F zero reports step (__init__ F n_steps) = (self', ok tt)
    ∧ _tree self' = Some tree'
    ∧ __len__ F self' = n_steps
    ∧ _all_paths tree' = _all_paths reports
    ∧ __getitem__ F self' step = ok (Some (tree_map (jnp_array F) reports))
    ∧ ∀ step', (0 ≤ step' < Z.of_nat n_steps)%Z → step' ≠ step →
        __getitem__ F self' step'
        = ok (Some (tree_map (λ x, zeros F zero (shape (jnp_array F x)))
                      reports)).
Proof.
  intros Hs Hwr. rewrite record_uninitialized.
  set (tree0 := tree_map
                  (λ leaf, zeros F zero (n_steps :: shape (jnp_array F leaf)))
                  reports).
  set (self0 := MkArrayTrace n_steps (Some tree0)).
  pose proof (initialize_compatible F zero n_steps reports) as Hc.
  pose proof (initialize_well_sized F zero n_steps reports) as Hwt.
  fold tree0 in Hc, Hwt.
  destruct (flatten_up_to_compatible F _ _ _ Hc) as [l Hl].
  destruct (map_leaves_compatible F n_steps step tree0 reports [])
    as (tree' & Hmap & Hshape & _); [lia | done |].
  destruct (map_leaves_read_back F n_steps step tree0 tree' reports []
              Hs Hc Hwt Hwr Hmap) as (Hsame & Hother & _).
  exists (MkArrayTrace n_steps (Some tree')), tree'.
  rewrite (record_initialized F zero self0 tree0) by done.
  unfold tree_map_with_path. rewrite Hl. simpl. rewrite Hmap.
  split; [done|]. split; [done|]. split; [done|]. split.
  { unfold _all_paths.
    rewrite <- (paths_tree_map shape tree'), Hshape, paths_tree_map.
    unfold tree0. by rewrite paths_tree_map. }
  unfold __getitem__. simpl. rewrite Hsame. split; [done|].
  intros s' Hs' Hne. rewrite (Hother s' Hs' Hne).
  unfold tree0. by rewrite initialize_reads_zeros.
Qed.

Lemma first_record_initializes_witness :
  ∃ self' tree',
    record Z 0%Z
      (DictNode [("loss", Leaf (PyScalar 7%Z));
                 ("w", SeqNode [Leaf (JArray (NDArray [2] [8%Z; 9%Z]))])])
      0 (__init__ Z 3) = (self', ok tt)
    ∧ _tree self' = Some tree'
    ∧ _all_paths tree' = [[DictKey "loss"]; [DictKey "w"; SequenceKey 0]].
Proof.
  destruct (first_record_initializes Z 0%Z 3
              (DictNode [("loss", Leaf (PyScalar 7%Z));
                         ("w", SeqNode [Leaf (JArray (NDArray [2] [8%Z; 9%Z]))])])
              0) as (self' & tree' & Hrun & Htree & _ & Hpaths & _);
    [simpl; lia | reflexivity |].
  exists self', tree'. split; [exact Hrun|]. split; [exact Htree|].
  rewrite Hpaths. reflexivity.
Defined.



(** X4: [_index(tree, path)] does not look at [path]: it returns the first
    leaf of the tree in flattening order, and raises an index error only
    on a tree without leaves. *)
Theorem index_returns_first_leaf {X} (tree : pytree X) (path : key_path) :
  match flatten_with_path [] tree with
  | [] => ∃ msg, _index tree path = raise (IndexError msg)
  | (_, val) :: _ => _index tree path = ok val
  end.
Proof.
  unfold _index. rewrite _index_loop_first.
  destruct (flatten_with_path [] tree) as [|[p val] rest]; [by eexists|done].
Qed.

End LoggingMore.

(** ** Feature reduction: the other direction, shapes and calibration *)

Module FeaturesMore.
Import Features FeaturesSpec.
Local Open Scope list_scope.
Local Open Scope nat_scope.

Section features_more.

Variable A : Type.
Variable zero : A.

Local Abbreviation mask_select := (mask_select A).
Local Abbreviation insert_at := (insert_at A).

Lemma length_insert_at ix (z : A) (row : list A) :
  length (insert_at ix z row) = S (length row).
Proof.
  unfold Features.insert_at.
  rewrite length_app, length_take. simpl. rewrite length_drop. lia.
Qed.

Lemma length_foldl_insert (s : list nat) (row : list A) :
  length (foldl (λ r ix, insert_at ix zero r) row s) = length row + length s.
Proof.
  revert row. induction s as [|j s IH]; intros row; simpl; [lia|].
  rewrite IH, length_insert_at. lia.
Qed.

(** Inserting at increasing positions and then masking these positions
    out gives the row back. *)
Lemma insert_sorted_mask (s : list nat) (row : list A) :
  StronglySorted lt s →
  (∀ i, i ∈ s → i < length row + length s) →
  mask_select (negb <$> isin (seq 0 (length row + length s)) s)
              (foldl (λ r ix, insert_at ix zero r) row s)
  = row.
Proof.
  induction s as [|j s IH] using rev_ind; intros Hs Hlt.
  - simpl. rewrite Nat.add_0_r. apply mask_select_none.
    + intros x _. apply not_elem_of_nil.
    + by rewrite length_seq.
  - rewrite foldl_app. simpl.
    assert (∀ i, i ∈ s → i < j) as Hlast.
    { intros i Hi. eapply (StronglySorted_app_1_elem_of lt s [j]); [done..|].
      by apply list_elem_of_singleton. }
    assert (j < length row + length (s ++ [j])) as Hj.
    { apply Hlt. apply elem_of_app. right. by apply list_elem_of_singleton. }
    rewrite length_app in Hj. simpl in Hj.
    set (full := foldl (λ r ix, insert_at ix zero r) row s).
    assert (length full = length row + length s) as Hfull
      by apply length_foldl_insert.
    assert (length (take j full) = j) as Ht1 by (rewrite length_take; lia).
    unfold Features.insert_at.
    replace (length row + length (s ++ [j]))
      with (length (take j full ++ zero :: drop j full)).
    2:{ rewrite !length_app, Ht1. simpl. rewrite length_drop. lia. }
    pose proof (mask_select_last A s (take j full) (drop j full) zero) as Hml.
    rewrite Ht1 in Hml. rewrite Hml by done.
    rewrite take_drop, Hfull. apply IH.
    + by apply StronglySorted_app_1_l in Hs.
    + intros i Hi. specialize (Hlast i Hi). lia.
Qed.

(** The same with the positions in any order and sorted by the code. *)
Lemma inflate_reduce_row (ixs : list nat) (row : list A) :
  NoDup ixs →
  (∀ i, i ∈ ixs → i < length row + length ixs) →
  mask_select (negb <$> isin (seq 0 (length row + length ixs)) ixs)
              (foldl (λ r ix, insert_at ix zero r) row
                     (merge_sort Nat.le ixs))
  = row.
Proof.
  intros Hnd Hlt.
  pose proof (merge_sort_Permutation Nat.le ixs) as Hperm.
  set (s := merge_sort Nat.le ixs) in *.
  assert (∀ x, x ∈ ixs ↔ x ∈ s) as Hmem by (intros x; by rewrite Hperm).
  assert (length s = length ixs) as Hlen by (by rewrite Hperm).
  rewrite (isin_ext _ ixs s) by (intros x _; apply Hmem).
  rewrite <- Hlen. apply insert_sorted_mask.
  - apply sorted_le_NoDup_lt; [|by rewrite Hperm].
    apply Sorted_merge_sort. intros x y. lia.
  - intros i Hi. rewrite Hlen. apply Hlt. by apply Hmem.
Qed.

(** What a mask of [reduce_ixs] leaves of a row. *)
Lemma length_mask_select (ixs : list nat) (row : list A) :
  NoDup ixs →
  (∀ i, i ∈ ixs → i < length row) →
  length (mask_select (negb <$> isin (seq 0 (length row)) ixs) row)
  = length row - length ixs.
Proof.
  intros Hnd Hlt.
  pose proof (reduce_inflate_row A zero ixs row Hnd Hlt) as H.
  apply (f_equal length) in H.
  rewrite length_foldl_insert, length_zeroed_from in H.
  pose proof (merge_sort_Permutation Nat.le ixs) as Hperm.
  apply Permutation_length in Hperm. lia.
Qed.

(** *** [where] *)

Lemma elem_of_where_ (off : nat) (mask : list bool) (c : nat) :
  c ∈ where_ off mask ↔ off ≤ c ∧ mask !! (c - off) = Some true.
Proof.
  revert off. induction mask as [|m mask IH]; intros off; simpl.
  - split; [by intros ?%elem_of_nil | by intros [_ ?]].
  - assert (c ∈ where_ (S off) mask
            ↔ off < c ∧ (m :: mask) !! (c - off) = Some true) as Hrest.
    { rewrite IH. split.
      - intros [Hle Hm]. split; [lia|].
        replace (c - off) with (S (c - S off)) by lia. done.
      - intros [Hle Hm]. split; [lia|].
        replace (c - off) with (S (c - S off)) in Hm by lia. done. }
    destruct m.
    + rewrite elem_of_cons, Hrest. split.
      * intros [->|[? ?]]; [|split; [lia|done]].
        split; [lia|]. by rewrite Nat.sub_diag.
      * intros [Hle Hm]. destruct (decide (c = off)) as [->|]; [by left|].
        right. split; [lia|done].
    + rewrite Hrest. split.
      * intros [? ?]. split; [lia|done].
      * intros [Hle Hm]. destruct (decide (c = off)) as [->|].
        -- by rewrite Nat.sub_diag in Hm.
        -- split; [lia|done].
Qed.

Lemma where__sorted (off : nat) (mask : list bool) :
  StronglySorted lt (where_ off mask).
Proof.
  revert off. induction mask as [|m mask IH]; intros off; simpl;
    [constructor|].
  destruct m; [|apply IH]. constructor; [apply IH|].
  apply Forall_forall. intros c Hc. apply elem_of_where_ in Hc. lia.
Qed.

Lemma StronglySorted_lt_NoDup (s : list nat) : StronglySorted lt s → NoDup s.
Proof.
  induction 1 as [|a s Hs IH Ha]; [constructor|].
  constructor; [|done]. intros Hin.
  eapply Forall_forall in Ha; [|done]. lia.
Qed.

End features_more.

(** X5: [reduce_array] undoes [inflate_array]: for features of [m]
    columns and a calibration with distinct [reduce_ixs] below the
    inflated width [m + len(reduce_ixs) = n_kpts * d], inflating a batch
    and reducing the result gives the batch back. *)
Theorem locked_pts_inflate_reduce (A : Type) (zero : A)
    (feats : list (list A)) (cfg : config) (calib : calibration)
    (m d : nat) :
  feats ≠ [] →
  n_kpts calib ≠ 0 →
  Forall (λ r, length r = m) feats →
  calibration_data cfg = Some calib →
  NoDup (reduce_ixs calib) →
  (∀ i, i ∈ reduce_ixs calib → i < m + length (reduce_ixs calib)) →
  m + length (reduce_ixs calib) = n_kpts calib * d →
  ∃ y, locked_pts_inflate_array A zero (Frames feats) cfg = ok (Poses y)
       ∧ length y = length feats
       ∧ Forall (λ frame, length frame = n_kpts calib
                          ∧ Forall (λ p, length p = d) frame) y
       ∧ locked_pts_reduce_array A y cfg = ok feats.
Proof.
  intros Hne Hn Hm Hcfg Hnd Hlt Hw.
  set (ixs := reduce_ixs calib) in *. set (n := n_kpts calib) in *.
  set (ins := λ row : list A,
         foldl (λ r ix, insert_at A ix zero r) row (merge_sort Nat.le ixs)).
  set (rows := ins <$> feats).
  assert (Forall (λ r, length r = n * d) rows) as Hrows.
  { apply Forall_fmap. eapply Forall_impl; [exact Hm|]. intros row Hrow.
    simpl in Hrow. simpl. unfold ins. rewrite length_foldl_insert.
    rewrite (Permutation_length (merge_sort_Permutation Nat.le ixs)). lia. }
  assert (rows ≠ []) as Hrne by (by destruct feats).
  assert (length rows = length feats) as Hlen by apply length_fmap.
  exists (chunk A d n <$> rows).
  split; [|split; [|split]].
  - unfold locked_pts_inflate_array, get_calibration_data. rewrite Hcfg.
    simpl. rewrite foldl_fmap_rows. fold ixs ins rows n. rewrite <- Hlen.
    by rewrite (reshape3_rows A n d).
  - by rewrite length_fmap.
  - apply Forall_fmap. eapply Forall_impl; [exact Hrows|]. intros row Hrow.
    simpl in Hrow. simpl. split; [apply length_chunk|]. apply Forall_length_chunk. lia.
  - unfold locked_pts_reduce_array, get_calibration_data.
    rewrite concat_concat_fmap, <- list_fmap_compose.
    rewrite (Forall_fmap_ext_1 _ id rows); last first.
    { eapply Forall_impl; [exact Hrows|]. intros row Hrow. simpl in Hrow. simpl.
      apply concat_chunk. lia. }
    rewrite list_fmap_id, length_fmap.
    rewrite (reshape2_rows A (n * d)) by done. rewrite Hcfg. simpl.
    assert (width A rows = n * d) as ->.
    { destruct rows as [|r rows']; [done|].
      by apply Forall_cons in Hrows as [? _]. }
    f_equal. unfold rows. rewrite <- list_fmap_compose.
    rewrite <- (list_fmap_id feats) at 2.
    apply Forall_fmap_ext_1. eapply Forall_impl; [exact Hm|].
    intros row Hrow. simpl in Hrow. simpl. fold ixs. rewrite <- Hw, <- Hrow.
    apply inflate_reduce_row; [done|]. intros i Hi. rewrite Hrow.
    by apply Hlt.
Qed.

Lemma locked_pts_inflate_reduce_witness :
  let feats := [[2%Z; 3%Z]; [6%Z; 7%Z]] in
  let cfg := Config "locked_pts" (Some (Calibration ["a"; "b"] [3; 0] 2)) in
  locked_pts_inflate_array Z 0%Z (Frames feats) cfg
  = ok (Poses [[[0%Z; 2%Z]; [3%Z; 0%Z]]; [[0%Z; 6%Z]; [7%Z; 0%Z]]])
  ∧ locked_pts_reduce_array Z
      [[[0%Z; 2%Z]; [3%Z; 0%Z]]; [[0%Z; 6%Z]; [7%Z; 0%Z]]] cfg
    = ok feats.
Proof.
  intros feats cfg.
  destruct (locked_pts_inflate_reduce Z 0%Z feats cfg
              (Calibration ["a"; "b"] [3; 0] 2) 2 2)
    as (y & Hinf & _ & _ & Hred).
  - discriminate.
  - discriminate.
  - repeat constructor.
  - reflexivity.
  - apply (bool_decide_unpack _). vm_compute. exact I.
  - intros i Hi. simpl.
    apply elem_of_cons in Hi as [->|Hi]; [lia|].
    apply list_elem_of_singleton in Hi as ->. lia.
  - reflexivity.
  - assert (y = [[[0%Z; 2%Z]; [3%Z; 0%Z]]; [[0%Z; 6%Z]; [7%Z; 0%Z]]]) as Hy.
    { assert (ok (Poses y)
              = ok (Poses [[[0%Z; 2%Z]; [3%Z; 0%Z]];
                           [[0%Z; 6%Z]; [7%Z; 0%Z]]])
                :> result (keypoints Z)) as Heq
        by (rewrite <- Hinf; reflexivity).
      by injection Heq. }
    subst y. split; [exact Hinf | exact Hred].
Defined.

(** X6: [inflate_array] treats a single frame of features as a batch of
    one frame and returns its pose without the batch axis. *)
Theorem locked_pts_inflate_single_frame (A : Type) (zero : A)
    (v : list A) (cfg : config) :
  locked_pts_inflate_array A zero (Frames [v]) cfg
  = rmap (λ r, match r with Pose kp => Poses [kp] | Poses kps => Poses kps end)
         (locked_pts_inflate_array A zero (Frame v) cfg).
Proof.
  unfold locked_pts_inflate_array.
  destruct (get_calibration_data cfg) as [e|calib]; [done|]. simpl.
  set (rows := foldl _ [v] _).
  unfold reshape2, reshape3. rewrite Nat.mul_1_l.
  case_bool_decide as Hc; [done|]. simpl. do 3 f_equal.
  apply take_ge. by rewrite length_chunk.
Qed.

(** X7: the [reduce_ixs] that [locked_pts._calibrate] returns are exactly
    the flattened coordinates whose standard deviation is below [1e-5],
    in increasing order and without repeats; [n_kpts] is the dataset's
    number of points. *)
Theorem locked_pts__calibrate_reduce_ixs (A : Type) (std : list A → A)
    (flt_lt : A → A → bool) (lit_1e_5 : A) (dataset : KeypointDataset A) :
  let flat_data := as_features_data dataset in
  let out := locked_pts__calibrate A std flt_lt lit_1e_5 dataset in
  StronglySorted lt out.1
  ∧ NoDup out.1
  ∧ (∀ c, c ∈ out.1 ↔
          c < width A flat_data
          ∧ flt_lt (std (column A c flat_data)) lit_1e_5 = true)
  ∧ out.2 = n_points dataset.
Proof.
  cbv zeta. unfold locked_pts__calibrate. simpl.
  split; [apply where__sorted|].
  split; [apply StronglySorted_lt_NoDup, where__sorted|].
  split; [|done]. intros c. rewrite elem_of_where_, Nat.sub_0_r.
  unfold std_axis0. rewrite !list_lookup_fmap.
  destruct (decide (c < width A (as_features_data dataset))) as [Hc|Hc].
  - rewrite lookup_seq_lt by done. simpl. split.
    + intros [_ [= ->]]. done.
    + intros [_ ->]. split; [lia|done].
  - rewrite lookup_seq_ge by lia. simpl. split; [by intros [_ ?]|].
    intros [? _]. lia.
Qed.

(** X8: [reduce_array] keeps the frames and leaves each of them
    [n_kpts * d - len(reduce_ixs)] columns, for distinct [reduce_ixs]
    below the flattened width. *)
Theorem locked_pts_reduce_array_shape (A : Type) (zero : A)
    (x : list (list (list A))) (cfg : config) (calib : calibration)
    (n_pts d : nat) :
  x ≠ [] → n_pts ≠ 0 →
  Forall (λ frame, length frame = n_pts ∧ Forall (λ p, length p = d) frame) x →
  calibration_data cfg = Some calib →
  NoDup (reduce_ixs calib) →
  (∀ i, i ∈ reduce_ixs calib → i < n_pts * d) →
  ∃ reduced,
    locked_pts_reduce_array A x cfg = ok reduced
    ∧ length reduced = length x
    ∧ Forall (λ r, length r = n_pts * d - length (reduce_ixs calib)) reduced.
Proof.
  intros Hx Hn Hshape Hcfg Hnd Hlt.
  set (rows := @concat A <$> x).
  assert (Forall (λ r, length r = n_pts * d) rows) as Hrows.
  { apply Forall_fmap. eapply Forall_impl; [done|].
    intros frame. apply length_concat_frame. }
  assert (rows ≠ []) as Hne by (by destruct x).
  assert (length rows = length x) as Hlen by apply length_fmap.
  unfold locked_pts_reduce_array, get_calibration_data.
  rewrite concat_concat_fmap. fold rows. rewrite <- Hlen.
  rewrite (reshape2_rows A (n_pts * d)) by done. rewrite Hcfg. simpl.
  assert (width A rows = n_pts * d) as ->.
  { destruct rows as [|r rows']; [done|].
    by apply Forall_cons in Hrows as [? _]. }
  eexists. split; [done|]. split; [by rewrite length_fmap|].
  apply Forall_fmap. eapply Forall_impl; [exact Hrows|]. intros row Hrow.
  simpl in Hrow. simpl. rewrite <- Hrow. apply (length_mask_select A zero); [done|].
  intros i Hi. rewrite Hrow. by apply Hlt.
Qed.

Lemma locked_pts_reduce_array_shape_witness :
  ∃ reduced,
    locked_pts_reduce_array Z
      [[[1%Z; 2%Z]; [3%Z; 4%Z]]; [[5%Z; 6%Z]; [7%Z; 8%Z]]]
      (Config "locked_pts" (Some (Calibration ["a"; "b"] [3; 0] 2)))
    = ok reduced
    ∧ length reduced = 2
    ∧ Forall (λ r, length r = 2) reduced.
Proof.
  destruct (locked_pts_reduce_array_shape Z 0%Z
              [[[1%Z; 2%Z]; [3%Z; 4%Z]]; [[5%Z; 6%Z]; [7%Z; 8%Z]]]
              (Config "locked_pts" (Some (Calibration ["a"; "b"] [3; 0] 2)))
              (Calibration ["a"; "b"] [3; 0] 2) 2 2)
    as (reduced & Hred & Hlen & Hw).
  - discriminate.
  - discriminate.
  - repeat constructor.
  - reflexivity.
  - apply (bool_decide_unpack _). vm_compute. exact I.
  - intros i Hi. simpl.
    apply elem_of_cons in Hi as [->|Hi]; [lia|].
    apply list_elem_of_singleton in Hi as ->. lia.
  - exists reduced. split; [exact Hred|]. split; [exact Hlen | exact Hw].
Defined.

(** X9: with [max_pts = k] and at least [k] rows, [pcs._calibrate] logs
    one message and fits on exactly [k] rows of the data, taken at [k]
    distinct positions, provided [jr.permutation] returns a permutation
    of the row numbers. *)
Theorem pcs_calibrate_subsamples (A : Type)
    (permutation : nat → nat → list nat) (pcs_calibration : Type)
    (fit_and_select :
       list (list A) → pcs_config A → option nat → nat → result pcs_calibration)
    (dataset : KeypointDataset A) (cfg : pcs_config A) (k : nat)
    (n_dims : option nat) (log : list string) :
  let flat_data := as_features_data dataset in
  max_pts cfg = Some k →
  k ≤ length flat_data →
  permutation (subset_seed cfg) (length flat_data)
    ≡ₚ seq 0 (length flat_data) →
  ∃ subset sub,
    pcs__calibrate A permutation pcs_calibration fit_and_select
      dataset cfg n_dims log
    = (log ++ [reducing_message (length flat_data) k],
       fit_and_select sub cfg n_dims (n_points dataset))
    ∧ length sub = k
    ∧ NoDup subset
    ∧ Forall2 (λ i row, flat_data !! i = Some row) subset sub.
Proof.
  intros flat_data Hmax Hk Hperm.
  set (subset := take k (permutation (subset_seed cfg) (length flat_data))).
  assert (∀ i, i ∈ subset → i < length flat_data) as Hin.
  { intros i Hi. apply elem_of_take in Hi as (j & Hj & _).
    apply list_elem_of_lookup_2 in Hj. rewrite Hperm in Hj.
    apply elem_of_seq in Hj. lia. }
  assert (Forall2 (λ i row, flat_data !! i = Some row) subset
            (take_rows A flat_data subset)) as Hrows.
  { unfold take_rows. clearbody subset.
    induction subset as [|i s IH]; simpl; [constructor|].
    assert (i < length flat_data) as Hi by (apply Hin; left).
    replace (i `min` (length flat_data - 1)) with i by lia.
    destruct (lookup_lt_is_Some_2 flat_data i Hi) as [row Hrow].
    rewrite Hrow. simpl. constructor; [done|].
    apply IH. intros j Hj. apply Hin. by right. }
  exists subset, (take_rows A flat_data subset).
  split; [|split; [|split]]; [| | |done].
  - unfold pcs__calibrate. rewrite Hmax. fold flat_data.
    unfold jr_choice. rewrite bool_decide_eq_false_2 by lia. done.
  - rewrite <- (Forall2_length _ _ _ Hrows). unfold subset.
    rewrite length_take, Hperm, length_seq. lia.
  - unfold subset. eapply sublist_NoDup; cycle 1; [apply sublist_take|].
    rewrite Hperm. apply NoDup_seq.
Qed.

Lemma pcs_calibrate_subsamples_witness :
  ∃ sub,
    pcs__calibrate Z (λ _ n, reverse (seq 0 n)) (list (list Z))
      (λ rows _ _ _, ok rows)
      (Dataset [[1%Z; 2%Z]; [3%Z; 4%Z]; [5%Z; 6%Z]] 1 ["a"])
      (PcsConfig 98%Z (Some 2) 823) None []
    = (["Reducing dataset size for PCA: 3 to 2."], ok sub)
    ∧ length sub = 2.
Proof.
  destruct (pcs_calibrate_subsamples Z (λ _ n, reverse (seq 0 n))
              (list (list Z)) (λ rows _ _ _, ok rows)
              (Dataset [[1%Z; 2%Z]; [3%Z; 4%Z]; [5%Z; 6%Z]] 1 ["a"])
              (PcsConfig 98%Z (Some 2) 823) 2 None [])
    as (subset & sub & Hrun & Hlen & _).
  - reflexivity.
  - simpl. lia.
  - apply reverse_Permutation.
  - exists sub. split; [exact Hrun | exact Hlen].
Defined.

End FeaturesMore.

(** ** Flat lower-triangular forms *)

Module UtilMore.
Import Util.
Local Open Scope list_scope.
Local Open Scope nat_scope.
#[local] Arguments Nat.div : simpl never.

Lemma position_lookup (ixs : list (nat * nat)) (k : nat) (p : nat * nat) :
  NoDup ixs → ixs !! k = Some p → position ixs p = Some k.
Proof.
  revert k. induction ixs as [|q ixs IH]; intros k Hnd Hk; [done|].
  apply NoDup_cons in Hnd as [Hq Hnd]. simpl. destruct k as [|k]; simpl in Hk.
  - injection Hk as ->. by rewrite bool_decide_eq_true_2.
  - rewrite bool_decide_eq_false_2.
    + by rewrite (IH k).
    + intros ->. apply Hq. by eapply list_elem_of_lookup_2.
Qed.

Lemma position_None (ixs : list (nat * nat)) (p : nat * nat) :
  p ∉ ixs → position ixs p = None.
Proof.
  induction ixs as [|q ixs IH]; intros Hp; [done|]. simpl.
  apply not_elem_of_cons in Hp as [Hne Hp].
  rewrite bool_decide_eq_false_2 by done. by rewrite IH.
Qed.

Lemma triangle_S (w : nat → nat) (n : nat) :
  triangle w (S n) = triangle w n ++ (pair n <$> seq 0 (w n)).
Proof.
  unfold triangle. rewrite seq_S, fmap_app, concat_app. simpl.
  by rewrite app_nil_r.
Qed.

Lemma length_triangle (w : nat → nat) (n : nat) :
  length (triangle w n) = triangle_offset w n.
Proof.
  induction n as [|n IH]; [done|].
  rewrite triangle_S, length_app, length_fmap, length_seq, IH. done.
Qed.

Lemma elem_of_triangle (w : nat → nat) (n i j : nat) :
  (i, j) ∈ triangle w n ↔ i < n ∧ j < w i.
Proof.
  induction n as [|n IH].
  - unfold triangle. simpl. split; [by intros ?%elem_of_nil | lia].
  - rewrite triangle_S, elem_of_app, IH, list_elem_of_fmap. split.
    + intros [[? ?]|(j' & [= -> ->] & Hj)]; [lia|].
      apply elem_of_seq in Hj. lia.
    + intros [Hi Hj]. destruct (decide (i = n)) as [->|]; [|left; lia].
      right. exists j. split; [done|]. apply elem_of_seq. lia.
Qed.

Lemma NoDup_triangle (w : nat → nat) (n : nat) : NoDup (triangle w n).
Proof.
  induction n as [|n IH]; [constructor|].
  rewrite triangle_S. apply NoDup_app. split; [done|]. split.
  - intros [i j] Hin (j' & [= -> ->] & _)%list_elem_of_fmap.
    apply elem_of_triangle in Hin. lia.
  - apply NoDup_fmap_2; [|apply NoDup_seq]. by intros ?? [= ->].
Qed.

Lemma triangle_lookup (w : nat → nat) (n i j : nat) :
  i < n → j < w i →
  triangle w n !! (triangle_offset w i + j) = Some (i, j).
Proof.
  induction n as [|n IH]; intros Hi Hj; [lia|].
  rewrite triangle_S. destruct (decide (i = n)) as [->|Hne].
  - rewrite lookup_app_r; rewrite length_triangle; [|lia].
    replace (triangle_offset w n + j - triangle_offset w n) with j by lia.
    by rewrite list_lookup_fmap, lookup_seq_lt.
  - assert (triangle w n !! (triangle_offset w i + j) = Some (i, j)) as H
      by (apply IH; [lia|done]).
    rewrite lookup_app_l; [done|]. by eapply lookup_lt_Some.
Qed.


Lemma tril_indices_main (n : nat) : tril_indices n 0 = triangle S n.
Proof.
  unfold tril_indices, triangle. f_equal. apply list_fmap_ext.
  intros k i Hi. apply lookup_seq in Hi as [-> Hi]. unfold tril_row.
  f_equal. f_equal. lia.
Qed.

Lemma tril_indices_below (n : nat) : tril_indices n (-1) = triangle id n.
Proof.
  unfold tril_indices, triangle. f_equal. apply list_fmap_ext.
  intros k i Hi. apply lookup_seq in Hi as [-> Hi]. unfold tril_row.
  f_equal. f_equal. unfold id. lia.
Qed.

Lemma triangle_offset_main (i : nat) :
  triangle_offset S i = i * (i + 1) / 2.
Proof.
  induction i as [|i IH]; [done|]. simpl triangle_offset. rewrite IH.
  replace (S i * (S i + 1)) with (i * (i + 1) + S i * 2) by lia.
  by rewrite Nat.div_add.
Qed.

Lemma triangle_offset_below (i : nat) :
  triangle_offset id i = i * (i - 1) / 2.
Proof.
  induction i as [|i IH]; [done|]. simpl triangle_offset. rewrite IH.
  unfold id.
  replace (S i * (S i - 1)) with (i * (i - 1) + i * 2)
    by (destruct i; simpl; lia).
  by rewrite Nat.div_add.
Qed.

Lemma position_diag (n i j : nat) :
  position (diag_indices n) (i, j)
  = if bool_decide (i = j ∧ i < n) then Some i else None.
Proof.
  case_bool_decide as H.
  - destruct H as [<- Hi]. apply position_lookup.
    + apply NoDup_fmap_2; [|apply NoDup_seq]. by intros ?? [= ->].
    + unfold diag_indices. by rewrite list_lookup_fmap, lookup_seq_lt.
  - apply position_None. unfold diag_indices.
    intros (k & [= -> ->] & Hk%elem_of_seq)%list_elem_of_fmap.
    apply H. lia.
Qed.

Section tril_spec.

Variable F : Type.
Variable zero : F.
Variable fmul : F → F → F.
Variable fsum : list F → F.
Variable fexp flog : F → F.
Variable linalg_cholesky : arr2 F → result (arr2 F).

Local Abbreviation at_set2 := (at_set2 F).
Local Abbreviation cholesky_factor := (cholesky_factor F zero fexp).
Local Abbreviation extract_tril_cholesky :=
  (extract_tril_cholesky F flog linalg_cholesky).

(** What [at_set2] leaves at a position. *)
Lemma at_set2_entries (a : arr2 F) (ixs : list (nat * nat))
    (values : arr1 F) :
  len1 values = length ixs →
  NoDup ixs →
  ∃ b, at_set2 a ixs values = ok b
       ∧ sh2 b = sh2 a
       ∧ (∀ k i j, ixs !! k = Some (i, j) → elt2 b i j = elt1 values k)
       ∧ (∀ i j, (i, j) ∉ ixs → elt2 b i j = elt2 a i j).
Proof.
  intros Hlen Hnd. unfold Util.at_set2.
  rewrite bool_decide_eq_true_2 by (by left).
  eexists. split; [done|]. split; [done|]. simpl. split.
  - intros k i j Hk. rewrite (position_lookup ixs k) by done.
    f_equal. unfold bidx. case_bool_decide as H1; [|done].
    apply lookup_lt_Some in Hk. lia.
  - intros i j Hnot. by rewrite position_None.
Qed.

(** The factor that [expand_tril_cholesky] builds from a flat form of
    the right length. *)
Lemma cholesky_factor_entries (c : arr1 F) (n : nat) :
  len1 c = n + n * (n - 1) / 2 →
  ∃ L, cholesky_factor c n = ok L
       ∧ sh2 L = (n, n)
       ∧ ∀ i j, i < n → j < n →
           elt2 L i j =
             if bool_decide (i = j) then fexp (elt1 c i)
             else if bool_decide (j < i)
                  then elt1 c (n + i * (i - 1) / 2 + j)
                  else zero.
Proof.
  intros Hlen. unfold Util.cholesky_factor.
  rewrite tril_indices_below.
  destruct (at_set2_entries (full (n, n) zero) (triangle id n)
              (slice_from F n c)) as (L0 & -> & Hsh0 & Hin0 & Hout0).
  { simpl. rewrite length_triangle, triangle_offset_below. lia. }
  { apply NoDup_triangle. }
  simpl.
  destruct (at_set2_entries L0 (diag_indices n)
              (map1d F fexp (slice_to F n c))) as (L & -> & Hsh & Hin & Hout).
  { simpl. unfold diag_indices. rewrite length_fmap, length_seq. lia. }
  { apply NoDup_fmap_2; [|apply NoDup_seq]. by intros ?? [= ->]. }
  exists L. split; [done|]. split; [by rewrite Hsh, Hsh0|].
  intros i j Hi Hj. case_bool_decide as Hd.
  - subst j. rewrite (Hin i i i).
    + done.
    + unfold diag_indices. by rewrite list_lookup_fmap, lookup_seq_lt.
  - rewrite Hout; last first.
    { unfold diag_indices.
      intros (k & [= -> ->] & _)%list_elem_of_fmap. done. }
    case_bool_decide as Hlow.
    + rewrite (Hin0 (triangle_offset id i + j) i j).
      * unfold slice_from. cbn [elt1]. rewrite triangle_offset_below.
        f_equal. apply Nat.add_assoc.
      * apply triangle_lookup; [done|]. unfold id. done.
    + rewrite Hout0; [done|]. rewrite elem_of_triangle. unfold id. lia.
Qed.

(** The flat form that [extract_tril_cholesky] writes. *)
Lemma extract_tril_cholesky_entries (A L : arr2 F) (n : nat) :
  linalg_cholesky A = ok L →
  sh2 L = (n, n) →
  ∃ v, extract_tril_cholesky A = ok v
       ∧ len1 v = n + n * (n - 1) / 2
       ∧ (∀ i, i < n → elt1 v i = flog (elt2 L i i))
       ∧ (∀ i j, j < i → i < n →
            elt1 v (n + i * (i - 1) / 2 + j) = elt2 L i j).
Proof.
  intros HL Hsh. unfold Util.extract_tril_cholesky. rewrite HL. simpl.
  rewrite Hsh. simpl. rewrite tril_indices_below.
  eexists. split; [done|]. unfold concatenate, map1d, gather2.
  cbn [len1 elt1].
  assert (length (diag_indices n) = n) as Hdiag
    by (unfold diag_indices; by rewrite length_fmap, length_seq).
  rewrite Hdiag, length_triangle, triangle_offset_below.
  split; [done|]. split.
  - intros i Hi. rewrite bool_decide_eq_true_2 by done.
    unfold diag_indices. rewrite list_lookup_fmap, lookup_seq_lt by done.
    simpl. rewrite Hsh. simpl. by rewrite !Nat.min_l by lia.
  - intros i j Hj Hi. rewrite bool_decide_eq_false_2 by lia.
    replace (n + i * (i - 1) / 2 + j - n) with (triangle_offset id i + j)
      by (rewrite triangle_offset_below; generalize (i * (i - 1) / 2); lia).
    rewrite triangle_lookup by (unfold id; lia).
    rewrite Hsh. simpl. by rewrite !Nat.min_l by lia.
Qed.

End tril_spec.

(** X10: [expand_tril] of [n(n+1)/2] values is the [n × n] matrix that
    holds value [i(i+1)/2 + j] at row [i], column [j ≤ i], and zero above
    the diagonal. *)
Theorem expand_tril_entries (F : Type) (zero : F) (tril_values : arr1 F)
    (n : nat) :
  len1 tril_values = n * (n + 1) / 2 →
  ∃ M, expand_tril F zero tril_values n = ok M
       ∧ sh2 M = (n, n)
       ∧ ∀ i j, i < n → j < n →
           elt2 M i j =
             if bool_decide (j ≤ i)
             then elt1 tril_values (i * (i + 1) / 2 + j)
             else zero.
Proof.
  intros Hlen. unfold expand_tril. rewrite tril_indices_main.
  destruct (at_set2_entries F (full (n, n) zero) (triangle S n) tril_values)
    as (M & -> & Hsh & Hin & Hout).
  { by rewrite length_triangle, triangle_offset_main. }
  { apply NoDup_triangle. }
  exists M. split; [done|]. split; [done|]. intros i j Hi Hj.
  case_bool_decide as Hlow.
  - rewrite (Hin (triangle_offset S i + j) i j).
    + by rewrite triangle_offset_main.
    + apply triangle_lookup; lia.
  - rewrite Hout; [done|]. rewrite elem_of_triangle. lia.
Qed.

Lemma expand_tril_entries_witness :
  ∃ M, expand_tril Z 0%Z (Arr1 3 (λ k, Z.of_nat k + 5)%Z) 2 = ok M
       ∧ sh2 M = (2, 2)
       ∧ elt2 M 0 0 = 5%Z ∧ elt2 M 0 1 = 0%Z
       ∧ elt2 M 1 0 = 6%Z ∧ elt2 M 1 1 = 7%Z.
Proof.
  destruct (expand_tril_entries Z 0%Z (Arr1 3 (λ k, Z.of_nat k + 5)%Z) 2)
    as (M & Hrun & Hsh & Hent); [reflexivity|].
  exists M. split; [exact Hrun|]. split; [exact Hsh|].
  rewrite !Hent by lia. repeat split; reflexivity.
Defined.



(** X12: [expand_tril_cholesky] of a flat form of [n + n(n-1)/2] values
    multiplies a factor with its transpose; the factor has the
    exponentials of the first [n] values on its diagonal, value
    [n + i(i-1)/2 + j] at row [i], column [j < i], and zero above. *)
Theorem expand_tril_cholesky_entries (F : Type) (zero : F)
    (fmul : F → F → F) (fsum : list F → F) (fexp : F → F)
    (cholesky : arr1 F) (n : nat) :
  len1 cholesky = n + n * (n - 1) / 2 →
  ∃ L pd,
    cholesky_factor F zero fexp cholesky n = ok L
    ∧ expand_tril_cholesky F zero fmul fsum fexp cholesky n = ok pd
    ∧ sh2 pd = (n, n)
    ∧ (∀ i j, elt2 pd i j
              = fsum ((λ k, fmul (elt2 L i k) (elt2 L j k)) <$> seq 0 n))
    ∧ ∀ i j, i < n → j < n →
        elt2 L i j =
          if bool_decide (i = j) then fexp (elt1 cholesky i)
          else if bool_decide (j < i)
               then elt1 cholesky (n + i * (i - 1) / 2 + j)
               else zero.
Proof.
  intros Hlen.
  destruct (cholesky_factor_entries F zero fexp cholesky n Hlen)
    as (L & HL & Hsh & Hent).
  exists L. unfold expand_tril_cholesky. rewrite HL. simpl.
  unfold matmul, swapaxes. simpl. rewrite Hsh. simpl.
  rewrite bool_decide_eq_true_2 by done.
  eexists. split; [done|]. split; [done|]. split; [done|].
  split; [done|]. exact Hent.
Qed.

Lemma expand_tril_cholesky_entries_witness :
  ∃ pd, expand_tril_cholesky Z 0%Z Z.mul (foldr Z.add 0%Z) (λ x, x + 1)%Z
          (Arr1 3 (λ k, Z.of_nat k + 1)%Z) 2 = ok pd
        ∧ elt2 pd 0 0 = 4%Z ∧ elt2 pd 1 0 = 6%Z ∧ elt2 pd 1 1 = 18%Z.
Proof.
  destruct (expand_tril_cholesky_entries Z 0%Z Z.mul (foldr Z.add 0%Z)
              (λ x, x + 1)%Z (Arr1 3 (λ k, Z.of_nat k + 1)%Z) 2)
    as (L & pd & _ & Hrun & _ & Hpd & Hent); [reflexivity|].
  exists pd. split; [exact Hrun|].
  rewrite !Hpd. simpl. rewrite !Hent by lia. repeat split; reflexivity.
Defined.

(** X13: [extract_tril_cholesky] writes the logarithms of the diagonal of
    the Cholesky factor first and then its entries below the diagonal,
    row by row: entry (i, j), j < i, stands at [n + i(i-1)/2 + j]. *)
Theorem extract_tril_cholesky_layout (F : Type) (flog : F → F)
    (linalg_cholesky : arr2 F → result (arr2 F)) (A L : arr2 F) (n : nat) :
  linalg_cholesky A = ok L →
  sh2 L = (n, n) →
  ∃ v, extract_tril_cholesky F flog linalg_cholesky A = ok v
       ∧ len1 v = n + n * (n - 1) / 2
       ∧ (∀ i, i < n → elt1 v i = flog (elt2 L i i))
       ∧ (∀ i j, j < i → i < n →
            elt1 v (n + i * (i - 1) / 2 + j) = elt2 L i j).
Proof. apply extract_tril_cholesky_entries. Qed.

Lemma extract_tril_cholesky_layout_witness :
  let L := Arr2 (2, 2) (λ i j, Z.of_nat (10 * i + j)) in
  ∃ v, extract_tril_cholesky Z Z.opp (λ _, ok L) L = ok v
       ∧ len1 v = 3
       ∧ elt1 v 0 = 0%Z ∧ elt1 v 1 = (-11)%Z ∧ elt1 v 2 = 10%Z.
Proof.
  intros L.
  destruct (extract_tril_cholesky_layout Z Z.opp (λ _, ok L) L L 2)
    as (v & Hrun & Hlen & Hdiag & Hlow); [reflexivity | reflexivity |].
  exists v. split; [exact Hrun|]. split; [exact Hlen|].
  rewrite (Hdiag 0), (Hdiag 1) by lia.
  pose proof (Hlow 1 0) as H10. simpl in H10. rewrite H10 by lia.
  repeat split; reflexivity.
Defined.

(** X14: the two flat forms agree: the factor that
    [expand_tril_cholesky] builds from what [extract_tril_cholesky]
    returns has the entries of the Cholesky factor below the diagonal,
    the exponential of the logarithm of its diagonal, and zero above. *)
Theorem extract_then_cholesky_factor (F : Type) (zero : F)
    (fexp flog : F → F) (linalg_cholesky : arr2 F → result (arr2 F))
    (A L : arr2 F) (n : nat) :
  linalg_cholesky A = ok L →
  sh2 L = (n, n) →
  ∃ v L',
    extract_tril_cholesky F flog linalg_cholesky A = ok v
    ∧ cholesky_factor F zero fexp v n = ok L'
    ∧ sh2 L' = (n, n)
    ∧ ∀ i j, i < n → j < n →
        elt2 L' i j =
          if bool_decide (i = j) then fexp (flog (elt2 L i i))
          else if bool_decide (j < i) then elt2 L i j
               else zero.
Proof.
  intros HL Hsh.
  destruct (extract_tril_cholesky_entries F flog linalg_cholesky A L n HL Hsh)
    as (v & Hv & Hlen & Hdiag & Hlow).
  destruct (cholesky_factor_entries F zero fexp v n Hlen)
    as (L' & HL' & Hsh' & Hent).
  exists v, L'. split; [done|]. split; [done|]. split; [done|].
  intros i j Hi Hj. rewrite Hent by done.
  case_bool_decide; [by rewrite Hdiag|].
  case_bool_decide; [by rewrite Hlow|done].
Qed.

Lemma extract_then_cholesky_factor_witness :
  let L := Arr2 (2, 2) (λ i j, Z.of_nat (10 * i + j)) in
  ∃ v L',
    extract_tril_cholesky Z Z.opp (λ _, ok L) L = ok v
    ∧ cholesky_factor Z 0%Z Z.opp v 2 = ok L'
    ∧ elt2 L' 0 0 = 0%Z ∧ elt2 L' 0 1 = 0%Z
    ∧ elt2 L' 1 0 = 10%Z ∧ elt2 L' 1 1 = 11%Z.
Proof.
  intros L.
  destruct (extract_then_cholesky_factor Z 0%Z Z.opp Z.opp (λ _, ok L) L L 2)
    as (v & L' & Hv & HL' & _ & Hent); [reflexivity | reflexivity |].
  exists v, L'. split; [exact Hv|]. split; [exact HL'|].
  rewrite !Hent by lia. repeat split; reflexivity.
Defined.

End UtilMore.

(** ** Parameter scans: the derived configs, ragged grids, and reading
    back what was saved *)

Module ScansMore.
Import Scans ScansSpec.
Local Open Scope list_scope.
Local Open Scope nat_scope.

(** *** Dicts *)

Lemma dict_lookup_setitem {V} (d : pydict V) (k k' : string) (v : V) :
  dict_lookup (dict_setitem d k v) k'
  = if bool_decide (k = k') then Some v else dict_lookup d k'.
Proof.
  induction d as [|[k0 v0] d IH]; simpl.
  - done.
  - destruct (decide (k0 = k)) as [->|Hne].
    + rewrite bool_decide_eq_true_2 by done. simpl.
      by case_bool_decide.
    + rewrite bool_decide_eq_false_2 by done. simpl. rewrite IH.
      case_bool_decide as H1; [|done]. subst k'.
      by rewrite bool_decide_eq_false_2.
Qed.

Lemma dict_lookup_not_key {V} (d : pydict V) (k : string) :
  k ∉ dict_keys d → dict_lookup d k = None.
Proof.
  induction d as [|[k0 v0] d IH]; intros Hk; simpl; [done|].
  apply not_elem_of_cons in Hk as [Hne Hk].
  rewrite bool_decide_eq_false_2 by done. by apply IH.
Qed.

(** [{**d0, **items}] *)
Lemma dict_lookup_foldl_setitem {V} (items d0 : pydict V) (k : string) :
  NoDup (dict_keys items) →
  dict_lookup (foldl (λ d kv, dict_setitem d kv.1 kv.2) d0 items) k
  = match dict_lookup items k with
    | Some v => Some v
    | None => dict_lookup d0 k
    end.
Proof.
  revert d0. induction items as [|[k1 v1] items IH]; intros d0 Hnd; [done|].
  apply NoDup_cons in Hnd as [Hk1 Hnd]. simpl.
  rewrite IH by done. rewrite dict_lookup_setitem.
  case_bool_decide as Hk; [|done]. subst k.
  by rewrite dict_lookup_not_key.
Qed.

(** *** Value lists of different lengths *)

Lemma model_overrides_at_ge (i n : nat) (grid acc : pydict yaml) :
  lists_at_least n grid → i < n →
  NoDup (dict_keys acc ++ dict_keys grid) →
  model_overrides_at i grid acc = ok (acc ++ column_at i grid).
Proof.
  intros Hlists Hi. revert acc.
  induction Hlists as [|[k v] grid (vals & Hv & Hlen) _ IH]; intros acc Hnd.
  - simpl. by rewrite app_nil_r.
  - simpl in Hv. subst v.
    destruct (lookup_lt_is_Some_2 vals i) as [x Hx]; [lia|].
    rewrite (column_at_cons i k vals x) by done.
    cbn [model_overrides_at py_index]. rewrite Hx. simpl.
    simpl in Hnd. apply NoDup_app in Hnd as (Hacc & Hdisj & Hgrid).
    apply NoDup_cons in Hgrid as [Hk Hgrid].
    rewrite dict_setitem_fresh; last first.
    { intros Hin. apply (Hdisj _ Hin). by left. }
    rewrite IH.
    + by rewrite <- app_assoc.
    + rewrite dict_keys_app. simpl. rewrite <- app_assoc. simpl.
      apply NoDup_app. split; [done|]. split; [|by apply NoDup_cons].
      intros y Hy. by apply Hdisj.
Qed.

Lemma models_mapping_ge (fmt : name_fmt) (name : string) (nm : nat → string)
    (n : nat) (grid : pydict yaml) (todo : list nat) (acc : pydict yaml) :
  (∀ i, i ∈ todo → call_name_fmt fmt name i = ok (nm i)) →
  (∀ i, i ∈ todo → i < n) →
  NoDup (dict_keys acc ++ (nm <$> todo)) →
  NoDup (dict_keys grid) →
  lists_at_least n grid →
  models_mapping fmt name grid todo acc
  = ok (acc ++ ((λ i, (nm i, YDict (column_at i grid))) <$> todo)).
Proof.
  intros Hfmt Hlt Hnd Hgrid Hlists. revert acc Hnd.
  induction todo as [|i todo IH]; intros acc Hnd; simpl.
  - by rewrite app_nil_r.
  - rewrite Hfmt by left. simpl.
    rewrite (model_overrides_at_ge i n) by (done || apply Hlt; left). simpl.
    simpl in Hnd. apply NoDup_app in Hnd as (Hacc & Hdisj & Htodo).
    apply NoDup_cons in Htodo as [Hi Htodo].
    rewrite dict_setitem_fresh; last first.
    { intros Hin. apply (Hdisj _ Hin). by left. }
    rewrite IH.
    + by rewrite <- app_assoc.
    + intros j Hj. apply Hfmt. by right.
    + intros j Hj. apply Hlt. by right.
    + rewrite dict_keys_app. simpl. rewrite <- app_assoc. simpl.
      apply NoDup_app. split; [done|]. split; [|by apply NoDup_cons].
      intros y Hy. by apply Hdisj.
Qed.

Lemma lookup_column_at_ge (i n : nat) (grid : pydict yaml) p vals :
  lists_at_least n grid → i < n →
  dict_lookup grid p = Some (YList vals) →
  dict_lookup (column_at i grid) p = vals !! i.
Proof.
  intros Hlists Hi.
  induction Hlists as [|[k v] grid (vals' & Hv & Hlen) _ IH]; [done|].
  simpl in Hv. subst v.
  destruct (lookup_lt_is_Some_2 vals' i) as [x Hx]; [lia|].
  rewrite (column_at_cons i k vals' x) by done. simpl.
  case_bool_decide; [by intros [= <-] | apply IH].
Qed.

(** On a grid of lists, building the overrides of a model fails with an
    index error or not at all, and it fails when a list is too short. *)
Lemma model_overrides_at_lists (i : nat) (grid acc : pydict yaml) :
  Forall (λ kv, ∃ vals, kv.2 = YList vals) grid →
  (model_overrides_at i grid acc
   = raise (IndexError "list index out of range")
   ∨ ∃ r, model_overrides_at i grid acc = ok r)
  ∧ (Exists (λ kv, ∃ vals, kv.2 = YList vals ∧ length vals ≤ i) grid →
     model_overrides_at i grid acc
     = raise (IndexError "list index out of range")).
Proof.
  intros Hlists. revert acc.
  induction Hlists as [|[k v] grid (vals & Hv) _ IH]; intros acc.
  - split; [right; by eexists|]. by intros ?%Exists_nil.
  - simpl in Hv. subst v. cbn [model_overrides_at py_index].
    destruct (vals !! i) as [x|] eqn:Hx; simpl.
    + destruct (IH (dict_setitem acc k x)) as [H1 H2]. split; [done|].
      intros [(vals' & [= <-] & Hlen)|Hex]%Exists_cons; [|by apply H2].
      apply lookup_lt_Some in Hx. lia.
    + split; [by left|done].
Qed.

Lemma models_mapping_short (pieces : list piece) (name : string)
    (grid : pydict yaml) (todo : list nat) (acc : pydict yaml) :
  Forall (λ kv, ∃ vals, kv.2 = YList vals) grid →
  Exists (λ i, Exists (λ kv, ∃ vals, kv.2 = YList vals ∧ length vals ≤ i)
                grid) todo →
  models_mapping (FmtString pieces) name grid todo acc
  = raise (IndexError "list index out of range").
Proof.
  intros Hlists. revert acc.
  induction todo as [|i todo IH]; intros acc Hex; [by apply Exists_nil in Hex|].
  simpl. destruct (model_overrides_at_lists i grid [] Hlists) as [Hdich Hbad].
  apply Exists_cons in Hex as [Hi|Hex].
  - by rewrite Hbad.
  - destruct Hdich as [->|[r ->]]; [done|]. simpl. by apply IH.
Qed.

(** *** Templates without a running index *)

Lemma str_format_no_index (pieces : list piece) (name : string) (i : nat) :
  FieldI ∉ pieces → str_format pieces name i = str_format pieces name 0.
Proof.
  intros Hno. unfold str_format. f_equal. apply list_fmap_ext.
  intros k p Hp. destruct p; try done. exfalso. apply Hno.
  by eapply list_elem_of_lookup_2.
Qed.

Lemma models_mapping_constant (pieces : list piece) (name : string)
    (n : nat) (grid : pydict yaml) (todo : list nat) (acc : pydict yaml) :
  FieldI ∉ pieces →
  (∀ i, i ∈ todo → i < n) →
  NoDup (dict_keys grid) →
  lists_of_length n grid →
  (acc = [] ∨ ∃ v, acc = [(str_format pieces name 0, v)]) →
  models_mapping (FmtString pieces) name grid todo acc
  = ok (match last todo with
        | Some i => [(str_format pieces name 0, YDict (column_at i grid))]
        | None => acc
        end).
Proof.
  intros Hno Hlt Hgrid Hlists. revert acc.
  induction todo as [|i todo IH]; intros acc Hacc; [done|].
  cbn [models_mapping call_name_fmt]. simpl.
  rewrite (model_overrides_at_ok i n) by (done || apply Hlt; left). simpl.
  rewrite str_format_no_index by done.
  set (nm := str_format pieces name 0).
  assert (dict_setitem acc nm (YDict (column_at i grid))
          = [(nm, YDict (column_at i grid))]) as ->.
  { destruct Hacc as [->|[v ->]]; simpl; [done|].
    by rewrite bool_decide_eq_true_2. }
  rewrite IH.
  - destruct todo as [|t todo']; [done|].
    change (last (i :: t :: todo')) with (last (t :: todo')).
    destruct (last (t :: todo')) eqn:E; [done|].
    by apply last_None in E.
  - intros j Hj. apply Hlt. by right.
  - right. by eexists.
Qed.

Section scans_more.

Variable W : Type.
Variable mkdir : string → bool → M W unit.
Variable load_model_config : string → M W yaml.
Variable save_config : string → yaml → M W unit.
Variable save_model_config : string → yaml → M W unit.
Variable flatten : yaml → pydict yaml.
Variable deepen : pydict yaml → yaml.
Variable recursive_update : yaml → yaml → yaml.
Variable split_defaults : yaml.
Variable path_parent : string → string.
Variable load_config : string → M W yaml.

Local Abbreviation setup_scan_config :=
  (setup_scan_config W mkdir load_model_config save_config save_model_config
     flatten deepen recursive_update split_defaults).

(** One run of [setup_scan_config] to its end: the two documents and
    where they are saved. *)
Lemma setup_scan_config_run project name scan_params sco fmt mo
    (n : nat) (grid models : pydict yaml) (base fit fit_type : yaml)
    (items : pydict yaml) (w w1 : W) :
  flatten scan_params = grid →
  count_models grid = ok n →
  models_mapping fmt name grid (seq 0 n) [] = ok models →
  load_model_config (base_model_config project) w = (w1, ok base) →
  yaml_getitem (recursive_update base (deepen mo)) "fit" = ok fit →
  yaml_getitem fit "type" = ok fit_type →
  is_standard fit_type = true →
  recursive_update split_defaults (deepen sco) = YDict items →
  (∀ p b, succeeds W (mkdir p b)) →
  (∀ p c, succeeds W (save_config p c)) →
  (∀ p c, succeeds W (save_model_config p c)) →
  ∃ mc w3 w4 w',
    recursive_update base (deepen mo) = YDict mc
    ∧ save_config (scan project name /: "scan.yml")
        (YDict [("models", YDict models)]) w3 = (w4, ok tt)
    ∧ save_model_config (scan project name /: "base_model.yml")
        (YDict (dict_setitem mc "fit"
           (YDict (dict_setitem
              (foldl (λ d kv, dict_setitem d kv.1 kv.2)
                     [("type", YStr "split")] items) "em" fit)))) w4
      = (w', ok tt)
    ∧ setup_scan_config project name scan_params sco fmt mo w
      = (w', ok (YDict [("models", YDict models)],
                 YDict (dict_setitem mc "fit"
                   (YDict (dict_setitem
                      (foldl (λ d kv, dict_setitem d kv.1 kv.2)
                             [("type", YStr "split")] items) "em" fit))))).
Proof.
  intros Hflat Hcount Hmodels Hload Hfit Htype Hstd Hitems Hmk Hsc Hsm.
  assert (∃ mc, recursive_update base (deepen mo) = YDict mc) as [mc Hmc].
  { destruct (recursive_update base (deepen mo)); try done. by eexists. }
  destruct (ensure_dirs_succeeds W mkdir project Hmk w1) as [w2 Hw2].
  destruct (Hmk (scan project name) false w2) as [w3 Hw3].
  destruct (Hsc (scan project name /: "scan.yml")
              (YDict [("models", YDict models)]) w3) as [w4 Hw4].
  destruct (Hsm (scan project name /: "base_model.yml")
              (YDict (dict_setitem mc "fit"
                 (YDict (dict_setitem
                    (foldl (λ d kv, dict_setitem d kv.1 kv.2)
                           [("type", YStr "split")] items) "em" fit)))) w4)
    as [w5 Hw5].
  exists mc, w3, w4, w5. split; [done|]. split; [done|]. split; [done|].
  unfold Scans.setup_scan_config. rewrite Hflat.
  cbv [mbind M_bind mbind' mlift]. rewrite Hcount.
  unfold ok in *. cbv beta iota.
  rewrite Hmodels, Hload. cbv beta iota.
  rewrite Hfit, Htype, Hstd, Hitems, Hmc.
  cbn [split_fit_config yaml_setitem]. unfold ok. cbv beta iota.
  rewrite Hw2, Hw3.
  change (dict_setitem scan_cfg_structure "models" (YDict models))
    with [("models", YDict models)].
  rewrite Hw4, Hw5. done.
Qed.

End scans_more.

(** X15: the model config that [setup_scan_config] returns is the base
    config (after the overrides) with its [fit] section replaced: the old
    section sits under [em], the other keys are those of the scan config,
    and [type] is [split] unless the scan config has a [type] of its own,
    which then wins. *)
Theorem setup_scan_config_derived_fit (W : Type)
    (mkdir : string → bool → M W unit)
    (load_model_config : string → M W yaml)
    (save_config save_model_config : string → yaml → M W unit)
    (flatten : yaml → pydict yaml) (deepen : pydict yaml → yaml)
    (recursive_update : yaml → yaml → yaml) (split_defaults : yaml)
    (project : Project) (name : string) (scan_params : yaml)
    (scan_config_overrides model_overrides : pydict yaml)
    (pieces : list piece) (n : nat) (grid items : pydict yaml)
    (base fit fit_type : yaml) (w w1 : W) :
  flatten scan_params = grid →
  grid ≠ [] →
  NoDup (dict_keys grid) →
  lists_of_length n grid →
  load_model_config (base_model_config project) w = (w1, ok base) →
  yaml_getitem (recursive_update base (deepen model_overrides)) "fit" = ok fit →
  yaml_getitem fit "type" = ok fit_type →
  is_standard fit_type = true →
  recursive_update split_defaults (deepen scan_config_overrides)
    = YDict items →
  NoDup (dict_keys items) →
  (∀ p b, succeeds W (mkdir p b)) →
  (∀ p c, succeeds W (save_config p c)) →
  (∀ p c, succeeds W (save_model_config p c)) →
  ∃ w' config derived new_fit,
    setup_scan_config W mkdir load_model_config save_config save_model_config
      flatten deepen recursive_update split_defaults
      project name scan_params scan_config_overrides
      (FmtString pieces) model_overrides w
    = (w', ok (config, derived))
    ∧ yaml_getitem derived "fit" = ok (YDict new_fit)
    ∧ dict_lookup new_fit "em" = Some fit
    ∧ dict_lookup new_fit "type"
      = Some (default (YStr "split") (dict_lookup items "type"))
    ∧ (∀ k, k ≠ "em" → k ≠ "type" →
         dict_lookup new_fit k = dict_lookup items k)
    ∧ (∀ k, k ≠ "fit" →
         yaml_getitem derived k
         = yaml_getitem (recursive_update base (deepen model_overrides)) k).
Proof.
  intros Hflat Hne Hnd Hlists Hload Hfit Htype Hstd Hitems Hndi Hmk Hsc Hsm.
  destruct (models_mapping_total pieces name n grid (seq 0 n) [])
    as [models Hmodels]; try done.
  { intros i Hi. apply elem_of_seq in Hi. lia. }
  destruct (setup_scan_config_run W mkdir load_model_config save_config
              save_model_config flatten deepen recursive_update split_defaults
              project name scan_params scan_config_overrides
              (FmtString pieces) model_overrides n grid models base fit
              fit_type items w w1)
    as (mc & w3 & w4 & w' & Hmc & _ & _ & Hrun); try done.
  { by apply count_models_ok. }
  eexists w', _, _, _. split; [exact Hrun|].
  split; [|split; [|split; [|split]]].
  - unfold yaml_getitem, dict_getitem. rewrite dict_lookup_setitem.
    by rewrite bool_decide_eq_true_2.
  - rewrite dict_lookup_setitem. by rewrite bool_decide_eq_true_2.
  - rewrite dict_lookup_setitem.
    rewrite bool_decide_eq_false_2 by discriminate.
    rewrite dict_lookup_foldl_setitem by done.
    by destruct (dict_lookup items "type").
  - intros k Hem Hty. rewrite dict_lookup_setitem.
    rewrite bool_decide_eq_false_2 by done.
    rewrite dict_lookup_foldl_setitem by done.
    destruct (dict_lookup items k); [done|]. simpl.
    by rewrite bool_decide_eq_false_2.
  - intros k Hk. rewrite Hmc. unfold yaml_getitem, dict_getitem.
    rewrite dict_lookup_setitem. by rewrite bool_decide_eq_false_2.
Qed.

Lemma setup_scan_config_derived_fit_witness :
  let flatten := λ y, match y with YDict d => d | _ => [] end in
  let base := YDict [("dataset", YStr "d");
                     ("fit", YDict [("type", YStr "standard")])] in
  let grid := [("fit.n_steps", YList [YInt 10; YInt 20])] in
  ∃ w' config,
    setup_scan_config unit (λ _ _, mret tt) (λ _, mret base)
      (λ _ _, mret tt) (λ _ _, mret tt) flatten YDict (λ a _, a)
      (YDict [("split_count", YInt 2)])
      (MkProject "proj") "scan" (YDict grid) [] default_model_name_fmt [] tt
    = (w', ok (config,
         YDict [("dataset", YStr "d");
                ("fit", YDict [("type", YStr "split");
                               ("split_count", YInt 2);
                               ("em", YDict [("type", YStr "standard")])])])).
Proof.
  intros flatten base grid.
  destruct (setup_scan_config_derived_fit unit (λ _ _, mret tt)
              (λ _, mret base) (λ _ _, mret tt) (λ _ _, mret tt) flatten YDict
              (λ a _, a) (YDict [("split_count", YInt 2)])
              (MkProject "proj") "scan" (YDict grid) [] []
              [FieldScanName; Lit "_"; FieldI] 2 grid
              [("split_count", YInt 2)] base
              (YDict [("type", YStr "standard")]) (YStr "standard") tt tt)
    as (w' & config & derived & new_fit & Hrun & _).
  - reflexivity.
  - discriminate.
  - apply NoDup_singleton.
  - repeat constructor; eexists; (split; [reflexivity | reflexivity]).
  - reflexivity.
  - reflexivity.
  - reflexivity.
  - reflexivity.
  - reflexivity.
  - apply NoDup_singleton.
  - intros p b w. exists w. reflexivity.
  - intros p c w. exists w. reflexivity.
  - intros p c w. exists w. reflexivity.
  - pose proof Hrun as Hc. vm_compute in Hc. injection Hc as _ _ Hder.
    exists w', config. rewrite <- Hder in Hrun. exact Hrun.
Defined.

(** X16: the model config that [setup_scan_config] saves is the one
    [_resolve_model_config] loads for the scan, on a file system where a
    saved model config is read back. *)
Theorem setup_scan_config_then_resolve (W : Type)
    (mkdir : string → bool → M W unit)
    (load_model_config : string → M W yaml)
    (save_config save_model_config : string → yaml → M W unit)
    (flatten : yaml → pydict yaml) (deepen : pydict yaml → yaml)
    (recursive_update : yaml → yaml → yaml) (split_defaults : yaml)
    (project : Project) (name : string) (scan_params : yaml)
    (scan_config_overrides model_overrides : pydict yaml)
    (pieces : list piece) (n : nat) (grid items : pydict yaml)
    (base fit fit_type : yaml) (w w1 : W) :
  flatten scan_params = grid →
  grid ≠ [] →
  NoDup (dict_keys grid) →
  lists_of_length n grid →
  load_model_config (base_model_config project) w = (w1, ok base) →
  yaml_getitem (recursive_update base (deepen model_overrides)) "fit" = ok fit →
  yaml_getitem fit "type" = ok fit_type →
  is_standard fit_type = true →
  recursive_update split_defaults (deepen scan_config_overrides)
    = YDict items →
  (∀ p b, succeeds W (mkdir p b)) →
  (∀ p c, succeeds W (save_config p c)) →
  (∀ p c, succeeds W (save_model_config p c)) →
  (∀ p c w w', save_model_config p c w = (w', ok tt) →
               load_model_config p w' = (w', ok c)) →
  ∃ w' config derived,
    setup_scan_config W mkdir load_model_config save_config save_model_config
      flatten deepen recursive_update split_defaults
      project name scan_params scan_config_overrides
      (FmtString pieces) model_overrides w
    = (w', ok (config, derived))
    ∧ ∀ model_name,
        _resolve_model_config W load_model_config (FromProject project)
          (Some name) model_name w'
        = (w', ok derived).
Proof.
  intros Hflat Hne Hnd Hlists Hload Hfit Htype Hstd Hitems Hmk Hsc Hsm Hrt.
  destruct (models_mapping_total pieces name n grid (seq 0 n) [])
    as [models Hmodels]; try done.
  { intros i Hi. apply elem_of_seq in Hi. lia. }
  destruct (setup_scan_config_run W mkdir load_model_config save_config
              save_model_config flatten deepen recursive_update split_defaults
              project name scan_params scan_config_overrides
              (FmtString pieces) model_overrides n grid models base fit
              fit_type items w w1)
    as (mc & w3 & w4 & w' & Hmc & _ & Hsaved & Hrun); try done.
  { by apply count_models_ok. }
  eexists w', _, _. split; [exact Hrun|].
  intros model_name. simpl. exact (Hrt _ _ _ _ Hsaved).
Qed.

Lemma setup_scan_config_then_resolve_witness :
  let flatten := λ y, match y with YDict d => d | _ => [] end in
  let load := λ (p : string) (w : pydict yaml),
    (w, match dict_lookup w p with
        | Some c => ok c
        | None => raise (OSError p)
        end) in
  let save := λ (p : string) (c : yaml) (w : pydict yaml),
    ((p, c) :: w, ok tt) in
  let base := YDict [("fit", YDict [("type", YStr "standard")])] in
  let grid := [("fit.n_steps", YList [YInt 10; YInt 20])] in
  ∃ w' config derived,
    setup_scan_config (pydict yaml) (λ _ _, mret tt) load save save
      flatten YDict (λ a _, a) (YDict [])
      (MkProject "proj") "scan" (YDict grid) [] default_model_name_fmt []
      [("proj/base_model.yml", base)]
    = (w', ok (config, derived))
    ∧ _resolve_model_config (pydict yaml) load (FromProject (MkProject "proj"))
        (Some "scan") None w'
      = (w', ok derived).
Proof.
  intros flatten load save base grid.
  destruct (setup_scan_config_then_resolve (pydict yaml) (λ _ _, mret tt)
              load save save flatten YDict (λ a _, a) (YDict [])
              (MkProject "proj") "scan" (YDict grid) [] []
              [FieldScanName; Lit "_"; FieldI] 2 grid [] base
              (YDict [("type", YStr "standard")]) (YStr "standard")
              [("proj/base_model.yml", base)] [("proj/base_model.yml", base)])
    as (w' & config & derived & Hrun & Hres).
  - reflexivity.
  - discriminate.
  - apply NoDup_singleton.
  - repeat constructor; eexists; (split; [reflexivity | reflexivity]).
  - reflexivity.
  - reflexivity.
  - reflexivity.
  - reflexivity.
  - reflexivity.
  - intros p b w. exists w. reflexivity.
  - intros p c w. eexists. reflexivity.
  - intros p c w. eexists. reflexivity.
  - intros p c w w' Hsave. injection Hsave as <-. unfold load. simpl.
    by rewrite bool_decide_eq_true_2.
  - exists w', config, derived. split; [exact Hrun | apply Hres].
Defined.

(** X17: the config that [create_model] writes for a model of a project
    is the one [_resolve_model_config] loads by the model's name; written
    to a path [dir/model.yml], it is the one loaded from the directory
    [dir]. *)
Theorem create_model_then_resolve (W : Type)
    (mkdir : string → bool → M W unit)
    (load_model_config : string → M W yaml)
    (save_model_config : string → yaml → M W unit)
    (deepen : pydict yaml → yaml) (recursive_update : yaml → yaml → yaml)
    (path_parent : string → string)
    (project : Project) (name dir : string) (config : yaml)
    (config_overrides : pydict yaml) (w : W) :
  (∀ p b, succeeds W (mkdir p b)) →
  (∀ p c, succeeds W (save_model_config p c)) →
  (∀ p c w w', save_model_config p c w = (w', ok tt) →
               load_model_config p w' = (w', ok c)) →
  let written := recursive_update config (deepen config_overrides) in
  (∃ w',
     create_model W mkdir load_model_config save_model_config deepen
       recursive_update path_parent (InProject project) (Some name)
       (Some (ConfigDict config)) config_overrides w
     = (w', ok (model project name, written))
     ∧ _resolve_model_config W load_model_config (FromProject project)
         None (Some name) w'
       = (w', ok written))
  ∧ (∃ w',
       create_model W mkdir load_model_config save_model_config deepen
         recursive_update path_parent (AtPath (dir /: "model.yml")) None
         (Some (ConfigDict config)) config_overrides w
       = (w', ok (path_parent (dir /: "model.yml"), written))
       ∧ _resolve_model_config W load_model_config (FromPath dir) None None w'
         = (w', ok written)).
Proof.
  intros Hmk Hsm Hrt written. split.
  - destruct (Hmk (model project name) false w) as [w1 Hw1].
    destruct (Hsm (model_config project name) written w1) as [w2 Hw2].
    exists w2. split; [|exact (Hrt _ _ _ _ Hw2)].
    unfold create_model.
    cbv [mbind M_bind mbind' mret M_ret ok]. fold written.
    by rewrite Hw1, Hw2.
  - destruct (Hmk (path_parent (dir /: "model.yml")) false w) as [w1 Hw1].
    destruct (Hsm (dir /: "model.yml") written w1) as [w2 Hw2].
    exists w2. split; [|exact (Hrt _ _ _ _ Hw2)].
    unfold create_model.
    cbv [mbind M_bind mbind' mret M_ret ok]. fold written.
    by rewrite Hw1, Hw2.
Qed.

Lemma create_model_then_resolve_witness :
  let load := λ (p : string) (w : pydict yaml),
    (w, match dict_lookup w p with
        | Some c => ok c
        | None => raise (OSError p)
        end) in
  let save := λ (p : string) (c : yaml) (w : pydict yaml),
    ((p, c) :: w, ok tt) in
  ∃ w',
    create_model (pydict yaml) (λ _ _, mret tt) load save YDict (λ a _, a)
      (λ p, p) (InProject (MkProject "proj")) (Some "m0")
      (Some (ConfigDict (YDict [("fit", YNull)]))) [] []
    = (w', ok ("proj/models/m0", YDict [("fit", YNull)]))
    ∧ _resolve_model_config (pydict yaml) load
        (FromProject (MkProject "proj")) None (Some "m0") w'
      = (w', ok (YDict [("fit", YNull)])).
Proof.
  intros load save.
  destruct (create_model_then_resolve (pydict yaml) (λ _ _, mret tt) load
              save YDict (λ a _, a) (λ p, p) (MkProject "proj") "m0" "d"
              (YDict [("fit", YNull)]) [] [])
    as [(w' & Hrun & Hres) _].
  - intros p b w. exists w. reflexivity.
  - intros p c w. eexists. reflexivity.
  - intros p c w w' Hsave. injection Hsave as <-. unfold load. simpl.
    by rewrite bool_decide_eq_true_2.
  - exists w'. split; [exact Hrun | exact Hres].
Defined.

(** X18: the number of models is the length of the first value list; a
    later list that is shorter makes [setup_scan_config] raise an index
    error before anything is loaded or saved. *)
Theorem setup_scan_config_short_list (W : Type)
    (mkdir : string → bool → M W unit)
    (load_model_config : string → M W yaml)
    (save_config save_model_config : string → yaml → M W unit)
    (flatten : yaml → pydict yaml) (deepen : pydict yaml → yaml)
    (recursive_update : yaml → yaml → yaml) (split_defaults : yaml)
    (project : Project) (name : string) (scan_params : yaml)
    (scan_config_overrides model_overrides : pydict yaml)
    (pieces : list piece) (k0 p : string) (v0 vals : list yaml)
    (rest : pydict yaml) (w : W) :
  flatten scan_params = (k0, YList v0) :: rest →
  Forall (λ kv, ∃ vals, kv.2 = YList vals) rest →
  (p, YList vals) ∈ rest →
  length vals < length v0 →
  setup_scan_config W mkdir load_model_config save_config save_model_config
    flatten deepen recursive_update split_defaults
    project name scan_params scan_config_overrides
    (FmtString pieces) model_overrides w
  = (w, raise (IndexError "list index out of range")).
Proof.
  intros Hflat Hlists Hin Hshort.
  unfold setup_scan_config. rewrite Hflat.
  cbv [mbind M_bind mbind' mlift].
  assert (count_models ((k0, YList v0) :: rest) = ok (length v0)) as ->.
  { unfold count_models, dict_getitem. simpl.
    by rewrite bool_decide_eq_true_2. }
  unfold ok. cbv beta iota.
  rewrite models_mapping_short; [done| |].
  - constructor; [by eexists|done].
  - apply Exists_exists. exists (length vals). split.
    + apply elem_of_seq. lia.
    + apply Exists_cons. right. apply Exists_exists.
      exists (p, YList vals). split; [done|]. by eexists.
Qed.

Lemma setup_scan_config_short_list_witness :
  let flatten := λ y, match y with YDict d => d | _ => [] end in
  let base := YDict [("fit", YDict [("type", YStr "standard")])] in
  let grid := [("fit.n_steps", YList [YInt 10; YInt 20; YInt 30]);
               ("fit.lr", YList [YInt 1; YInt 2])] in
  setup_scan_config unit (λ _ _, mret tt) (λ _, mret base)
    (λ _ _, mret tt) (λ _ _, mret tt) flatten YDict (λ a _, a) (YDict [])
    (MkProject "proj") "scan" (YDict grid) [] default_model_name_fmt [] tt
  = (tt, raise (IndexError "list index out of range")).
Proof.
  intros flatten base grid.
  apply (setup_scan_config_short_list unit (λ _ _, mret tt) (λ _, mret base)
           (λ _ _, mret tt) (λ _ _, mret tt) flatten YDict (λ a _, a)
           (YDict []) (MkProject "proj") "scan" (YDict grid) [] []
           [FieldScanName; Lit "_"; FieldI] "fit.n_steps" "fit.lr"
           [YInt 10; YInt 20; YInt 30] [YInt 1; YInt 2]
           [("fit.lr", YList [YInt 1; YInt 2])] tt).
  - reflexivity.
  - repeat constructor. by eexists.
  - by left.
  - simpl. lia.
Defined.

(** X19: with a name template that has no [{i}] field all models get the
    same name, and the mapping keeps one model: the one of the last
    column of the grid. *)
Theorem setup_scan_config_name_collision (W : Type)
    (mkdir : string → bool → M W unit)
    (load_model_config : string → M W yaml)
    (save_config save_model_config : string → yaml → M W unit)
    (flatten : yaml → pydict yaml) (deepen : pydict yaml → yaml)
    (recursive_update : yaml → yaml → yaml) (split_defaults : yaml)
    (project : Project) (name : string) (scan_params : yaml)
    (scan_config_overrides model_overrides : pydict yaml)
    (pieces : list piece) (n : nat) (grid items : pydict yaml)
    (base fit fit_type : yaml) (w w1 : W) :
  FieldI ∉ pieces →
  0 < n →
  flatten scan_params = grid →
  grid ≠ [] →
  NoDup (dict_keys grid) →
  lists_of_length n grid →
  load_model_config (base_model_config project) w = (w1, ok base) →
  yaml_getitem (recursive_update base (deepen model_overrides)) "fit" = ok fit →
  yaml_getitem fit "type" = ok fit_type →
  is_standard fit_type = true →
  recursive_update split_defaults (deepen scan_config_overrides)
    = YDict items →
  (∀ p b, succeeds W (mkdir p b)) →
  (∀ p c, succeeds W (save_config p c)) →
  (∀ p c, succeeds W (save_model_config p c)) →
  ∃ w' derived,
    setup_scan_config W mkdir load_model_config save_config save_model_config
      flatten deepen recursive_update split_defaults
      project name scan_params scan_config_overrides
      (FmtString pieces) model_overrides w
    = (w', ok (YDict [("models",
                       YDict [(str_format pieces name 0,
                               YDict (column_at (n - 1) grid))])],
               derived)).
Proof.
  intros Hno Hn Hflat Hne Hnd Hlists Hload Hfit Htype Hstd Hitems Hmk Hsc Hsm.
  assert (models_mapping (FmtString pieces) name grid (seq 0 n) []
          = ok [(str_format pieces name 0, YDict (column_at (n - 1) grid))])
    as Hmodels.
  { rewrite (models_mapping_constant pieces name n); try done.
    - destruct n as [|n']; [lia|]. rewrite seq_S, last_snoc. simpl.
      by rewrite Nat.sub_0_r.
    - intros i Hi. apply elem_of_seq in Hi. lia.
    - by left. }
  destruct (setup_scan_config_run W mkdir load_model_config save_config
              save_model_config flatten deepen recursive_update split_defaults
              project name scan_params scan_config_overrides
              (FmtString pieces) model_overrides n grid _ base fit
              fit_type items w w1 Hflat (count_models_ok grid n Hne Hlists)
              Hmodels Hload Hfit Htype Hstd Hitems Hmk Hsc Hsm)
    as (mc & w3 & w4 & w' & _ & _ & _ & Hrun).
  by eexists w', _.
Qed.

Lemma setup_scan_config_name_collision_witness :
  let flatten := λ y, match y with YDict d => d | _ => [] end in
  let base := YDict [("fit", YDict [("type", YStr "standard")])] in
  let grid := [("fit.n_steps", YList [YInt 10; YInt 20; YInt 30])] in
  ∃ w' derived,
    setup_scan_config unit (λ _ _, mret tt) (λ _, mret base)
      (λ _ _, mret tt) (λ _ _, mret tt) flatten YDict (λ a _, a) (YDict [])
      (MkProject "proj") "scan" (YDict grid) []
      (FmtString [FieldScanName; Lit "_model"]) [] tt
    = (w', ok (YDict [("models", YDict
         [("scan_model", YDict [("fit.n_steps", YInt 30)])])], derived)).
Proof.
  intros flatten base grid.
  destruct (setup_scan_config_name_collision unit (λ _ _, mret tt)
              (λ _, mret base) (λ _ _, mret tt) (λ _ _, mret tt) flatten YDict
              (λ a _, a) (YDict []) (MkProject "proj") "scan" (YDict grid)
              [] [] [FieldScanName; Lit "_model"] 3 grid [] base
              (YDict [("type", YStr "standard")]) (YStr "standard") tt tt)
    as (w' & derived & Hrun).
  - intros [H|H%list_elem_of_singleton]%elem_of_cons; discriminate.
  - lia.
  - reflexivity.
  - discriminate.
  - apply NoDup_singleton.
  - repeat constructor; eexists; (split; [reflexivity | reflexivity]).
  - reflexivity.
  - reflexivity.
  - reflexivity.
  - reflexivity.
  - reflexivity.
  - intros p b w. exists w. reflexivity.
  - intros p c w. exists w. reflexivity.
  - intros p c w. exists w. reflexivity.
  - exists w', derived. rewrite Hrun. reflexivity.
Defined.

(** X20: values past the length of the first list are ignored: with
    later lists at least as long as the first, there is one model per
    value of the first list, holding the values of its column. *)
Theorem setup_scan_config_longer_lists (W : Type)
    (mkdir : string → bool → M W unit)
    (load_model_config : string → M W yaml)
    (save_config save_model_config : string → yaml → M W unit)
    (flatten : yaml → pydict yaml) (deepen : pydict yaml → yaml)
    (recursive_update : yaml → yaml → yaml) (split_defaults : yaml)
    (project : Project) (name : string) (scan_params : yaml)
    (scan_config_overrides model_overrides : pydict yaml)
    (k0 : string) (v0 : list yaml) (rest items : pydict yaml)
    (base fit fit_type : yaml) (w w1 : W) :
  let grid := (k0, YList v0) :: rest in
  flatten scan_params = grid →
  NoDup (dict_keys grid) →
  lists_at_least (length v0) rest →
  load_model_config (base_model_config project) w = (w1, ok base) →
  yaml_getitem (recursive_update base (deepen model_overrides)) "fit" = ok fit →
  yaml_getitem fit "type" = ok fit_type →
  is_standard fit_type = true →
  recursive_update split_defaults (deepen scan_config_overrides)
    = YDict items →
  (∀ p b, succeeds W (mkdir p b)) →
  (∀ p c, succeeds W (save_config p c)) →
  (∀ p c, succeeds W (save_model_config p c)) →
  ∃ w' models derived,
    setup_scan_config W mkdir load_model_config save_config save_model_config
      flatten deepen recursive_update split_defaults
      project name scan_params scan_config_overrides
      default_model_name_fmt model_overrides w
    = (w', ok (YDict [("models", YDict models)], derived))
    ∧ models = (λ i, ((name ++ "_" ++ pretty i)%string,
                      YDict (column_at i grid))) <$> seq 0 (length v0)
    ∧ ∀ i q vals, i < length v0 →
        dict_lookup grid q = Some (YList vals) →
        dict_lookup (column_at i grid) q = vals !! i.
Proof.
  intros grid Hflat Hnd Hlists Hload Hfit Htype Hstd Hitems Hmk Hsc Hsm.
  assert (lists_at_least (length v0) grid) as Hall.
  { constructor; [|done]. by eexists. }
  set (nm := λ i : nat, (name ++ "_" ++ pretty i)%string).
  assert (models_mapping default_model_name_fmt name grid
            (seq 0 (length v0)) []
          = ok ([] ++ ((λ i, (nm i, YDict (column_at i grid)))
                       <$> seq 0 (length v0)))) as Hmodels.
  { apply (models_mapping_ge _ _ nm (length v0)); try done.
    - intros i Hi. apply elem_of_seq in Hi. lia.
    - apply (default_names_NoDup name), NoDup_seq. }
  simpl in Hmodels.
  assert (count_models grid = ok (length v0)) as Hcount.
  { unfold count_models, dict_getitem, grid. simpl.
    by rewrite bool_decide_eq_true_2. }
  destruct (setup_scan_config_run W mkdir load_model_config save_config
              save_model_config flatten deepen recursive_update split_defaults
              project name scan_params scan_config_overrides
              default_model_name_fmt model_overrides (length v0) grid _ base
              fit fit_type items w w1 Hflat Hcount Hmodels Hload Hfit Htype
              Hstd Hitems Hmk Hsc Hsm)
    as (mc & w3 & w4 & w' & _ & _ & _ & Hrun).
  eexists w', _, _. split; [exact Hrun|]. split; [done|].
  intros i q vals Hi Hq. by apply (lookup_column_at_ge i (length v0)).
Qed.

Lemma setup_scan_config_longer_lists_witness :
  let flatten := λ y, match y with YDict d => d | _ => [] end in
  let base := YDict [("fit", YDict [("type", YStr "standard")])] in
  let grid := [("fit.n_steps", YList [YInt 10; YInt 20]);
               ("fit.lr", YList [YInt 1; YInt 2; YInt 3])] in
  ∃ w' derived,
    setup_scan_config unit (λ _ _, mret tt) (λ _, mret base)
      (λ _ _, mret tt) (λ _ _, mret tt) flatten YDict (λ a _, a) (YDict [])
      (MkProject "proj") "scan" (YDict grid) [] default_model_name_fmt [] tt
    = (w', ok (YDict [("models", YDict
         [("scan_0", YDict [("fit.n_steps", YInt 10); ("fit.lr", YInt 1)]);
          ("scan_1", YDict [("fit.n_steps", YInt 20); ("fit.lr", YInt 2)])])],
        derived)).
Proof.
  intros flatten base grid.
  destruct (setup_scan_config_longer_lists unit (λ _ _, mret tt)
              (λ _, mret base) (λ _ _, mret tt) (λ _ _, mret tt) flatten YDict
              (λ a _, a) (YDict []) (MkProject "proj") "scan" (YDict grid)
              [] [] "fit.n_steps" [YInt 10; YInt 20]
              [("fit.lr", YList [YInt 1; YInt 2; YInt 3])] [] base
              (YDict [("type", YStr "standard")]) (YStr "standard") tt tt)
    as (w' & models & derived & Hrun & Hmodels & _).
  - reflexivity.
  - apply NoDup_cons. split; [|apply NoDup_singleton].
    intros H%list_elem_of_singleton. discriminate.
  - repeat constructor. eexists. split; [reflexivity|]. simpl. lia.
  - reflexivity.
  - reflexivity.
  - reflexivity.
  - reflexivity.
  - reflexivity.
  - intros p b w. exists w. reflexivity.
  - intros p c w. exists w. reflexivity.
  - intros p c w. exists w. reflexivity.
  - exists w', derived. rewrite Hrun, Hmodels. reflexivity.
Defined.

(** X21: after [setup_scan_config] with the default name template,
    [_resolve_scan_model_list] for the name of the scan returns the
    model names [<name>_0], [<name>_1], ... in the order of the grid, on a
    file system where the saved scan config is still read back after the
    model config has been saved to another path. *)
Theorem setup_scan_config_then_model_list (W : Type)
    (mkdir : string → bool → M W unit)
    (load_model_config : string → M W yaml)
    (save_config save_model_config : string → yaml → M W unit)
    (flatten : yaml → pydict yaml) (deepen : pydict yaml → yaml)
    (recursive_update : yaml → yaml → yaml) (split_defaults : yaml)
    (load_config : string → M W yaml)
    (project : Project) (name : string) (scan_params : yaml)
    (scan_config_overrides model_overrides : pydict yaml)
    (n : nat) (grid items : pydict yaml)
    (base fit fit_type : yaml) (w w1 : W) :
  flatten scan_params = grid →
  grid ≠ [] →
  NoDup (dict_keys grid) →
  lists_of_length n grid →
  load_model_config (base_model_config project) w = (w1, ok base) →
  yaml_getitem (recursive_update base (deepen model_overrides)) "fit" = ok fit →
  yaml_getitem fit "type" = ok fit_type →
  is_standard fit_type = true →
  recursive_update split_defaults (deepen scan_config_overrides)
    = YDict items →
  (∀ p b, succeeds W (mkdir p b)) →
  (∀ p c, succeeds W (save_config p c)) →
  (∀ p c, succeeds W (save_model_config p c)) →
  (∀ p q c c' w w1 w2, p ≠ q →
     save_config p c w = (w1, ok tt) →
     save_model_config q c' w1 = (w2, ok tt) →
     load_config p w2 = (w2, ok c)) →
  ∃ w' config derived,
    setup_scan_config W mkdir load_model_config save_config save_model_config
      flatten deepen recursive_update split_defaults
      project name scan_params scan_config_overrides
      default_model_name_fmt model_overrides w
    = (w', ok (config, derived))
    ∧ _resolve_scan_model_list W load_config project (ScanName name) w'
      = (w', ok ((λ i, (name ++ "_" ++ pretty i)%string) <$> seq 0 n)).
Proof.
  intros Hflat Hne Hnd Hlists Hload Hfit Htype Hstd Hitems Hmk Hsc Hsm Hfr.
  set (nm := λ i : nat, (name ++ "_" ++ pretty i)%string).
  assert (models_mapping default_model_name_fmt name grid (seq 0 n) []
          = ok ([] ++ ((λ i, (nm i, YDict (column_at i grid))) <$> seq 0 n)))
    as Hmodels.
  { apply (models_mapping_ok _ _ nm n); try done.
    - intros i Hi. apply elem_of_seq in Hi. lia.
    - apply (default_names_NoDup name), NoDup_seq. }
  simpl in Hmodels.
  destruct (setup_scan_config_run W mkdir load_model_config save_config
              save_model_config flatten deepen recursive_update split_defaults
              project name scan_params scan_config_overrides
              default_model_name_fmt model_overrides n grid _ base fit
              fit_type items w w1 Hflat (count_models_ok grid n Hne Hlists)
              Hmodels Hload Hfit Htype Hstd Hitems Hmk Hsc Hsm)
    as (mc & w3 & w4 & w' & _ & Hsaved1 & Hsaved2 & Hrun).
  eexists w', _, _. split; [exact Hrun|].
  unfold _resolve_scan_model_list. cbv [mbind M_bind mbind' mlift].
  assert (scan project name /: "scan.yml"
          ≠ scan project name /: "base_model.yml") as Hpaths.
  { unfold path_join. intros Heq.
    apply (inj (String.app _)) in Heq. discriminate. }
  rewrite (Hfr _ _ _ _ _ _ _ Hpaths Hsaved1 Hsaved2).
  unfold ok. cbv beta iota. simpl. unfold dict_keys.
  by rewrite <- list_fmap_compose.
Qed.

Lemma setup_scan_config_then_model_list_witness :
  let flatten := λ y, match y with YDict d => d | _ => [] end in
  let load := λ (p : string) (w : pydict yaml),
    (w, match dict_lookup w p with
        | Some c => ok c
        | None => raise (OSError p)
        end) in
  let save := λ (p : string) (c : yaml) (w : pydict yaml),
    ((p, c) :: w, ok tt) in
  let base := YDict [("fit", YDict [("type", YStr "standard")])] in
  let grid := [("fit.n_steps", YList [YInt 10; YInt 20])] in
  ∃ w' config derived,
    setup_scan_config (pydict yaml) (λ _ _, mret tt) load save save
      flatten YDict (λ a _, a) (YDict [])
      (MkProject "proj") "scan" (YDict grid) [] default_model_name_fmt []
      [("proj/base_model.yml", base)]
    = (w', ok (config, derived))
    ∧ _resolve_scan_model_list (pydict yaml) load (MkProject "proj")
        (ScanName "scan") w'
      = (w', ok ["scan_0"; "scan_1"]).
Proof.
  intros flatten load save base grid.
  destruct (setup_scan_config_then_model_list (pydict yaml) (λ _ _, mret tt)
              load save save flatten YDict (λ a _, a) (YDict []) load
              (MkProject "proj") "scan" (YDict grid) [] []
              2 grid [] base
              (YDict [("type", YStr "standard")]) (YStr "standard")
              [("proj/base_model.yml", base)] [("proj/base_model.yml", base)])
    as (w' & config & derived & Hrun & Hres).
  - reflexivity.
  - discriminate.
  - apply NoDup_singleton.
  - repeat constructor; eexists; (split; [reflexivity | reflexivity]).
  - reflexivity.
  - reflexivity.
  - reflexivity.
  - reflexivity.
  - reflexivity.
  - intros p b w. exists w. reflexivity.
  - intros p c w. eexists. reflexivity.
  - intros p c w. eexists. reflexivity.
  - intros p q c c' w w1 w2 Hne Hs1 Hs2.
    injection Hs1 as <-. injection Hs2 as <-. unfold load. simpl.
    rewrite bool_decide_eq_false_2 by done.
    by rewrite bool_decide_eq_true_2.
  - exists w', config, derived. split; [exact Hrun | exact Hres].
Defined.

End ScansMore.

(** ** Plotting style bootstrap: when the fallback is taken *)

Module StylesMore.
Import Styles StylesSpec.
Local Open Scope list_scope.

(** X22: [set_style] logs its warning exactly when the requested style is
    not in [color_sets] or matplotlib resolves neither its name nor its
    style sheet, and then only once; otherwise the log is left as it
    is. *)
Theorem set_style_warns_iff_fallback
    (colorset : Type) (color_sets : gmap string colorset)
    (library stylesheets : gset string) (style : string)
    (w : world colorset) :
  log (set_style colorset color_sets library stylesheets style w).1
  = if bool_decide (is_Some (color_sets !! style))
       && (style_known library stylesheets (StyleName style)
           || style_known library stylesheets (StyleSheet style))
    then log w
    else log w ++ [warn_message].
Proof.
  run_styles. rewrite (default_known library stylesheets).
  destruct (style_known library stylesheets (StyleName style));
    destruct (style_known library stylesheets (StyleSheet style));
    destruct (color_sets !! style) as [c|] eqn:Hc; simpl;
    rewrite ?Hc; simpl;
    try (rewrite bool_decide_eq_true_2 by (by eexists));
    try (rewrite bool_decide_eq_false_2 by (by intros [? ?]));
    simpl; by destruct (color_sets !! "default").
Qed.

(** X23: for a registered style, with the default palette registered and
    a context seaborn knows, [init_nb] returns the plot finalizer first
    and the active palette second; the palette is the one of the style
    when matplotlib resolves the style by name or by sheet, and the
    default palette when it resolves neither. *)
Theorem init_nb_returned_palette
    (colorset : Type) (color_sets : gmap string colorset)
    (library stylesheets contexts : gset string)
    (plot_dir style ctx : string) (kws : list (string * string))
    (w : world colorset) (c d : colorset) :
  color_sets !! style = Some c →
  color_sets !! "default" = Some d →
  ctx ∈ contexts →
  ∃ w',
    init_nb colorset color_sets library stylesheets contexts
      plot_dir style ctx kws w
    = (w', ok (PlotFinalizer plot_dir kws,
               Some (if style_known library stylesheets (StyleName style)
                        || style_known library stylesheets (StyleSheet style)
                     then c else d)))
    ∧ context w' = Some ctx.
Proof.
  intros Hc Hd Hctx. run_styles. rewrite (default_known library stylesheets).
  destruct (style_known library stylesheets (StyleName style));
    destruct (style_known library stylesheets (StyleSheet style)); simpl;
    rewrite ?Hc, ?Hd; simpl;
    rewrite (bool_decide_eq_true_2 _ Hctx), ?Hc; simpl; by eexists.
Qed.

Lemma init_nb_returned_palette_witness :
  ∃ w',
    init_nb string {["default" := "plain"; "vscode_dark" := "dark"]}
      {["ggplot"]} ∅ {["paper"]} "plots" "vscode_dark" "paper" []
      (World [] None None [])
    = (w', ok (PlotFinalizer "plots" [], Some "plain")).
Proof.
  destruct (init_nb_returned_palette string
              {["default" := "plain"; "vscode_dark" := "dark"]}
              {["ggplot"]} ∅ {["paper"]} "plots" "vscode_dark" "paper" []
              (World [] None None []) "dark" "plain")
    as (w' & Hrun & _).
  - reflexivity.
  - reflexivity.
  - by apply elem_of_singleton.
  - exists w'. rewrite Hrun. reflexivity.
Defined.

End StylesMore.
